(** * A file server over a framed text protocol: model and verification

    The development embeds [file_protocol.py] (class [FileProtocol]) and the
    session loop [handle_client] of [file_server_processpool.py].

    Conventions of the embedding:
    - a Python [str] is a [string]; its characters are the code points
      0..255.  The upper-case form of such a text can leave that range
      (U+00B5 and U+00FF) or grow (U+00DF), so [upper] yields a list of
      code points;
    - a Python [bytes] is a [list byte];
    - [base64] and [json.dumps] are functions of the Python runtime; they
      are modelled after CPython 3.11;
    - the storage directory exists (the constructor creates it) and is a
      finite map from entry names to nodes; paths follow [posixpath]; every
      library call on the file system is recorded in a trace together with
      its path, and the platform may refuse any of them;
    - a Python call either returns or raises: handlers run in a small
      state-and-exception monad and [try]/[except] is a combinator of it;
    - one session runs at a time; its peer is a script of what [recv]
      delivers and of which calls of [sendall] raise;
    - [logging] calls have no effect on any response and are left out. *)

From Stdlib Require Import String Ascii NArith Arith List Bool Lia.
From Stdlib Require Import Strings.Byte.
From Stdlib Require Import DecimalString.
From stdpp Require Import gmap strings list.

Local Open Scope char_scope.
Local Open Scope stdpp_scope.
Local Set Warnings "-register-all".

(** ** Python string primitives *)

Module PyStr.

Definition code (c : ascii) : N := N_of_ascii c.

(** [str.isspace] on one code point below 256. *)
Definition is_space (c : ascii) : bool :=
  let n := code c in
  ((9 <=? n) && (n <=? 13) || (28 <=? n) && (n <=? 32)
   || (n =? 133) || (n =? 160))%N.

(** A Python [str] given by its code points, which may lie above 255. *)
Definition wide : Type := list N.

(** The code points of a text. *)
Fixpoint points (s : string) : wide :=
  match s with
  | EmptyString => []
  | String a s' => code a :: points s'
  end.

Coercion points : string >-> wide.

(** [a == b] on texts given by their code points. *)
Fixpoint wide_eqb (a b : wide) : bool :=
  match a, b with
  | [], [] => true
  | x :: a', y :: b' => (x =? y)%N && wide_eqb a' b'
  | _, _ => false
  end.

(** [str.upper] on one code point below 256: the sharp s becomes [SS],
    the micro sign the Greek capital mu (U+039C), and the y with
    diaeresis its capital (U+0178). *)
Definition upper_char (c : ascii) : wide :=
  let n := code c in
  if (n =? 223)%N then [83; 83]%N
  else if (n =? 181)%N then [924]%N
  else if (n =? 255)%N then [376]%N
  else if ((97 <=? n) && (n <=? 122)
           || (224 <=? n) && (n <=? 254) && negb (n =? 247))%N
  then [n - 32]%N else [n].

Fixpoint upper (s : string) : wide :=
  match s with
  | EmptyString => []
  | String a s' => upper_char a ++ upper s'
  end.

Fixpoint lstrip (s : string) : string :=
  match s with
  | EmptyString => EmptyString
  | String a s' => if is_space a then lstrip s' else s
  end.

Fixpoint rstrip (s : string) : string :=
  match s with
  | EmptyString => EmptyString
  | String a s' =>
      match rstrip s' with
      | EmptyString => if is_space a then EmptyString else String a EmptyString
      | r => String a r
      end
  end.

(** [s.strip()] *)
Definition strip (s : string) : string := rstrip (lstrip s).

(** [s.startswith(p)] *)
Fixpoint startswith (p s : string) : bool :=
  match p, s with
  | EmptyString, _ => true
  | String _ _, EmptyString => false
  | String a p', String b s' => Ascii.eqb a b && startswith p' s'
  end.

(** [sub in s] *)
Fixpoint str_in (sub s : string) : bool :=
  startswith sub s ||
  match s with
  | EmptyString => false
  | String _ s' => str_in sub s'
  end.

Fixpoint drop (n : nat) (s : string) : string :=
  match n, s with
  | O, _ => s
  | S _, EmptyString => EmptyString
  | S n', String _ s' => drop n' s'
  end.

(** The text before and after the first occurrence of [sep], if any. *)
Fixpoint partition (sep s : string) : option (string * string) :=
  if startswith sep s then Some (EmptyString, drop (String.length sep) s)
  else
    match s with
    | EmptyString => None
    | String a s' =>
        match partition sep s' with
        | Some (h, t) => Some (String a h, t)
        | None => None
        end
    end.

(** [s.split(sep, maxsplit)] for a non-empty separator. *)
Fixpoint split (sep : string) (maxsplit : nat) (s : string) : list string :=
  match maxsplit with
  | O => [s]
  | S n =>
      match partition sep s with
      | None => [s]
      | Some (h, t) => h :: split sep n t
      end
  end.

(** [str(n)] for a non-negative integer. *)
Definition str_of_nat (n : nat) : string :=
  NilZero.string_of_uint (Nat.to_uint n).

(** [str.isprintable] on one code point below 256. *)
Definition is_printable (c : ascii) : bool :=
  let n := code c in
  ((32 <=? n) && (n <=? 126) || (161 <=? n) && negb (n =? 173))%N.

Definition hex_char (n : N) : ascii :=
  match String.get (N.to_nat n) "0123456789abcdef" with
  | Some c => c
  | None => "0"%char
  end.

(** One character of [repr(s)] between quotes [q]. *)
Definition repr_char (q c : ascii) : string :=
  let n := code c in
  if Ascii.eqb c q || Ascii.eqb c "092"%char then String "092"%char (String c EmptyString)
  else if (n =? 9)%N then String "092"%char (String "t"%char EmptyString)
  else if (n =? 10)%N then String "092"%char (String "n"%char EmptyString)
  else if (n =? 13)%N then String "092"%char (String "r"%char EmptyString)
  else if is_printable c then String c EmptyString
  else String "092"%char
         (String "x"%char
            (String (hex_char (N.shiftr n 4))
               (String (hex_char (N.land n 15)) EmptyString))).

Fixpoint repr_body (q : ascii) (s : string) : string :=
  match s with
  | EmptyString => EmptyString
  | String a s' => repr_char q a +:+ repr_body q s'
  end.

Fixpoint has_char (c : ascii) (s : string) : bool :=
  match s with
  | EmptyString => false
  | String a s' => Ascii.eqb a c || has_char c s'
  end.

(** [repr(s)]: single quotes, unless the text has a single quote and no
    double quote. *)
Definition repr (s : string) : string :=
  let q : ascii :=
    if has_char "'"%char s && negb (has_char "034"%char s) then "034"%char
    else "'"%char in
  String q (repr_body q s +:+ String q EmptyString).

End PyStr.

(** ** The [base64] module of the Python runtime

    [b64encode] and the permissive [b64decode] (its default,
    [validate=False]), following CPython 3.11's [binascii.b2a_base64] and
    [binascii.a2b_base64]. *)

Module Base64.

Definition table_b2a_base64 : string :=
  "ABCDEFGHIJKLMNOPQRSTUVWXYZabcdefghijklmnopqrstuvwxyz0123456789+/".

Definition BASE64_PAD : ascii := "=".

Definition byte_val (b : byte) : N := Byte.to_N b.

(** An [unsigned char] assignment: the low eight bits are kept. *)
Definition to_byte (n : N) : byte :=
  match Byte.of_N (N.land n 255) with
  | Some b => b
  | None => x00
  end.

(** The digit of a six-bit value. *)
Definition b2a (n : N) : ascii :=
  match String.get (N.to_nat n) table_b2a_base64 with
  | Some c => c
  | None => BASE64_PAD
  end.

Fixpoint index_from (i : N) (c : ascii) (s : string) : option N :=
  match s with
  | EmptyString => None
  | String a s' => if Ascii.eqb a c then Some i else index_from (N.succ i) c s'
  end.

(** [table_a2b_base64]: the value of a digit, [None] for any other character. *)
Definition a2b (c : ascii) : option N := index_from 0 c table_b2a_base64.

Fixpoint b64encode (data : list byte) : string :=
  match data with
  | [] => EmptyString
  | [b1] =>
      let n1 := byte_val b1 in
      String (b2a (N.shiftr n1 2))
        (String (b2a (N.shiftl (N.land n1 3) 4))
           (String BASE64_PAD (String BASE64_PAD EmptyString)))
  | [b1; b2] =>
      let n1 := byte_val b1 in
      let n2 := byte_val b2 in
      String (b2a (N.shiftr n1 2))
        (String (b2a (N.lor (N.shiftl (N.land n1 3) 4) (N.shiftr n2 4)))
           (String (b2a (N.shiftl (N.land n2 15) 2))
              (String BASE64_PAD EmptyString)))
  | b1 :: b2 :: b3 :: rest =>
      let n1 := byte_val b1 in
      let n2 := byte_val b2 in
      let n3 := byte_val b3 in
      String (b2a (N.shiftr n1 2))
        (String (b2a (N.lor (N.shiftl (N.land n1 3) 4) (N.shiftr n2 4)))
           (String (b2a (N.lor (N.shiftl (N.land n2 15) 2) (N.shiftr n3 6)))
              (String (b2a (N.land n3 63)) (b64encode rest))))
  end.

Definition emit (b : byte) (r : option (list byte)) : option (list byte) :=
  match r with
  | Some l => Some (b :: l)
  | None => None
  end.

(** The scanning loop of [a2b_base64] in its non-strict mode.  [None] is
    the [binascii.Error] raised when the digits do not fill whole quads. *)
Fixpoint a2b_base64 (s : string) (quad_pos : nat) (leftchar : N) (pads : nat)
  : option (list byte) :=
  match s with
  | EmptyString => if Nat.eqb quad_pos 0 then Some [] else None
  | String this_ch s' =>
      if Ascii.eqb this_ch BASE64_PAD then
        if (2 <=? quad_pos)%nat then
          if (4 <=? quad_pos + S pads)%nat then Some []
          else a2b_base64 s' quad_pos leftchar (S pads)
        else a2b_base64 s' quad_pos leftchar pads
      else
        match a2b this_ch with
        | None => a2b_base64 s' quad_pos leftchar pads
        | Some v =>
            match quad_pos with
            | 0%nat => a2b_base64 s' 1%nat v 0%nat
            | 1%nat =>
                emit (to_byte (N.lor (N.shiftl leftchar 2) (N.shiftr v 4)))
                  (a2b_base64 s' 2%nat (N.land v 15) 0%nat)
            | 2%nat =>
                emit (to_byte (N.lor (N.shiftl leftchar 4) (N.shiftr v 2)))
                  (a2b_base64 s' 3%nat (N.land v 3) 0%nat)
            | _ =>
                emit (to_byte (N.lor (N.shiftl leftchar 6) v))
                  (a2b_base64 s' 0%nat 0%N 0%nat)
            end
        end
  end.

Fixpoint is_ascii (s : string) : bool :=
  match s with
  | EmptyString => true
  | String a s' => (N_of_ascii a <? 128)%N && is_ascii s'
  end.

(** [base64.b64decode(s)] for a [str] argument: [None] when it raises
    ([ValueError] on a non-ASCII character, [binascii.Error] otherwise). *)
Definition b64decode (s : string) : option (list byte) :=
  if is_ascii s then a2b_base64 s 0%nat 0%N 0%nat else None.

End Base64.

(** ** [json.dumps] on the values the handlers build *)

Module Json.

(** A Python [str] is [Str] when its code points lie below 256 and [WStr]
    when it is given by its code points; both serialize alike. *)
Inductive value :=
| Str (s : string)
| WStr (t : PyStr.wide)
| Int (n : nat)
| Arr (l : list value)
| Obj (l : list (string * value)).

Definition quote : ascii := "034".
Definition backslash : ascii := "092".

Definition hex_digit (n : N) : ascii :=
  match String.get (N.to_nat n) "0123456789abcdef" with
  | Some c => c
  | None => "0"
  end.

(** One character under [ensure_ascii=True]. *)
Definition escape_char (c : ascii) : string :=
  let n := N_of_ascii c in
  if Ascii.eqb c quote then String backslash (String quote EmptyString)
  else if Ascii.eqb c backslash then String backslash (String backslash EmptyString)
  else if (n =? 8)%N then String backslash "b"
  else if (n =? 9)%N then String backslash "t"
  else if (n =? 10)%N then String backslash "n"
  else if (n =? 12)%N then String backslash "f"
  else if (n =? 13)%N then String backslash "r"
  else if ((32 <=? n) && (n <=? 126))%N then String c EmptyString
  else String backslash
         (String "u" (String "0" (String "0"
            (String (hex_digit (N.shiftr n 4))
               (String (hex_digit (N.land n 15)) EmptyString))))).

Fixpoint escape (s : string) : string :=
  match s with
  | EmptyString => EmptyString
  | String a s' => escape_char a +:+ escape s'
  end.

Definition quoted (s : string) : string :=
  String quote (escape s +:+ String quote EmptyString).

(** [\uXXXX] *)
Definition escape_unit (n : N) : string :=
  String backslash
    (String "u"
       (String (hex_digit (N.land (N.shiftr n 12) 15))
          (String (hex_digit (N.land (N.shiftr n 8) 15))
             (String (hex_digit (N.land (N.shiftr n 4) 15))
                (String (hex_digit (N.land n 15)) EmptyString))))).

(** One code point under [ensure_ascii=True]; a code point above U+FFFF
    is written as a surrogate pair. *)
Definition escape_point (n : N) : string :=
  if (n <? 256)%N then escape_char (ascii_of_N n)
  else if (n <? 65536)%N then escape_unit n
  else
    let v := (n - 65536)%N in
    escape_unit (N.lor 55296 (N.land (N.shiftr v 10) 1023))
    +:+ escape_unit (N.lor 56320 (N.land v 1023)).

Fixpoint escape_wide (t : PyStr.wide) : string :=
  match t with
  | [] => EmptyString
  | n :: t' => escape_point n +:+ escape_wide t'
  end.

Definition quoted_wide (t : PyStr.wide) : string :=
  String quote (escape_wide t +:+ String quote EmptyString).

(** [", ".join(items)] *)
Fixpoint join (items : list string) : string :=
  match items with
  | [] => EmptyString
  | [x] => x
  | x :: rest => x +:+ ", " +:+ join rest
  end.

Fixpoint dumps (v : value) : string :=
  match v with
  | Str s => quoted s
  | WStr t => quoted_wide t
  | Int n => PyStr.str_of_nat n
  | Arr l => "[" +:+ join (List.map dumps l) +:+ "]"
  | Obj l =>
      "{" +:+
      join (List.map (fun kv => quoted (fst kv) +:+ ": " +:+ dumps (snd kv)) l)
      +:+ "}"
  end.

End Json.

(** ** Exceptions and state

    A computation runs in a world and either returns a value or raises an
    exception, of which only [str(e)] is ever observed. *)

Module Py.

Inductive outcome (A : Type) :=
| Return (a : A)
| Raise (e : string).
Arguments Return {A} a.
Arguments Raise {A} e.

Section Monad.
Context {W : Type}.

Definition M (A : Type) : Type := W -> outcome A * W.

Definition ret {A} (a : A) : M A := fun w => (Return a, w).

Definition raise {A} (e : string) : M A := fun w => (Raise e, w).

Definition bind {A B} (m : M A) (k : A -> M B) : M B :=
  fun w =>
    match m w with
    | (Return a, w') => k a w'
    | (Raise e, w') => (Raise e, w')
    end.

(** [try: body  except Exception as e: handler(e)] *)
Definition try_except {A} (body : M A) (handler : string -> M A) : M A :=
  fun w =>
    match body w with
    | (Return a, w') => (Return a, w')
    | (Raise e, w') => handler e w'
    end.

(** [l[i]] *)
Definition index {A} (l : list A) (i : nat) : M A :=
  match nth_error l i with
  | Some a => ret a
  | None => raise "list index out of range"
  end.
End Monad.

Arguments M W A : clear implicits.

End Py.

Notation "x <- m ;; k" := (Py.bind m (fun x => k))
  (at level 100, m at next level, right associativity, only parsing).
Notation "m ;;; k" := (Py.bind m (fun _ => k))
  (at level 100, right associativity, only parsing).

(** ** The operating system under the storage directory *)

Module Os.
Import PyStr Py.

Inductive node :=
| RegFile (content : list byte)
| SubDir.

(** The library calls the handlers make, as the trace records them. *)
Inductive oscall :=
| Exists | IsFile | GetSize | Listdir
| OpenRb | FRead | OpenWb | FWrite | Remove.

(** [storage_path] is the protocol object's attribute and [entries] the
    content of that directory.  [os_error c p = Some msg] says that the
    platform refuses call [c] on path [p] with [OSError(msg)]
    (permissions, a full disk, ...).  [calls] is the trace. *)
Record world := World {
  storage_path : string;
  entries : gmap string node;
  os_error : oscall -> string -> option string;
  calls : list (oscall * string)
}.

Definition set_entries (w : world) (m : gmap string node) : world :=
  World (storage_path w) m (os_error w) (calls w).

(** [self.storage_path] *)
Definition self_storage_path : M world string :=
  fun w => (Return (storage_path w), w).

Definition record (c : oscall) (p : string) : M world unit :=
  fun w =>
    (Return tt,
     World (storage_path w) (entries w) (os_error w) (calls w ++ [(c, p)])).

Fixpoint endswith_sep (s : string) : bool :=
  match s with
  | EmptyString => false
  | String a EmptyString => Ascii.eqb a "/"
  | String _ s' => endswith_sep s'
  end.

(** [os.path.join(a, b)] of [posixpath]. *)
Definition path_join (a b : string) : string :=
  if startswith "/" b then b
  else if String.eqb a "" || endswith_sep a then a +:+ b
  else a +:+ "/" +:+ b.

Fixpoint strip_prefix (p s : string) : option string :=
  match p, s with
  | EmptyString, _ => Some s
  | String _ _, EmptyString => None
  | String a p', String b s' => if Ascii.eqb a b then strip_prefix p' s' else None
  end.

(** What a path denotes.  The model holds the storage directory and its
    entries; any other path is [Outside], and every call on it fails as
    on a missing file. *)
Inductive target :=
| Root
| Entry (name : string)
| Outside.

Definition locate (w : world) (path : string) : target :=
  match strip_prefix (path_join (storage_path w) "") path with
  | Some n =>
      if String.eqb n "" || String.eqb n "." then Root
      else if String.eqb n ".." || str_in "/" n then Outside
      else Entry n
  | None => if String.eqb path (storage_path w) then Root else Outside
  end.

Definition NUL : string := String "000" EmptyString.

(** [str(e)] of an [OSError] with a filename: the filename is shown as
    [repr] prints it. *)
Definition no_such_file (path : string) : string :=
  "[Errno 2] No such file or directory: " +:+ repr path.
Definition is_a_directory (path : string) : string :=
  "[Errno 21] Is a directory: " +:+ repr path.
Definition embedded_null : string := "embedded null byte".

(** A system call that can raise: the trace entry, the platform's
    refusal, the check for an embedded NUL, then the call itself. *)
Definition guarded {A} (c : oscall) (path : string) (body : M world A)
  : M world A :=
  record c path ;;;
  fun w =>
    match os_error w c path with
    | Some msg => (Raise msg, w)
    | None => if str_in NUL path then (Raise embedded_null, w) else body w
    end.

(** [os.path.exists] and [os.path.isfile] answer [False] on any error. *)
Definition probe (c : oscall) (path : string) (test : world -> bool)
  : M world bool :=
  record c path ;;;
  fun w =>
    match os_error w c path with
    | Some _ => (Return false, w)
    | None => if str_in NUL path then (Return false, w) else (Return (test w), w)
    end.

Definition os_path_exists (path : string) : M world bool :=
  probe Exists path (fun w =>
    match locate w path with
    | Root => true
    | Entry n => match entries w !! n with Some _ => true | None => false end
    | Outside => false
    end).

Definition os_path_isfile (path : string) : M world bool :=
  probe IsFile path (fun w =>
    match locate w path with
    | Entry n => match entries w !! n with Some (RegFile _) => true | _ => false end
    | _ => false
    end).

(** The size the platform reports for a directory. *)
Definition DIR_SIZE : nat := 4096.

Definition os_path_getsize (path : string) : M world nat :=
  guarded GetSize path (fun w =>
    match locate w path with
    | Root => (Return DIR_SIZE, w)
    | Entry n =>
        match entries w !! n with
        | Some (RegFile c) => (Return (length c), w)
        | Some SubDir => (Return DIR_SIZE, w)
        | None => (Raise (no_such_file path), w)
        end
    | Outside => (Raise (no_such_file path), w)
    end).

(** [os.listdir]: the entry names, in the platform's order. *)
Definition os_listdir (path : string) : M world (list string) :=
  guarded Listdir path (fun w =>
    match locate w path with
    | Root => (Return (fst <$> map_to_list (entries w)), w)
    | _ => (Raise (no_such_file path), w)
    end).

(** An open file object. *)
Inductive file := File (path : string).

(** [open(path, 'rb')] *)
Definition open_rb (path : string) : M world file :=
  guarded OpenRb path (fun w =>
    match locate w path with
    | Root => (Raise (is_a_directory path), w)
    | Entry n =>
        match entries w !! n with
        | Some (RegFile _) => (Return (File path), w)
        | Some SubDir => (Raise (is_a_directory path), w)
        | None => (Raise (no_such_file path), w)
        end
    | Outside => (Raise (no_such_file path), w)
    end).

(** [f.read()] *)
Definition f_read (f : file) : M world (list byte) :=
  let 'File path := f in
  guarded FRead path (fun w =>
    match locate w path with
    | Entry n =>
        match entries w !! n with
        | Some (RegFile c) => (Return c, w)
        | _ => (Raise (no_such_file path), w)
        end
    | _ => (Raise (no_such_file path), w)
    end).

(** [open(path, 'wb')]: creates the file, or truncates it. *)
Definition open_wb (path : string) : M world file :=
  guarded OpenWb path (fun w =>
    match locate w path with
    | Root => (Raise (is_a_directory path), w)
    | Entry n =>
        match entries w !! n with
        | Some SubDir => (Raise (is_a_directory path), w)
        | _ => (Return (File path), set_entries w (<[n := RegFile []]> (entries w)))
        end
    | Outside => (Raise (no_such_file path), w)
    end).

(** [f.write(data)] *)
Definition f_write (f : file) (data : list byte) : M world unit :=
  let 'File path := f in
  guarded FWrite path (fun w =>
    match locate w path with
    | Entry n =>
        match entries w !! n with
        | Some (RegFile c) =>
            (Return tt, set_entries w (<[n := RegFile (c ++ data)]> (entries w)))
        | _ => (Raise (no_such_file path), w)
        end
    | _ => (Raise (no_such_file path), w)
    end).

(** [os.remove(path)] *)
Definition os_remove (path : string) : M world unit :=
  guarded Remove path (fun w =>
    match locate w path with
    | Root => (Raise (is_a_directory path), w)
    | Entry n =>
        match entries w !! n with
        | Some (RegFile _) => (Return tt, set_entries w (delete n (entries w)))
        | Some SubDir => (Raise (is_a_directory path), w)
        | None => (Raise (no_such_file path), w)
        end
    | Outside => (Raise (no_such_file path), w)
    end).

End Os.

(** ** [file_protocol.py]: class [FileProtocol] *)

Module FileProtocol.
Import PyStr Py Os Base64 Json.

Definition error_response (data : string) : string :=
  dumps (Obj [("status", Str "ERROR"); ("data", Str data)]).

(** The ERROR record of an unknown verb: its message is the text
    [f'Unknown command: {command}'], whose code points may lie above 255. *)
Definition unknown_command (command : wide) : string :=
  dumps (Obj [("status", Str "ERROR");
              ("data", WStr (points "Unknown command: " ++ command))]).

Definition dangerous_chars : list string :=
  [".."; "/"; String backslash EmptyString; ":"; "*"; "?";
   String quote EmptyString; "<"; ">"; "|"].

Definition _is_valid_filename (filename : string) : bool :=
  if String.eqb filename "" then false
  else if existsb (fun char => str_in char filename) dangerous_chars then false
  else if (255 <? String.length filename)%nat then false
  else true.

Definition _handle_upload (parts : list string) : M world string :=
  if (length parts <? 3)%nat then
    ret (error_response "UPLOAD command requires filename and content")
  else
    try_except
      (filename <- index parts 1 ;;
       base64_content <- index parts 2 ;;
       if negb (_is_valid_filename filename) then
         ret (error_response "Invalid filename")
       else
         match b64decode base64_content with
         | None => ret (error_response "Invalid base64 content")
         | Some file_content =>
             storage <- self_storage_path ;;
             let file_path := path_join storage filename in
             f <- open_wb file_path ;;
             f_write f file_content ;;;
             let file_size := length file_content in
             ret (dumps (Obj [("status", Str "OK");
                              ("data", Str ("File " +:+ filename +:+
                                            " uploaded successfully"));
                              ("file_size", Int file_size)]))
         end)
      (fun e => ret (error_response ("Upload failed: " +:+ e))).

Definition _handle_get (parts : list string) : M world string :=
  if (length parts <? 2)%nat then
    ret (error_response "GET command requires filename")
  else
    try_except
      (filename <- index parts 1 ;;
       if negb (_is_valid_filename filename) then
         ret (error_response "Invalid filename")
       else
         storage <- self_storage_path ;;
         let file_path := path_join storage filename in
         present <- os_path_exists file_path ;;
         if negb present then
           ret (error_response ("File not found: " +:+ filename))
         else
           f <- open_rb file_path ;;
           file_content <- f_read f ;;
           let base64_content := b64encode file_content in
           let file_size := length file_content in
           ret (dumps (Obj [("status", Str "OK");
                            ("data", Str ("File " +:+ filename +:+
                                          " retrieved successfully"));
                            ("data_file", Str base64_content);
                            ("file_size", Int file_size)])))
      (fun e => ret (error_response ("Get failed: " +:+ e))).

(** The [for] loop of [_handle_list]. *)
Fixpoint list_loop (storage : string) (names : list string)
    (files : list value) : M world (list value) :=
  match names with
  | [] => ret files
  | filename :: rest =>
      let file_path := path_join storage filename in
      regular <- os_path_isfile file_path ;;
      if regular then
        file_size <- os_path_getsize file_path ;;
        let file_info := Obj [("filename", Str filename); ("size", Int file_size)] in
        list_loop storage rest (files ++ [file_info])
      else list_loop storage rest files
  end.

Definition _handle_list : M world string :=
  try_except
    (storage <- self_storage_path ;;
     names <- os_listdir storage ;;
     files <- list_loop storage names [] ;;
     ret (dumps (Obj [("status", Str "OK");
                      ("data", Str "File list retrieved successfully");
                      ("files", Arr files);
                      ("count", Int (length files))])))
    (fun e => ret (error_response ("List failed: " +:+ e))).

Definition _handle_delete (parts : list string) : M world string :=
  if (length parts <? 2)%nat then
    ret (error_response "DELETE command requires filename")
  else
    try_except
      (filename <- index parts 1 ;;
       if negb (_is_valid_filename filename) then
         ret (error_response "Invalid filename")
       else
         storage <- self_storage_path ;;
         let file_path := path_join storage filename in
         present <- os_path_exists file_path ;;
         if negb present then
           ret (error_response ("File not found: " +:+ filename))
         else
           os_remove file_path ;;;
           ret (dumps (Obj [("status", Str "OK");
                            ("data", Str ("File " +:+ filename +:+
                                          " deleted successfully"))])))
      (fun e => ret (error_response ("Delete failed: " +:+ e))).

(** [command_string.strip().split(' ', 2)] *)
Definition command_parts (command_string : string) : list string :=
  split " " 2 (strip command_string).

Definition proses_string (command_string : string) : M world string :=
  try_except
    (let parts := command_parts command_string in
     match parts with
     | [] => ret (error_response "Empty command")
     | _ =>
         part0 <- index parts 0 ;;
         let command := upper part0 in
         if wide_eqb command "UPLOAD" then _handle_upload parts
         else if wide_eqb command "GET" then _handle_get parts
         else if wide_eqb command "LIST" then _handle_list
         else if wide_eqb command "DELETE" then _handle_delete parts
         else ret (unknown_command command)
     end)
    (fun e => ret (error_response ("Server error: " +:+ e))).

End FileProtocol.

(** ** [file_server_processpool.py]: the session loop [handle_client] *)

Module Session.
Import PyStr Py Os FileProtocol.

Definition DELIMITER : string :=
  String "013" (String "010" (String "013" (String "010" EmptyString))).

(** What one [connection.recv] yields: the decoded text of a chunk (the
    empty text stands for [b''], the peer's close), a chunk that
    [data.decode()] rejects, or an exception of the socket (the idle
    timeout, a reset).  Every chunk is decoded on its own: a chunk that
    ends inside a multi-byte character is [Undecodable]. *)
Inductive recv_result :=
| Data (text : string)
| Undecodable
| RecvRaises (e : string).

(** The peer's side of the socket: what [connection.recv] yields, call
    after call (a script that ends stands for a peer that has closed),
    and for every call of [connection.sendall], counted from 0, the
    exception it raises, if any (a broken pipe, a reset, the timeout). *)
Record connection := Connection {
  incoming : list recv_result;
  sendall_error : nat -> option string
}.

(** What the session does on its socket, in order: [Send] is a call of
    [sendall] that returned, [SendFails] one that raised. *)
Inductive event :=
| Recv
| Send (frame : string)
| SendFails (frame : string)
| Close.

(** The inner [while] loop, entered when [k] calls of [sendall] have been
    made: the sends, then the buffer left over ([Return]) or the
    exception that ended the loop ([Raise]).  [None] only when [fuel]
    runs out. *)
Fixpoint frames_loop (fuel : nat) (refuse : nat -> option string) (k : nat)
    (buffer : string) (w : world)
  : option (list event * outcome string * world) :=
  match fuel with
  | O => None
  | S fuel' =>
      if str_in DELIMITER buffer then
        match split DELIMITER 1 buffer with
        | [command; buffer'] =>
            match proses_string command w with
            | (Return hasil, w') =>
                let response := hasil +:+ DELIMITER in
                match refuse k with
                | Some e => Some ([SendFails response], Raise e, w')
                | None =>
                    match frames_loop fuel' refuse (S k) buffer' w' with
                    | Some (evs, r, w'') => Some (Send response :: evs, r, w'')
                    | None => None
                    end
                end
            | (Raise e, w') => Some ([], Raise e, w')
            end
        | _ => Some ([], Raise "not enough values to unpack", w)
        end
      else Some ([], Return buffer, w)
  end.

(** Every pass removes a delimiter, so the length of the buffer bounds
    the number of passes. *)
Definition process_buffer (refuse : nat -> option string) (k : nat)
    (buffer : string) (w : world)
  : option (list event * outcome string * world) :=
  frames_loop (S (String.length buffer)) refuse k buffer w.

(** The frames that were sent. *)
Definition sends (evs : list event) : list string :=
  omap (fun e => match e with Send frame => Some frame | _ => None end) evs.

(** The outer [while True] loop over what the socket delivers, entered
    when [k] calls of [sendall] have been made.  Any exception ends it. *)
Fixpoint serve (incoming : list recv_result) (refuse : nat -> option string)
    (k : nat) (buffer : string) (w : world)
  : option (list event * world) :=
  match incoming with
  | [] => Some ([Recv], w)
  | Data EmptyString :: _ => Some ([Recv], w)
  | Data data :: rest =>
      match process_buffer refuse k (buffer +:+ data) w with
      | Some (sent, Return buffer', w') =>
          match serve rest refuse (k + length (sends sent)) buffer' w' with
          | Some (evs, w'') => Some (Recv :: sent ++ evs, w'')
          | None => None
          end
      | Some (sent, Raise _, w') => Some (Recv :: sent, w')
      | None => None
      end
  | Undecodable :: _ => Some ([Recv], w)
  | RecvRaises _ :: _ => Some ([Recv], w)
  end.

(** [handle_client]: the loop, then [connection.close()] in [finally]. *)
Definition handle_client (conn : connection) (w : world)
  : option (list event * world) :=
  match serve (incoming conn) (sendall_error conn) 0 EmptyString w with
  | Some (evs, w') => Some (evs ++ [Close], w')
  | None => None
  end.

End Session.

(** ** Vocabulary of the specification *)

Module Props.
Import PyStr Py Os Json FileProtocol Session.

(** *** Texts *)

Fixpoint all_chars (P : ascii -> bool) (s : string) : bool :=
  match s with
  | EmptyString => true
  | String a s' => P a && all_chars P s'
  end.

Definition no_whitespace (s : string) : bool :=
  all_chars (fun c => negb (is_space c)) s.

Definition whitespace_only (s : string) : bool := all_chars is_space s.

(** No code point of the text is white space. *)
Definition no_space_points (t : wide) : bool :=
  forallb (fun n => negb ((n <? 256)%N && is_space (ascii_of_N n))) t.

(** [sub] occurs in [s]. *)
Definition occurs (sub s : string) : Prop := exists a b, s = a +:+ sub +:+ b.

(** The filenames the specification lists as rejected. *)
Definition denied (filename : string) : Prop :=
  str_in ".." filename = true \/ str_in "/" filename = true
  \/ str_in (String "092" "") filename = true
  \/ 255 < String.length filename.

(** Decoding as the specification words it: the frame itself is cut at
    its first two spaces. *)
Definition split_first_two_spaces (frame : string) : list string :=
  split " " 2 frame.

(** The parts that follow the verb in a frame [verb ++ " " ++ text]. *)
Definition arguments (text : string) : list string :=
  tl (split " " 2 (rstrip (String " " text))).

(** *** Responses *)

(** The serialized record carries the given status. *)
Definition has_status (st : string) (response : string) : Prop :=
  exists fields, response = dumps (Obj (("status", Str st) :: fields)).

(** A response record: its status is OK or ERROR. *)
Definition is_response (response : string) : Prop :=
  has_status "OK" response \/ has_status "ERROR" response.

(** The computation returns a response record, whatever the world. *)
Definition responds (m : M world string) : Prop :=
  forall w, exists r w', m w = (Return r, w') /\ is_response r.

(** Whenever the computation returns, it returns a response record. *)
Definition responds_if_returns (m : M world string) : Prop :=
  forall w, match fst (m w) with Return r => is_response r | Raise _ => True end.

(** The records of the successful answers. *)
Definition upload_ok (filename : string) (size : nat) : string :=
  dumps (Obj [("status", Str "OK");
              ("data", Str ("File " +:+ filename +:+ " uploaded successfully"));
              ("file_size", Int size)]).

Definition get_ok (filename data_file : string) (size : nat) : string :=
  dumps (Obj [("status", Str "OK");
              ("data", Str ("File " +:+ filename +:+ " retrieved successfully"));
              ("data_file", Str data_file);
              ("file_size", Int size)]).

Definition delete_ok (filename : string) : string :=
  dumps (Obj [("status", Str "OK");
              ("data", Str ("File " +:+ filename +:+ " deleted successfully"))]).

(** The dispatch of [proses_string], once the parts of the frame are known. *)
Definition dispatch (p0 : string) (ps : list string) : M world string :=
  let command := upper p0 in
  if wide_eqb command "UPLOAD" then _handle_upload (p0 :: ps)
  else if wide_eqb command "GET" then _handle_get (p0 :: ps)
  else if wide_eqb command "LIST" then _handle_list
  else if wide_eqb command "DELETE" then _handle_delete (p0 :: ps)
  else ret (unknown_command command).

(** *** Worlds *)

(** An empty storage directory on a platform that refuses nothing. *)
Definition empty_world : world := World "files" ∅ (fun _ _ => None) [].

(** A storage directory that holds the one-byte file [a]. *)
Definition one_file_world : world :=
  World "files" {[ "a" := RegFile [x41] ]} (fun _ _ => None) [].

(** The world after one more call has been recorded. *)
Definition logged (w : world) (c : oscall) (p : string) : world :=
  World (storage_path w) (entries w) (os_error w) (calls w ++ [(c, p)]).

(** A name a directory can hold. *)
Definition legal_entry (n : string) : bool :=
  negb (String.eqb n "") && negb (String.eqb n ".") && negb (String.eqb n "..")
  && negb (str_in "/" n).

(** Every entry of the storage directory has a name a directory can hold. *)
Definition wf (w : world) : Prop :=
  map_Forall (fun n (_ : node) => legal_entry n = true) (entries w).

(** The computation leaves the entries of the storage directory as they are. *)
Definition keeps_entries {A} (m : M world A) : Prop :=
  forall w, entries (snd (m w)) = entries w.

(** *** Confinement *)

(** [p] is the storage directory itself, or the directory joined with a
    single component that is not the parent link. *)
Definition within_root (root p : string) : bool :=
  String.eqb p root ||
  match strip_prefix (path_join root "") p with
  | Some n => negb (str_in "/" n) && negb (String.eqb n "..")
  | None => false
  end.

(** The calls that name one stored file: everything but the enumeration
    of the directory and the inspection of its entries by LIST. *)
Definition names_a_file (c : oscall) : bool :=
  match c with
  | Listdir | IsFile | GetSize => false
  | _ => true
  end.

(** A recorded call stays in the storage directory, and when it names a
    file, its path is the directory joined with a validated filename. *)
Definition confined (root : string) (call : oscall * string) : Prop :=
  within_root root (snd call) = true
  /\ (names_a_file (fst call) = true ->
      exists filename,
        _is_valid_filename filename = true
        /\ snd call = path_join root filename).

(** [traced root m Q]: run in a well-formed world whose storage directory
    is [root], [m] keeps both, records only confined calls, and returns
    only values that satisfy [Q]. *)
Definition traced {A} (root : string) (m : M world A) (Q : A -> Prop) : Prop :=
  forall w, storage_path w = root -> wf w ->
    match m w with
    | (r, w') =>
        match r with Return a => Q a | Raise _ => True end
        /\ storage_path w' = root /\ wf w'
        /\ exists new, calls w' = calls w ++ new /\ Forall (confined root) new
    end.

(** *** Sessions *)

(** [replies w cs sent w']: answering the commands [cs] one after the
    other from world [w] yields the response frames [sent] and world [w']. *)
Inductive replies : world -> list string -> list string -> world -> Prop :=
| replies_nil w : replies w [] [] w
| replies_cons w c hasil w1 cs sent w2 :
    proses_string c w = (Return hasil, w1) ->
    replies w1 cs sent w2 ->
    replies w (c :: cs) ((hasil +:+ DELIMITER) :: sent) w2.

(** The buffer made of the given command frames and an unfinished rest. *)
Fixpoint framed (cs : list string) (rest : string) : string :=
  match cs with
  | [] => rest
  | c :: cs' => c +:+ DELIMITER +:+ framed cs' rest
  end.

(** No delimiter starts inside the body [c] of a frame, not even one that
    runs into the delimiter behind it. *)
Definition frame_body (c : string) : bool :=
  negb (str_in DELIMITER (c +:+ String "013" (String "010" (String "013" "")))).

(** *** Bytes and base64 digits *)

(** All the bytes, in order. *)
Definition all_bytes : list byte :=
  Eval vm_compute in List.map (fun k => Base64.to_byte (N.of_nat k)) (seq 0 256).

(** What the decoder needs to know of a digit. *)
Definition digit_ok (n : N) : bool :=
  match Base64.a2b (Base64.b2a n) with Some m => N.eqb m n | None => false end
  && negb (Ascii.eqb (Base64.b2a n) Base64.BASE64_PAD)
  && (N_of_ascii (Base64.b2a n) <? 128)%N
  && negb (is_space (Base64.b2a n)).

(** The four digits of a group of three bytes. *)
Definition digit1 (b1 : byte) : N := N.shiftr (Base64.byte_val b1) 2.

Definition digit2 (b1 b2 : byte) : N :=
  N.lor (N.shiftl (N.land (Base64.byte_val b1) 3) 4) (N.shiftr (Base64.byte_val b2) 4).

Definition digit3 (b2 b3 : byte) : N :=
  N.lor (N.shiftl (N.land (Base64.byte_val b2) 15) 2) (N.shiftr (Base64.byte_val b3) 6).

Definition digit4 (b3 : byte) : N := N.land (Base64.byte_val b3) 63.

(** The bit identities behind the round trip, for a pair of bytes. *)
Definition group_check (b1 b2 : byte) : bool :=
  (digit1 b1 <? 64)%N && (digit2 b1 b2 <? 64)%N && (digit4 b1 <? 64)%N
  && (N.shiftl (N.land (Base64.byte_val b1) 3) 4 <? 64)%N
  && (N.shiftl (N.land (Base64.byte_val b1) 15) 2 <? 64)%N
  && (digit3 b1 b2 <? 64)%N
  (* first byte, from digits one and two *)
  && Byte.eqb (Base64.to_byte (N.lor (N.shiftl (digit1 b1) 2) (N.shiftr (digit2 b1 b2) 4))) b1
  && Byte.eqb
       (Base64.to_byte (N.lor (N.shiftl (digit1 b1) 2)
                       (N.shiftr (N.shiftl (N.land (Base64.byte_val b1) 3) 4) 4))) b1
  (* second byte, from digits two and three *)
  && Byte.eqb
       (Base64.to_byte (N.lor (N.shiftl (N.land (digit2 b1 b2) 15) 4)
                       (N.shiftr (N.shiftl (N.land (Base64.byte_val b2) 15) 2) 2))) b2
  && N.eqb (N.land (digit2 b1 b2) 15) (N.shiftr (Base64.byte_val b2) 4)
  && Byte.eqb
       (Base64.to_byte (N.lor (N.shiftl (N.shiftr (Base64.byte_val b1) 4) 4)
                       (N.shiftr (digit3 b1 b2) 2))) b1
  (* third byte, from digits three and four *)
  && N.eqb (N.land (digit3 b1 b2) 3) (N.shiftr (Base64.byte_val b2) 6)
  && Byte.eqb
       (Base64.to_byte (N.lor (N.shiftl (N.shiftr (Base64.byte_val b1) 6) 6) (digit4 b1))) b1.

End Props.

(** ** Vocabulary of the further properties *)

Module More.
Import PyStr Py Os Json FileProtocol Session Props.

(** A printing ASCII character: space to tilde. *)
Definition printable (c : ascii) : bool :=
  ((32 <=? N_of_ascii c) && (N_of_ascii c <=? 126))%N.

Definition printable_text (s : string) : bool := all_chars printable s.

Definition no_space (s : string) : Prop := str_in " " s = false.

(** The event hands a response frame to [sendall]. *)
Definition response_frame (e : event) : Prop :=
  match e with
  | Send frame | SendFails frame =>
      exists response, frame = response +:+ DELIMITER /\ is_response response
  | Recv | Close => False
  end.

(** The events of a session other than its reads. *)
Definition writes (evs : list event) : list event :=
  List.filter (fun e => match e with Recv => false | _ => true end) evs.

(** The platform refuses no call. *)
Definition quiet (w : world) : Prop := forall c path, os_error w c path = None.

(** The record LIST builds for one regular file. *)
Definition file_info (filename : string) (size : nat) : value :=
  Obj [("filename", Str filename); ("size", Int size)].

(** What LIST reports for the entries of a directory: the regular files,
    in the order of the enumeration. *)
Definition listing (l : list (string * node)) : list value :=
  omap (fun kv => match snd kv with
                  | RegFile c => Some (file_info (fst kv) (length c))
                  | SubDir => None
                  end) l.

Definition list_ok (files : list value) : string :=
  dumps (Obj [("status", Str "OK");
              ("data", Str "File list retrieved successfully");
              ("files", Arr files);
              ("count", Int (length files))]).

(** A filename that a frame carries unchanged and that names an entry of
    the storage directory: valid, one token, not the directory itself,
    and free of NUL once joined. *)
Definition plain_name (w : world) (f : string) : Prop :=
  _is_valid_filename f = true
  /\ str_in " " f = false /\ rstrip f = f /\ f <> "."
  /\ str_in NUL (path_join (storage_path w) f) = false.

(** [w'] differs from [w] at most in the entry [f]. *)
Definition only_touches (f : string) (w w' : world) : Prop :=
  storage_path w' = storage_path w
  /\ forall g, g <> f -> entries w' !! g = entries w !! g.

(** [local root f m Q]: run in a world whose storage directory is [root],
    [m] changes at most the entry [f] and returns only values in [Q]. *)
Definition local {A} (root f : string) (m : M world A) (Q : A -> Prop) : Prop :=
  forall w, storage_path w = root ->
    match m w with
    | (r, w') =>
        match r with Return a => Q a | Raise _ => True end
        /\ only_touches f w w'
    end.

(** The frame that stores [data] under [name]. *)
Definition upload_frame (name : string) (data : list byte) : string :=
  "UPLOAD " +:+ name +:+ " " +:+ Base64.b64encode data.

(** The entries after the given files have been stored, one after the other. *)
Definition store_all (E : gmap string node) (ups : list (string * list byte))
  : gmap string node :=
  foldl (fun E kv => <[fst kv := RegFile (snd kv)]> E) E ups.

(** The two worlds have the same subdirectories in the storage
    directory, and the same storage directory. *)
Definition same_dirs (w w' : world) : Prop :=
  storage_path w' = storage_path w
  /\ forall g, entries w' !! g = Some SubDir <-> entries w !! g = Some SubDir.

(** Every run of the computation relates the world before to the world
    after. *)
Definition preserves {A} (R : world -> world -> Prop) (m : M world A) : Prop :=
  forall w, R w (snd (m w)).

(** A storage directory whose one entry is the subdirectory [sub]. *)
Definition sub_dir_world : world :=
  World "files" {[ "sub" := SubDir ]} (fun _ _ => None) [].

(** A storage directory with the regular file [a] and the subdirectory
    [sub]. *)
Definition mixed_world : world :=
  World "files" (<[ "a" := RegFile [x41] ]> {[ "sub" := SubDir ]}) (fun _ _ => None) [].

(** The one-file directory on a disk that accepts no write. *)
Definition full_disk_world : world :=
  World "files" {[ "a" := RegFile [x41] ]}
    (fun c _ => match c with
                | FWrite => Some "[Errno 28] No space left on device"
                | _ => None
                end) [].

End More.

(** * Verification *)

(** ** Facts about the string primitives *)

Section StringFacts.
Import PyStr.

Lemma app_cons a s t : String a s +:+ t = String a (s +:+ t).
Proof. reflexivity. Qed.

Lemma app_empty_l s : "" +:+ s = s.
Proof. reflexivity. Qed.

Lemma app_empty_r s : s +:+ "" = s.
Proof. induction s as [|a s IH]; [reflexivity|]. now rewrite app_cons, IH. Qed.

Lemma app_assoc' s t u : (s +:+ t) +:+ u = s +:+ t +:+ u.
Proof. induction s as [|a s IH]; [reflexivity|]. now rewrite !app_cons, IH. Qed.

Lemma app_length' s t : String.length (s +:+ t) = String.length s + String.length t.
Proof. induction s as [|a s IH]; [reflexivity|]. rewrite app_cons. simpl. now rewrite IH. Qed.

Lemma app_eq_empty s t : s +:+ t = "" -> s = "" /\ t = "".
Proof. destruct s; [auto|]. rewrite app_cons. discriminate. Qed.

Lemma startswith_refl_app p s : startswith p (p +:+ s) = true.
Proof.
  induction p as [|a p IH]; [reflexivity|].
  rewrite app_cons. simpl. now rewrite Ascii.eqb_refl, IH.
Qed.

Lemma startswith_spec p s : startswith p s = true <-> exists t, s = p +:+ t.
Proof.
  split.
  - revert s. induction p as [|a p IH]; intros s H.
    + now exists s.
    + destruct s as [|b s]; [discriminate|]. simpl in H.
      apply andb_true_iff in H as [Hab Hp].
      apply Ascii.eqb_eq in Hab as ->.
      destruct (IH _ Hp) as [t ->]. now exists t.
  - intros [t ->]. apply startswith_refl_app.
Qed.

(** Whether [p] starts a text is settled by the first [length p] characters. *)
Lemma startswith_app_long p x y :
  String.length p <= String.length x -> startswith p (x +:+ y) = startswith p x.
Proof.
  revert x. induction p as [|a p IH]; intros x Hlen; [reflexivity|].
  destruct x as [|b x]; [simpl in Hlen; lia|].
  rewrite app_cons. simpl. rewrite IH; [reflexivity|]. simpl in Hlen. lia.
Qed.

Lemma drop_app p s : drop (String.length p) (p +:+ s) = s.
Proof. induction p as [|a p IH]; [now destruct s|]. now rewrite app_cons. Qed.

Lemma str_in_cons sub a s :
  str_in sub (String a s) = startswith sub (String a s) || str_in sub s.
Proof. reflexivity. Qed.

(** [sub in s] holds exactly when [s] splits around an occurrence of [sub]. *)
Lemma str_in_spec sub s :
  str_in sub s = true <-> exists a b, s = a +:+ sub +:+ b.
Proof.
  split.
  - induction s as [|c s IH]; intros H.
    + simpl in H. rewrite orb_false_r in H.
      apply startswith_spec in H as [t Ht]. now exists "", t.
    + rewrite str_in_cons in H. apply orb_true_iff in H as [H|H].
      * apply startswith_spec in H as [t Ht]. now exists "", t.
      * destruct (IH H) as (a & b & ->). now exists (String c a), b.
  - intros (a & b & ->). induction a as [|c a IH].
    + rewrite app_empty_l. destruct sub as [|d sub]; [now destruct b|].
      rewrite app_cons, str_in_cons, <- app_cons, startswith_refl_app. reflexivity.
    + rewrite app_cons, str_in_cons, IH. apply orb_true_r.
Qed.

Lemma str_in_app_r sub a b : str_in sub b = true -> str_in sub (a +:+ b) = true.
Proof.
  intros H. apply str_in_spec in H as (x & y & ->).
  apply str_in_spec. exists (a +:+ x), y. now rewrite app_assoc'.
Qed.

Lemma str_in_app_l sub a b : str_in sub a = true -> str_in sub (a +:+ b) = true.
Proof.
  intros H. apply str_in_spec in H as (x & y & ->).
  apply str_in_spec. exists x, (y +:+ b). now rewrite !app_assoc'.
Qed.

Lemma str_in_self_suffix p v : str_in v (p +:+ v) = true.
Proof. apply str_in_spec. exists p, "". now rewrite app_empty_r. Qed.

Lemma not_in_app_l sub a b : str_in sub (a +:+ b) = false -> str_in sub a = false.
Proof.
  intros H. destruct (str_in sub a) eqn:E; [|reflexivity].
  now rewrite (str_in_app_l _ _ b E) in H.
Qed.

Lemma not_in_app_r sub a b : str_in sub (a +:+ b) = false -> str_in sub b = false.
Proof.
  intros H. destruct (str_in sub b) eqn:E; [|reflexivity].
  now rewrite (str_in_app_r _ a _ E) in H.
Qed.

(** *** [partition] and [split] *)

(** The first occurrence of a separator [p ++ [c]] is where the text was
    joined, when no occurrence starts before that point. *)
Lemma partition_joined p c v rest :
  let sep := p +:+ String c "" in
  str_in sep (v +:+ p) = false ->
  partition sep (v +:+ sep +:+ rest) = Some (v, rest).
Proof.
  intros sep. induction v as [|a v IH]; intros H.
  - rewrite app_empty_l.
    assert (Hs : startswith sep (sep +:+ rest) = true) by apply startswith_refl_app.
    destruct (sep +:+ rest) as [|x y] eqn:E.
    + apply app_eq_empty in E as [E _]. subst sep.
      apply app_eq_empty in E as [_ E]. discriminate.
    + unfold partition; fold partition. rewrite Hs, <- E, drop_app. reflexivity.
  - rewrite !app_cons in *. rewrite str_in_cons in H.
    apply orb_false_iff in H as [H1 H2].
    unfold partition; fold partition.
    assert (Hs : startswith sep (String a (v +:+ sep +:+ rest)) = false).
    { rewrite <- H1. subst sep.
      rewrite <- (app_cons a v), (app_assoc' p), <- (app_assoc' (String a v) p).
      apply startswith_app_long. simpl. rewrite !app_length'. simpl. lia. }
    rewrite Hs, (IH H2). reflexivity.
Qed.

Lemma partition_none sep s : str_in sep s = false -> partition sep s = None.
Proof.
  induction s as [|a s IH]; intros H.
  - simpl in *. rewrite orb_false_r in H. now rewrite H.
  - rewrite str_in_cons in H. apply orb_false_iff in H as [H1 H2].
    unfold partition; fold partition. now rewrite H1, (IH H2).
Qed.

Lemma partition_some sep s :
  str_in sep s = true ->
  exists h t, partition sep s = Some (h, t) /\ s = h +:+ sep +:+ t.
Proof.
  induction s as [|a s IH]; intros H.
  - simpl in H. rewrite orb_false_r in H. simpl. rewrite H.
    apply startswith_spec in H as [t Ht].
    exists "", (drop (String.length sep) ""). split; [reflexivity|].
    symmetry in Ht. apply app_eq_empty in Ht as [-> ->]. reflexivity.
  - unfold partition; fold partition.
    destruct (startswith sep (String a s)) eqn:E.
    + apply startswith_spec in E as [t Ht]. exists "", t.
      rewrite Ht, drop_app. now split.
    + rewrite str_in_cons, E in H. simpl in H.
      destruct (IH H) as (h & t & -> & Hs). exists (String a h), t.
      split; [reflexivity|]. now rewrite app_cons, <- Hs.
Qed.

(** A text without the separator in front moves into the first part. *)
Lemma partition_char_skip c v r :
  str_in (String c "") v = false ->
  partition (String c "") (v +:+ r) =
    match partition (String c "") r with
    | Some (h, t) => Some (v +:+ h, t)
    | None => None
    end.
Proof.
  induction v as [|a v IH]; intros H.
  - rewrite app_empty_l. destruct (partition _ r) as [[h t]|]; reflexivity.
  - rewrite str_in_cons in H. apply orb_false_iff in H as [H1 H2].
    rewrite app_cons. unfold partition at 1; fold partition.
    assert (Hs : startswith (String c "") (String a (v +:+ r)) = false).
    { simpl in *. now destruct (Ascii.eqb c a). }
    rewrite Hs, (IH H2). destruct (partition _ r) as [[h t]|]; reflexivity.
Qed.

Lemma split_nonempty sep n s : split sep n s <> [].
Proof. destruct n; simpl; [discriminate|]. now destruct (partition sep s) as [[h t]|]. Qed.

End StringFacts.

Section StripFacts.
Import PyStr Props.

Lemma rstrip_cons a s :
  rstrip (String a s) =
    match rstrip s with
    | "" => if is_space a then "" else String a ""
    | r => String a r
    end.
Proof. reflexivity. Qed.

Lemma rstrip_app_nonempty s t : rstrip t <> "" -> rstrip (s +:+ t) = s +:+ rstrip t.
Proof.
  intros Ht. induction s as [|a s IH]; [reflexivity|].
  rewrite !app_cons, rstrip_cons, IH.
  destruct (s +:+ rstrip t) eqn:E; [|reflexivity].
  apply app_eq_empty in E as [_ E]. contradiction.
Qed.

Lemma rstrip_app_empty s t : rstrip t = "" -> rstrip (s +:+ t) = rstrip s.
Proof.
  intros Ht. induction s as [|a s IH]; [exact Ht|].
  now rewrite app_cons, !rstrip_cons, IH.
Qed.

Lemma rstrip_no_whitespace s : no_whitespace s = true -> rstrip s = s.
Proof.
  induction s as [|a s IH]; intros H; [reflexivity|].
  unfold no_whitespace in *. simpl in H. apply andb_true_iff in H as [Ha Hs].
  rewrite rstrip_cons, (IH Hs). apply negb_true_iff in Ha. rewrite Ha.
  now destruct s.
Qed.

(** Trailing white space is removed behind a token, never from it. *)
Lemma rstrip_token v t : no_whitespace v = true -> rstrip (v +:+ t) = v +:+ rstrip t.
Proof.
  intros Hv. destruct (rstrip t) eqn:E.
  - rewrite (rstrip_app_empty _ _ E), app_empty_r. now apply rstrip_no_whitespace.
  - rewrite <- E. apply rstrip_app_nonempty. now rewrite E.
Qed.

Lemma lstrip_token v t :
  no_whitespace v = true -> v <> "" -> lstrip (v +:+ t) = v +:+ t.
Proof.
  destruct v as [|a v]; [contradiction|]. intros H _.
  unfold no_whitespace in H. simpl in H. apply andb_true_iff in H as [Ha _].
  apply negb_true_iff in Ha. rewrite app_cons. simpl. now rewrite Ha.
Qed.

Lemma lstrip_whitespace s : whitespace_only s = true -> lstrip s = "".
Proof.
  induction s as [|a s IH]; intros H; [reflexivity|].
  unfold whitespace_only in *. simpl in H. apply andb_true_iff in H as [Ha Hs].
  simpl. rewrite Ha. auto.
Qed.

Lemma strip_whitespace s : whitespace_only s = true -> strip s = "".
Proof. intros H. unfold strip. now rewrite lstrip_whitespace. Qed.

Lemma strip_token v t :
  no_whitespace v = true -> v <> "" -> strip (v +:+ t) = v +:+ rstrip t.
Proof. intros Hv Hne. unfold strip. rewrite lstrip_token by assumption. now apply rstrip_token. Qed.

Lemma no_whitespace_no_space v : no_whitespace v = true -> str_in " " v = false.
Proof.
  induction v as [|a v IH]; intros H; [reflexivity|].
  unfold no_whitespace in *. simpl in H. apply andb_true_iff in H as [Ha Hv].
  rewrite str_in_cons, (IH Hv), orb_false_r.
  change (startswith " " (String a v)) with (Ascii.eqb " " a && true).
  rewrite andb_true_r.
  destruct (Ascii.eqb_spec " " a) as [<-|]; [discriminate|reflexivity].
Qed.

Lemma no_whitespace_app a b :
  no_whitespace (a +:+ b) = no_whitespace a && no_whitespace b.
Proof.
  unfold no_whitespace. induction a as [|c a IH]; [reflexivity|].
  rewrite app_cons. simpl. now rewrite IH, andb_assoc.
Qed.

Lemma upper_app a b : upper (a +:+ b) = upper a ++ upper b.
Proof.
  induction a as [|c a IH]; [reflexivity|].
  rewrite app_cons. simpl. now rewrite IH, (assoc_L (++)).
Qed.

Lemma no_space_points_app a b :
  no_space_points (a ++ b) = no_space_points a && no_space_points b.
Proof. apply forallb_app. Qed.

Lemma no_space_points_upper_char c :
  no_space_points (upper_char c) = negb (is_space c).
Proof. destruct c as [[] [] [] [] [] [] [] []]; reflexivity. Qed.

Lemma no_whitespace_upper v : no_space_points (upper v) = no_whitespace v.
Proof.
  unfold no_whitespace. induction v as [|a v IH]; [reflexivity|].
  simpl. now rewrite no_space_points_app, no_space_points_upper_char, IH.
Qed.

Lemma upper_char_nonempty c : upper_char c <> [].
Proof. destruct c as [[] [] [] [] [] [] [] []]; discriminate. Qed.

Lemma upper_eq_empty v : upper v = "" -> v = "".
Proof.
  destruct v as [|a v]; [reflexivity|]. simpl. intros H.
  apply app_eq_nil in H as [H _]. now apply upper_char_nonempty in H.
Qed.

Lemma wide_eqb_spec a : forall b, reflect (a = b) (wide_eqb a b).
Proof.
  induction a as [|x a IH]; intros [|y b]; simpl;
    try (constructor; congruence).
  destruct (N.eqb_spec x y) as [->|Hne]; simpl; [|constructor; congruence].
  destruct (IH b) as [->|Hne]; constructor; congruence.
Qed.

Lemma wide_eqb_refl a : wide_eqb a a = true.
Proof. now destruct (wide_eqb_spec a a). Qed.

(** The parts of a frame that begins with a token: the token joins the
    first part of what follows it. *)
Lemma split_skip n v r :
  str_in " " v = false ->
  split " " (S n) (v +:+ r) =
    (v +:+ hd "" (split " " (S n) r)) :: tl (split " " (S n) r).
Proof.
  intros Hv. simpl. rewrite (partition_char_skip _ _ r Hv).
  destruct (partition " " r) as [[h t]|]; reflexivity.
Qed.

End StripFacts.

(** ** Facts about base64 *)

Section Base64Facts.
Import PyStr Base64 Props.

Lemma all_bytes_nth b : nth_error all_bytes (Byte.to_nat b) = Some b.
Proof. destruct b; reflexivity. Qed.

Lemma all_bytes_complete b : In b all_bytes.
Proof. eapply nth_error_In, all_bytes_nth. Qed.

(** A property checked on every byte holds of every byte. *)
Lemma forall_bytes (P : byte -> bool) :
  forallb P all_bytes = true -> forall b, P b = true.
Proof. intros H b. exact (proj1 (forallb_forall P all_bytes) H b (all_bytes_complete b)). Qed.

Lemma forall_bytes2 (P : byte -> byte -> bool) :
  forallb (fun a => forallb (P a) all_bytes) all_bytes = true ->
  forall a b, P a b = true.
Proof. intros H a b. apply forall_bytes. exact (forall_bytes _ H a). Qed.

Lemma digits_ok n : (n < 64)%N -> digit_ok n = true.
Proof.
  intros H.
  assert (Hall : forallb (fun k => digit_ok (N.of_nat k)) (seq 0 64) = true)
    by (vm_compute; reflexivity).
  rewrite <- (N2Nat.id n).
  apply (proj1 (forallb_forall _ _) Hall). apply in_seq. lia.
Qed.

Lemma digit_facts n :
  (n < 64)%N ->
  a2b (b2a n) = Some n /\ Ascii.eqb (b2a n) BASE64_PAD = false
  /\ (N_of_ascii (b2a n) <? 128)%N = true /\ is_space (b2a n) = false.
Proof.
  intros H. pose proof (digits_ok n H) as Hd. unfold digit_ok in Hd.
  repeat (apply andb_true_iff in Hd as [Hd ?]).
  destruct (a2b (b2a n)) as [m|]; [|discriminate].
  apply N.eqb_eq in Hd as ->.
  repeat split; auto; now apply negb_true_iff.
Qed.

Lemma group_checked b1 b2 : group_check b1 b2 = true.
Proof. revert b1 b2. apply forall_bytes2. vm_compute. reflexivity. Qed.

End Base64Facts.

Section Base64RoundTrip.
Import PyStr Base64 Props.

Lemma list_ind3 {A} (P : list A -> Prop) :
  P [] -> (forall a, P [a]) -> (forall a b, P [a; b]) ->
  (forall a b c l, P l -> P (a :: b :: c :: l)) ->
  forall l, P l.
Proof.
  intros H0 H1 H2 H3. fix IH 1.
  intros [|a [|b [|c l]]]; [exact H0|apply H1|apply H2|apply H3, IH].
Qed.

Lemma group_facts b1 b2 :
  ((digit1 b1 < 64)%N /\ (digit2 b1 b2 < 64)%N /\ (digit4 b1 < 64)%N
   /\ (N.shiftl (N.land (byte_val b1) 3) 4 < 64)%N
   /\ (N.shiftl (N.land (byte_val b1) 15) 2 < 64)%N
   /\ (digit3 b1 b2 < 64)%N)
  /\ to_byte (N.lor (N.shiftl (digit1 b1) 2) (N.shiftr (digit2 b1 b2) 4)) = b1
  /\ to_byte (N.lor (N.shiftl (digit1 b1) 2)
                    (N.shiftr (N.shiftl (N.land (byte_val b1) 3) 4) 4)) = b1
  /\ to_byte (N.lor (N.shiftl (N.land (digit2 b1 b2) 15) 4)
                    (N.shiftr (N.shiftl (N.land (byte_val b2) 15) 2) 2)) = b2
  /\ N.land (digit2 b1 b2) 15 = N.shiftr (byte_val b2) 4
  /\ to_byte (N.lor (N.shiftl (N.shiftr (byte_val b1) 4) 4)
                    (N.shiftr (digit3 b1 b2) 2)) = b1
  /\ N.land (digit3 b1 b2) 3 = N.shiftr (byte_val b2) 6
  /\ to_byte (N.lor (N.shiftl (N.shiftr (byte_val b1) 6) 6) (digit4 b1)) = b1.
Proof.
  pose proof (group_checked b1 b2) as H. unfold group_check in H.
  repeat (apply andb_true_iff in H as [H ?]).
  repeat match goal with
         | X : (_ <? _)%N = true |- _ => apply N.ltb_lt in X
         | X : N.eqb _ _ = true |- _ => apply N.eqb_eq in X
         | X : Byte.eqb _ _ = true |- _ => apply byte_dec_bl in X
         end.
  repeat split; assumption.
Qed.

Lemma a2b_base64_digit n s q lc pads :
  (n < 64)%N ->
  a2b_base64 (String (b2a n) s) q lc pads =
    match q with
    | 0%nat => a2b_base64 s 1%nat n 0%nat
    | 1%nat =>
        emit (to_byte (N.lor (N.shiftl lc 2) (N.shiftr n 4)))
          (a2b_base64 s 2%nat (N.land n 15) 0%nat)
    | 2%nat =>
        emit (to_byte (N.lor (N.shiftl lc 4) (N.shiftr n 2)))
          (a2b_base64 s 3%nat (N.land n 3) 0%nat)
    | _ =>
        emit (to_byte (N.lor (N.shiftl lc 6) n)) (a2b_base64 s 0%nat 0%N 0%nat)
    end.
Proof.
  intros H. destruct (digit_facts n H) as (Ha & Hp & _ & _).
  unfold a2b_base64; fold a2b_base64. now rewrite Hp, Ha.
Qed.

Lemma b64encode_group b1 b2 b3 rest :
  b64encode (b1 :: b2 :: b3 :: rest) =
    String (b2a (digit1 b1)) (String (b2a (digit2 b1 b2))
      (String (b2a (digit3 b2 b3)) (String (b2a (digit4 b3)) (b64encode rest)))).
Proof. reflexivity. Qed.

(** Decoding undoes encoding. *)
Lemma a2b_base64_b64encode data :
  a2b_base64 (b64encode data) 0%nat 0%N 0%nat = Some data.
Proof.
  induction data as [|b1|b1 b2|b1 b2 b3 rest IH] using list_ind3.
  - reflexivity.
  - destruct (group_facts b1 b1) as ((H1 & _ & _ & H2 & _) & _ & Hb & _).
    unfold b64encode. fold (digit1 b1).
    rewrite (a2b_base64_digit _ _ _ _ _ H1), (a2b_base64_digit _ _ _ _ _ H2).
    rewrite Hb. reflexivity.
  - destruct (group_facts b1 b2) as ((H1 & H2 & _) & Hb1 & _ & Hb2 & _).
    destruct (group_facts b2 b2) as ((_ & _ & _ & _ & H3 & _) & _).
    unfold b64encode. fold (digit1 b1) (digit2 b1 b2).
    rewrite (a2b_base64_digit _ _ _ _ _ H1), (a2b_base64_digit _ _ _ _ _ H2),
      (a2b_base64_digit _ _ _ _ _ H3).
    rewrite Hb1, Hb2. reflexivity.
  - destruct (group_facts b1 b2) as ((H1 & H2 & _) & Hb1 & _ & _ & Hl2 & _).
    destruct (group_facts b2 b3) as ((_ & _ & _ & _ & _ & H3) & _ & _ & _ & _ & Hb2 & Hl3 & _).
    destruct (group_facts b3 b3) as ((_ & _ & H4 & _) & _ & _ & _ & _ & _ & _ & Hb3).
    rewrite b64encode_group.
    rewrite (a2b_base64_digit _ _ _ _ _ H1), (a2b_base64_digit _ _ _ _ _ H2),
      (a2b_base64_digit _ _ _ _ _ H3), (a2b_base64_digit _ _ _ _ _ H4).
    rewrite Hb1, Hl2, Hb2, Hl3, Hb3, IH. reflexivity.
Qed.

(** The encoding is ASCII text without white space. *)
Lemma b64encode_text data :
  is_ascii (b64encode data) = true /\ no_whitespace (b64encode data) = true.
Proof.
  assert (Hd : forall n s, (n < 64)%N ->
            is_ascii s = true /\ no_whitespace s = true ->
            is_ascii (String (b2a n) s) = true
            /\ no_whitespace (String (b2a n) s) = true).
  { intros n s Hn [Ha Hw]. destruct (digit_facts n Hn) as (_ & _ & H1 & H2).
    unfold no_whitespace in *. simpl. now rewrite H1, H2, Ha, Hw. }
  induction data as [|b1|b1 b2|b1 b2 b3 rest IH] using list_ind3.
  - now split.
  - destruct (group_facts b1 b1) as ((H1 & _ & _ & H2 & _) & _).
    unfold b64encode. apply Hd; [exact H1|]. apply Hd; [exact H2|]. now split.
  - destruct (group_facts b1 b2) as ((H1 & H2 & _) & _).
    destruct (group_facts b2 b2) as ((_ & _ & _ & _ & H3 & _) & _).
    unfold b64encode. apply Hd; [exact H1|]. apply Hd; [exact H2|].
    apply Hd; [exact H3|]. now split.
  - destruct (group_facts b1 b2) as ((H1 & H2 & _) & _).
    destruct (group_facts b2 b3) as ((_ & _ & _ & _ & _ & H3) & _).
    destruct (group_facts b3 b3) as ((_ & _ & H4 & _) & _).
    rewrite b64encode_group. repeat (apply Hd; [assumption|]). exact IH.
Qed.

Lemma b64decode_b64encode data : b64decode (b64encode data) = Some data.
Proof.
  unfold b64decode. destruct (b64encode_text data) as [-> _].
  apply a2b_base64_b64encode.
Qed.

Lemma b64encode_nonempty data : data <> [] -> b64encode data <> "".
Proof. destruct data as [|b1 [|b2 [|b3 rest]]]; [contradiction|discriminate..]. Qed.

End Base64RoundTrip.

(** ** The filename validator *)

Section Validator.
Import PyStr Json FileProtocol Props.

Lemma occurs_str_in sub s : str_in sub s = true <-> occurs sub s.
Proof. apply str_in_spec. Qed.

Lemma is_valid_filename_spec (filename : string) :
  _is_valid_filename filename = false <->
  (filename = ""
   \/ 255 < String.length filename
   \/ exists d,
        In d [".."; "/"; String "092" ""; ":"; "*"; "?"; String "034" "";
              "<"; ">"; "|"]
        /\ occurs d filename).
Proof.
  unfold _is_valid_filename.
  change [".."; "/"; String "092" ""; ":"; "*"; "?"; String "034" ""; "<"; ">"; "|"]
    with dangerous_chars.
  destruct (String.eqb_spec filename "") as [->|Hne].
  { split; auto. }
  destruct (existsb (fun char => str_in char filename) dangerous_chars) eqn:Hex.
  { split; [intros _|reflexivity]. right; right.
    apply existsb_exists in Hex as (d & Hd & Hin).
    exists d. split; [exact Hd|]. now apply occurs_str_in. }
  destruct (Nat.ltb_spec 255 (String.length filename)) as [Hlen|Hlen].
  { split; auto. }
  split; [discriminate|].
  intros [H|[H|(d & Hd & Hocc)]]; [contradiction|lia|].
  assert (existsb (fun char => str_in char filename) dangerous_chars = true).
  { apply existsb_exists. exists d. split; [exact Hd|]. now apply occurs_str_in. }
  congruence.
Qed.

(** C9: the validator is a function of the name alone, and it answers
    false exactly for the empty name, a name of more than 255 characters,
    and a name in which one of [..], [/], [\], [:], [*], [?], the double
    quote, [<], [>], [|] occurs; it answers true for every other name.
    Being a function from names to booleans, it has no effect and no
    other way to fail. *)
Theorem C9_validator_denylist (filename : string) :
  _is_valid_filename filename = false <->
  (filename = ""
   \/ 255 < String.length filename
   \/ exists d,
        In d [".."; "/"; String "092" ""; ":"; "*"; "?"; String "034" "";
              "<"; ">"; "|"]
        /\ occurs d filename).
Proof. apply is_valid_filename_spec. Qed.

Lemma valid_not_empty f : _is_valid_filename f = true -> f <> "".
Proof. unfold _is_valid_filename. now destruct (String.eqb_spec f ""). Qed.

Lemma valid_no_dangerous f d :
  _is_valid_filename f = true -> In d dangerous_chars -> str_in d f = false.
Proof.
  unfold _is_valid_filename. intros H Hd.
  destruct (String.eqb f ""); [discriminate|].
  destruct (existsb _ dangerous_chars) eqn:Hex; [discriminate|].
  destruct (str_in d f) eqn:E; [|reflexivity].
  assert (existsb (fun char => str_in char f) dangerous_chars = true)
    by (apply existsb_exists; eauto).
  congruence.
Qed.

Lemma valid_no_slash f : _is_valid_filename f = true -> str_in "/" f = false.
Proof. intros H. apply (valid_no_dangerous f "/" H). simpl. auto. Qed.

Lemma valid_no_dotdot f : _is_valid_filename f = true -> str_in ".." f = false.
Proof. intros H. apply (valid_no_dangerous f ".." H). simpl. auto. Qed.

(** A name on the denylist of the specification is not valid. *)
Lemma denied_invalid f : denied f -> _is_valid_filename f = false.
Proof.
  intros H. apply is_valid_filename_spec. right.
  destruct H as [H|[H|[H|H]]]; [right|right|right|left; exact H].
  - exists "..". split; [simpl; auto|now apply occurs_str_in].
  - exists "/". split; [simpl; auto|now apply occurs_str_in].
  - exists (String "092" ""). split; [simpl; auto 10|now apply occurs_str_in].
Qed.

End Validator.

(** ** Responses: every handler returns a record *)

Section Responses.
Import PyStr Py Os Base64 Json FileProtocol Props.

Lemma error_is_response d : is_response (error_response d).
Proof. right. now exists [("data", Str d)]. Qed.

Lemma ok_is_response fields : is_response (dumps (Obj (("status", Str "OK") :: fields))).
Proof. left. now exists fields. Qed.

Lemma rir_ret r : is_response r -> responds_if_returns (ret r).
Proof. intros H w. exact H. Qed.

Lemma rir_bind {A} (m : M world A) k :
  (forall a, responds_if_returns (k a)) -> responds_if_returns (bind m k).
Proof.
  intros H w. unfold bind. destruct (m w) as [[a|e] w1]; [apply H|exact I].
Qed.

Lemma responds_ret r : is_response r -> responds (ret r).
Proof. intros H w. now exists r, w. Qed.

Lemma responds_try body handler :
  responds_if_returns body -> (forall e, responds (handler e)) ->
  responds (try_except body handler).
Proof.
  intros Hb Hh w. unfold try_except. specialize (Hb w).
  destruct (body w) as [[r|e] w1]; [now exists r, w1|apply Hh].
Qed.

Lemma responds_rir m : responds m -> responds_if_returns m.
Proof. intros H w. destruct (H w) as (r & w' & -> & Hr). exact Hr. Qed.

(** A handler that always returns is not affected by an enclosing [try]. *)
Lemma try_except_returns m handler w : responds m -> try_except m handler w = m w.
Proof. intros H. unfold try_except. now destruct (H w) as (r & w' & -> & _). Qed.

Lemma handle_upload_responds parts : responds (_handle_upload parts).
Proof.
  unfold _handle_upload. destruct (length parts <? 3)%nat.
  { apply responds_ret, error_is_response. }
  apply responds_try; [|intros e; apply responds_ret, error_is_response].
  apply rir_bind; intros filename. apply rir_bind; intros content.
  destruct (negb _); [apply rir_ret, error_is_response|].
  destruct (b64decode content); [|apply rir_ret, error_is_response].
  apply rir_bind; intros storage. apply rir_bind; intros f. apply rir_bind; intros _.
  apply rir_ret, ok_is_response.
Qed.

Lemma handle_get_responds parts : responds (_handle_get parts).
Proof.
  unfold _handle_get. destruct (length parts <? 2)%nat.
  { apply responds_ret, error_is_response. }
  apply responds_try; [|intros e; apply responds_ret, error_is_response].
  apply rir_bind; intros filename.
  destruct (negb _); [apply rir_ret, error_is_response|].
  apply rir_bind; intros storage. apply rir_bind; intros present.
  destruct (negb _); [apply rir_ret, error_is_response|].
  apply rir_bind; intros f. apply rir_bind; intros content.
  apply rir_ret, ok_is_response.
Qed.

Lemma handle_list_responds : responds _handle_list.
Proof.
  unfold _handle_list.
  apply responds_try; [|intros e; apply responds_ret, error_is_response].
  apply rir_bind; intros storage. apply rir_bind; intros names.
  apply rir_bind; intros files. apply rir_ret, ok_is_response.
Qed.

Lemma handle_delete_responds parts : responds (_handle_delete parts).
Proof.
  unfold _handle_delete. destruct (length parts <? 2)%nat.
  { apply responds_ret, error_is_response. }
  apply responds_try; [|intros e; apply responds_ret, error_is_response].
  apply rir_bind; intros filename.
  destruct (negb _); [apply rir_ret, error_is_response|].
  apply rir_bind; intros storage. apply rir_bind; intros present.
  destruct (negb _); [apply rir_ret, error_is_response|].
  apply rir_bind; intros _. apply rir_ret, ok_is_response.
Qed.

Lemma command_parts_nonempty s : command_parts s <> [].
Proof. apply split_nonempty. Qed.

Lemma dispatch_responds p0 ps : responds (dispatch p0 ps).
Proof.
  unfold dispatch.
  repeat match goal with |- context [wide_eqb ?a ?b] => destruct (wide_eqb a b) end.
  - apply handle_upload_responds.
  - apply handle_get_responds.
  - apply handle_list_responds.
  - apply handle_delete_responds.
  - apply responds_ret. right. now eexists [_].
Qed.

Lemma proses_string_dispatch s p0 ps w :
  command_parts s = p0 :: ps -> proses_string s w = dispatch p0 ps w.
Proof.
  intros H. rewrite <- (try_except_returns _
    (fun e => ret (error_response ("Server error: " +:+ e))) w (dispatch_responds p0 ps)).
  unfold proses_string. rewrite H. reflexivity.
Qed.

Lemma proses_string_responds s : responds (proses_string s).
Proof.
  intros w. destruct (command_parts s) as [|p0 ps] eqn:E.
  { now apply command_parts_nonempty in E. }
  rewrite (proses_string_dispatch _ _ _ _ E). apply dispatch_responds.
Qed.

(** C4: for every command string and every world, [proses_string] returns
    (it does not raise) the serialization of a record whose status is OK
    or ERROR.  The worlds cover absent files, entries that are
    directories, and any refusal by the platform; the command strings
    cover missing arguments and payloads that are not base64. *)
Theorem C4_proses_string_total (command_string : string) (w : world) :
  exists response w',
    proses_string command_string w = (Return response, w')
    /\ (has_status "OK" response \/ has_status "ERROR" response).
Proof. apply proses_string_responds. Qed.

End Responses.

(** ** Decoding and dispatch *)

Section Decoding.
Import PyStr Py Os Base64 Json FileProtocol Props.

Lemma partition_space v rest :
  str_in " " v = false -> partition " " (v +:+ " " +:+ rest) = Some (v, rest).
Proof.
  intros H. apply (partition_joined "" " " v rest). now rewrite app_empty_r.
Qed.

(** Three parts: the text up to the first space, up to the second, and
    everything behind it. *)
Lemma split_three v f p :
  str_in " " v = false -> str_in " " f = false ->
  split " " 2 (v +:+ " " +:+ f +:+ " " +:+ p) = [v; f; p].
Proof.
  intros Hv Hf. unfold split. now rewrite (partition_space v _ Hv), (partition_space f _ Hf).
Qed.

Lemma split_two v f :
  str_in " " v = false -> str_in " " f = false ->
  split " " 2 (v +:+ " " +:+ f) = [v; f].
Proof.
  intros Hv Hf. unfold split. now rewrite (partition_space v _ Hv), (partition_none _ _ Hf).
Qed.

Lemma dispatch_upload v ps w :
  upper v = "UPLOAD" -> dispatch v ps w = _handle_upload (v :: ps) w.
Proof. intros H. unfold dispatch. now rewrite H. Qed.

Lemma dispatch_get v ps w :
  upper v = "GET" -> dispatch v ps w = _handle_get (v :: ps) w.
Proof. intros H. unfold dispatch. now rewrite H. Qed.

Lemma dispatch_list v ps w :
  upper v = "LIST" -> dispatch v ps w = _handle_list w.
Proof. intros H. unfold dispatch. now rewrite H. Qed.

Lemma dispatch_delete v ps w :
  upper v = "DELETE" -> dispatch v ps w = _handle_delete (v :: ps) w.
Proof. intros H. unfold dispatch. now rewrite H. Qed.

Lemma dispatch_unknown v ps w :
  ~ In (upper v) ["UPLOAD" : wide; "GET" : wide; "LIST" : wide; "DELETE" : wide] ->
  dispatch v ps w = (Return (unknown_command (upper v)), w).
Proof.
  intros H. unfold dispatch.
  repeat match goal with
         | |- context [wide_eqb ?a ?b] =>
             destruct (wide_eqb_spec a b) as [E|_];
             [exfalso; apply H; rewrite E; simpl; auto 10|]
         end.
  reflexivity.
Qed.

(** The handlers read the arguments of a command, never its verb. *)
Lemma dispatch_verb_case p0 p0' ps w :
  upper p0 = upper p0' -> dispatch p0 ps w = dispatch p0' ps w.
Proof. intros H. unfold dispatch. rewrite H. reflexivity. Qed.

(** C6, as amended: the frame is first stripped of leading and trailing
    white space; what remains is cut at its first two spaces only, into
    verb, filename and the whole remainder, which may contain spaces and
    is passed to UPLOAD as the single payload argument. *)
Theorem C6_decoding_after_strip (frame v f p : string) (w : world) :
  str_in " " v = false ->
  str_in " " f = false ->
  strip frame = v +:+ " " +:+ f +:+ " " +:+ p ->
  command_parts frame = [v; f; p]
  /\ (upper v = "UPLOAD" -> proses_string frame w = _handle_upload [v; f; p] w).
Proof.
  intros Hv Hf Hs.
  assert (Hparts : command_parts frame = [v; f; p]).
  { unfold command_parts. rewrite Hs. now apply split_three. }
  split; [exact Hparts|]. intros Hu.
  rewrite (proses_string_dispatch _ _ _ _ Hparts). now apply dispatch_upload.
Qed.

(** C10: [split] never returns the empty list, so the guard of the
    "Empty command" branch never holds; an empty or white-space-only
    frame reaches the unknown-verb branch with an empty verb. *)
Theorem C10_empty_command_unreachable :
  (forall sep maxsplit s, split sep maxsplit s <> [])
  /\ (forall command_string, command_parts command_string <> [])
  /\ (forall command_string w,
        whitespace_only command_string = true ->
        proses_string command_string w
        = (Return (error_response "Unknown command: "), w)).
Proof.
  split; [exact split_nonempty|]. split; [exact command_parts_nonempty|].
  intros s w H.
  assert (Hparts : command_parts s = [""]).
  { unfold command_parts. now rewrite (strip_whitespace _ H). }
  rewrite (proses_string_dispatch _ _ _ _ Hparts). reflexivity.
Qed.

Lemma escape_wide_app a b : escape_wide (a ++ b) = escape_wide a +:+ escape_wide b.
Proof.
  induction a as [|n a IH]; [reflexivity|].
  simpl. now rewrite IH, app_assoc'.
Qed.

(** The serialized record of an unknown verb contains the verb, as
    [json.dumps] writes it. *)
Lemma unknown_command_contains verb :
  str_in (escape_wide verb) (unknown_command verb) = true.
Proof.
  apply occurs_str_in. unfold unknown_command.
  cbn [dumps List.map fst snd join]. unfold quoted_wide.
  rewrite escape_wide_app.
  exists ("{" +:+ quoted "status" +:+ ": " +:+ quoted "ERROR" +:+ ", "
          +:+ quoted "data" +:+ ": "
          +:+ String quote (escape_wide (points "Unknown command: "))),
    (String quote "" +:+ "}").
  generalize (escape_wide verb). intros e. vm_compute (escape_wide (points _)).
  vm_compute (quoted "status"). vm_compute (quoted "ERROR"). vm_compute (quoted "data").
  repeat (rewrite ?app_assoc', ?app_cons, ?app_empty_l). reflexivity.
Qed.

(** C7: the verb is matched without regard to case, and a command whose
    upper-cased verb is none of UPLOAD, GET, LIST, DELETE is answered by
    an ERROR record whose message is [Unknown command: ] followed by that
    upper-cased verb, so that the response contains it; the frame
    [FOO bar] is answered with a message containing [FOO]. *)
Theorem C7_verbs :
  (forall v v' rest w,
     no_whitespace v = true -> upper v = upper v' ->
     proses_string (v +:+ rest) w = proses_string (v' +:+ rest) w)
  /\ (forall command_string w,
        let verb := upper (hd "" (command_parts command_string)) in
        ~ In verb ["UPLOAD" : wide; "GET" : wide; "LIST" : wide; "DELETE" : wide] ->
        proses_string command_string w
        = (Return (dumps (Obj [("status", Str "ERROR");
                               ("data", WStr (points "Unknown command: " ++ verb))])),
           w)
        /\ str_in (escape_wide verb)
             (dumps (Obj [("status", Str "ERROR");
                          ("data", WStr (points "Unknown command: " ++ verb))]))
           = true)
  /\ (forall w,
        proses_string "FOO bar" w
        = (Return (error_response "Unknown command: FOO"), w)
        /\ str_in "FOO" "Unknown command: FOO" = true).
Proof.
  split; [|split].
  - intros v v' rest w Hv Hu.
    destruct v as [|a v0] eqn:Ev.
    { symmetry in Hu. apply upper_eq_empty in Hu. now subst. }
    rewrite <- Ev in *.
    assert (Hne : v <> "") by (rewrite Ev; discriminate).
    assert (Hv' : no_whitespace v' = true)
      by now rewrite <- no_whitespace_upper, <- Hu, no_whitespace_upper.
    assert (Hne' : v' <> "").
    { intros ->. apply upper_eq_empty in Hu. contradiction. }
    pose proof (no_whitespace_no_space _ Hv) as Hsp.
    pose proof (no_whitespace_no_space _ Hv') as Hsp'.
    erewrite (proses_string_dispatch (v +:+ rest));
      [|unfold command_parts; rewrite (strip_token _ _ Hv Hne); now apply split_skip].
    erewrite (proses_string_dispatch (v' +:+ rest));
      [|unfold command_parts; rewrite (strip_token _ _ Hv' Hne'); now apply split_skip].
    apply dispatch_verb_case. now rewrite !upper_app, Hu.
  - intros s w verb H. subst verb.
    destruct (command_parts s) as [|p0 ps] eqn:E.
    { now apply command_parts_nonempty in E. }
    rewrite (proses_string_dispatch _ _ _ _ E). simpl hd in *.
    split; [now apply dispatch_unknown|apply unknown_command_contains].
  - intros w. split; reflexivity.
Qed.

(** The upper-case form of a verb can be longer than the verb: the frame
    whose verb is the sharp s followed by [x] is answered with
    [Unknown command: SSX]. *)
Example sharp_s_verb w :
  proses_string (String "223" "x y") w
  = (Return (error_response "Unknown command: SSX"), w).
Proof. reflexivity. Qed.

End Decoding.

(** ** The system calls *)

Section SystemCalls.
Import PyStr Py Os Base64 Json FileProtocol Props.

Lemma probe_eq c path test w :
  probe c path test w =
    (Return (match os_error w c path with
             | Some _ => false
             | None => if str_in NUL path then false else test (logged w c path)
             end),
     logged w c path).
Proof.
  unfold probe, bind, record. fold (logged w c path).
  change (os_error (logged w c path)) with (os_error w).
  destruct (os_error w c path); [reflexivity|]. now destruct (str_in NUL path).
Qed.

Lemma guarded_eq {A} c path (body : M world A) w :
  guarded c path body w =
    match os_error w c path with
    | Some msg => (Raise msg, logged w c path)
    | None =>
        if str_in NUL path then (Raise embedded_null, logged w c path)
        else body (logged w c path)
    end.
Proof. reflexivity. Qed.

Lemma strip_prefix_app p s : strip_prefix p (p +:+ s) = Some s.
Proof.
  induction p as [|a p IH]; [now destruct s|].
  rewrite app_cons. simpl. now rewrite Ascii.eqb_refl.
Qed.

Lemma startswith_in sub s : startswith sub s = true -> str_in sub s = true.
Proof. intros H. destruct s; simpl; now rewrite H. Qed.

(** Joining the storage directory with a name that has no slash appends
    the name to the directory's prefix. *)
Lemma path_join_name root n :
  str_in "/" n = false -> path_join root n = path_join root "" +:+ n.
Proof.
  intros H. unfold path_join.
  assert (Hs : startswith "/" n = false).
  { destruct (startswith "/" n) eqn:E; [|reflexivity].
    apply startswith_in in E. congruence. }
  rewrite Hs. change (startswith "/" "") with false. cbv iota.
  destruct (String.eqb root "" || endswith_sep root).
  - now rewrite app_empty_r.
  - now rewrite !app_assoc', app_empty_l.
Qed.

Lemma locate_name w n :
  str_in "/" n = false -> n <> "" -> n <> "." -> n <> ".." ->
  locate w (path_join (storage_path w) n) = Entry n.
Proof.
  intros Hs H0 H1 H2. unfold locate.
  rewrite (path_join_name _ _ Hs), strip_prefix_app.
  apply String.eqb_neq in H0, H1, H2. now rewrite H0, H1, H2, Hs.
Qed.

Lemma dotdot_in_itself : str_in ".." ".." = true.
Proof. reflexivity. Qed.

Lemma valid_not_dotdot f : _is_valid_filename f = true -> f <> "..".
Proof. intros H ->. apply valid_no_dotdot in H. discriminate. Qed.

Lemma locate_valid w f :
  _is_valid_filename f = true -> f <> "." ->
  locate w (path_join (storage_path w) f) = Entry f.
Proof.
  intros H Hd. apply locate_name; auto using valid_no_slash, valid_not_empty, valid_not_dotdot.
Qed.

Lemma within_root_name root n :
  str_in "/" n = false -> n <> ".." -> within_root root (path_join root n) = true.
Proof.
  intros Hs Hd. unfold within_root.
  rewrite (path_join_name _ _ Hs), strip_prefix_app, Hs.
  apply String.eqb_neq in Hd. rewrite Hd. apply orb_true_r.
Qed.

Lemma within_root_self root : within_root root root = true.
Proof. unfold within_root. now rewrite String.eqb_refl. Qed.

End SystemCalls.

(** ** Confinement of the system calls *)

Section Confinement.
Import PyStr Py Os Base64 Json FileProtocol Props.

Lemma traced_ret {A} root (a : A) (Q : A -> Prop) : Q a -> traced root (ret a) Q.
Proof.
  intros H w Hr Hw. simpl. repeat split; auto.
  exists []. split; [now rewrite app_nil_r|constructor].
Qed.

Lemma traced_raise {A} root e (Q : A -> Prop) : traced root (raise e) Q.
Proof.
  intros w Hr Hw. simpl. repeat split; auto.
  exists []. split; [now rewrite app_nil_r|constructor].
Qed.

Lemma traced_bind {A B} root (m : M world A) (k : A -> M world B) Q R :
  traced root m Q -> (forall a, Q a -> traced root (k a) R) ->
  traced root (bind m k) R.
Proof.
  intros Hm Hk w Hr Hw. unfold bind. specialize (Hm w Hr Hw).
  destruct (m w) as [[a|e] w1]; destruct Hm as (Hq & Hr1 & Hw1 & new1 & Hc1 & Hn1).
  - specialize (Hk a Hq w1 Hr1 Hw1).
    destruct (k a w1) as [r w2]. destruct Hk as (Hq2 & Hr2 & Hw2 & new2 & Hc2 & Hn2).
    repeat split; auto. exists (new1 ++ new2).
    split; [now rewrite Hc2, Hc1, <- app_assoc|now apply Forall_app].
  - repeat split; auto. now exists new1.
Qed.

Lemma traced_try {A} root (body : M world A) handler Q :
  traced root body Q -> (forall e, traced root (handler e) Q) ->
  traced root (try_except body handler) Q.
Proof.
  intros Hb Hh w Hr Hw. unfold try_except. specialize (Hb w Hr Hw).
  destruct (body w) as [[a|e] w1]; destruct Hb as (Hq & Hr1 & Hw1 & new1 & Hc1 & Hn1).
  - repeat split; auto. now exists new1.
  - specialize (Hh e w1 Hr1 Hw1).
    destruct (handler e w1) as [r w2]. destruct Hh as (Hq2 & Hr2 & Hw2 & new2 & Hc2 & Hn2).
    repeat split; auto. exists (new1 ++ new2).
    split; [now rewrite Hc2, Hc1, <- app_assoc|now apply Forall_app].
Qed.

Lemma traced_weaken {A} root (m : M world A) (Q R : A -> Prop) :
  traced root m Q -> (forall a, Q a -> R a) -> traced root m R.
Proof.
  intros Hm HQR w Hr Hw. specialize (Hm w Hr Hw).
  destruct (m w) as [[a|e] w1]; destruct Hm as (Hq & H); split; auto.
Qed.

Lemma traced_index {A} root (l : list A) i :
  traced root (index l i) (fun a => nth_error l i = Some a).
Proof.
  unfold index. destruct (nth_error l i); [now apply traced_ret|apply traced_raise].
Qed.

Lemma traced_self_storage_path root :
  traced root self_storage_path (fun s => s = root).
Proof.
  intros w Hr Hw. simpl. repeat split; auto.
  exists []. split; [now rewrite app_nil_r|constructor].
Qed.

Lemma traced_probe root c path test :
  confined root (c, path) -> traced root (probe c path test) (fun _ => True).
Proof.
  intros Hc w Hr Hw. rewrite probe_eq. repeat split; auto.
  exists [(c, path)]. split; [reflexivity|constructor; [exact Hc|constructor]].
Qed.

(** A call that can raise is traced when its body records nothing more
    and keeps the world well formed. *)
Lemma traced_guarded {A} root c path (body : M world A) (Q : A -> Prop) :
  confined root (c, path) ->
  (forall w, storage_path w = root -> wf w ->
     match body w with
     | (r, w') =>
         match r with Return a => Q a | Raise _ => True end
         /\ storage_path w' = root /\ wf w' /\ calls w' = calls w
     end) ->
  traced root (guarded c path body) Q.
Proof.
  intros Hc Hb w Hr Hw. rewrite guarded_eq.
  assert (Hnew : exists new, calls (logged w c path) = calls w ++ new
                             /\ Forall (confined root) new).
  { exists [(c, path)]. split; [reflexivity|constructor; [exact Hc|constructor]]. }
  destruct (os_error w c path); [now repeat split|].
  destruct (str_in NUL path); [now repeat split|].
  specialize (Hb (logged w c path) Hr Hw).
  destruct (body (logged w c path)) as [r w1].
  destruct Hb as (Hq & Hr1 & Hw1 & Hc1). repeat split; auto.
  now rewrite Hc1.
Qed.

Lemma locate_entry_legal w path n : locate w path = Entry n -> legal_entry n = true.
Proof.
  unfold locate, legal_entry.
  destruct (strip_prefix _ path) as [m|]; [|now destruct (String.eqb path _)].
  destruct (String.eqb m "") eqn:E0; [discriminate|].
  destruct (String.eqb m ".") eqn:E1; [discriminate|].
  destruct (String.eqb m "..") eqn:E2; [discriminate|].
  destruct (str_in "/" m) eqn:E3; [discriminate|].
  simpl. intros [= <-]. now rewrite E0, E1, E2, E3.
Qed.

Lemma wf_insert w n x :
  wf w -> legal_entry n = true -> wf (set_entries w (<[n := x]> (entries w))).
Proof. intros Hw Hn. unfold wf. simpl. now apply map_Forall_insert_2. Qed.

Lemma wf_delete w n : wf w -> wf (set_entries w (delete n (entries w))).
Proof. intros Hw. unfold wf. simpl. now apply map_Forall_delete. Qed.

Ltac traced_body :=
  intros w Hr Hw;
  repeat match goal with
         | |- context [locate ?w ?p] =>
             let E := fresh "E" in destruct (locate w p) eqn:E
         | |- context [entries ?w !! ?n] => destruct (entries w !! n) as [[?|]|]
         end;
  simpl; repeat split; auto;
  try (apply wf_insert; [assumption|eapply locate_entry_legal; eassumption]);
  try (now apply wf_delete).

Lemma traced_open_rb root path :
  confined root (OpenRb, path) -> traced root (open_rb path) (fun f => f = File path).
Proof. intros Hc. apply traced_guarded; [exact Hc|]. traced_body. Qed.

Lemma traced_f_read root path :
  confined root (FRead, path) -> traced root (f_read (File path)) (fun _ => True).
Proof. intros Hc. apply traced_guarded; [exact Hc|]. traced_body. Qed.

Lemma traced_open_wb root path :
  confined root (OpenWb, path) -> traced root (open_wb path) (fun f => f = File path).
Proof. intros Hc. apply traced_guarded; [exact Hc|]. traced_body. Qed.

Lemma traced_f_write root path data :
  confined root (FWrite, path) -> traced root (f_write (File path) data) (fun _ => True).
Proof. intros Hc. apply traced_guarded; [exact Hc|]. traced_body. Qed.

Lemma traced_os_remove root path :
  confined root (Remove, path) -> traced root (os_remove path) (fun _ => True).
Proof. intros Hc. apply traced_guarded; [exact Hc|]. traced_body. Qed.

Lemma traced_os_path_getsize root path :
  confined root (GetSize, path) -> traced root (os_path_getsize path) (fun _ => True).
Proof. intros Hc. apply traced_guarded; [exact Hc|]. traced_body. Qed.

Lemma traced_os_listdir root :
  traced root (os_listdir root) (Forall (fun n => legal_entry n = true)).
Proof.
  apply traced_guarded.
  { split; [apply within_root_self|discriminate]. }
  intros w Hr Hw. destruct (locate w root); simpl; repeat split; auto.
  apply Forall_forall. intros n Hn.
  apply list_elem_of_fmap in Hn as ([n' x] & -> & Hn).
  apply elem_of_map_to_list in Hn. exact (Hw _ _ Hn).
Qed.

End Confinement.

Section HandlersConfined.
Import PyStr Py Os Base64 Json FileProtocol Props.

Lemma confined_valid root c f :
  _is_valid_filename f = true -> confined root (c, path_join root f).
Proof.
  intros H. split; simpl.
  - apply within_root_name; auto using valid_no_slash, valid_not_dotdot.
  - intros _. now exists f.
Qed.

Lemma legal_entry_facts n :
  legal_entry n = true -> str_in "/" n = false /\ n <> "..".
Proof.
  unfold legal_entry. intros H.
  repeat (apply andb_true_iff in H as [H ?]).
  split; [now apply negb_true_iff|].
  apply String.eqb_neq. now apply negb_true_iff.
Qed.

Lemma confined_entry root c n :
  names_a_file c = false -> legal_entry n = true -> confined root (c, path_join root n).
Proof.
  intros Hc Hn. apply legal_entry_facts in Hn as [Hs Hd]. split; simpl.
  - now apply within_root_name.
  - congruence.
Qed.

Lemma traced_handle_upload root parts :
  traced root (_handle_upload parts) (fun _ => True).
Proof.
  unfold _handle_upload. destruct (length parts <? 3)%nat; [now apply traced_ret|].
  apply traced_try; [|intros e; now apply traced_ret].
  eapply traced_bind; [apply traced_index|]. intros filename _.
  eapply traced_bind; [apply traced_index|]. intros content _.
  destruct (_is_valid_filename filename) eqn:Hv; [|now apply traced_ret].
  simpl negb. cbv iota.
  destruct (b64decode content); [|now apply traced_ret].
  eapply traced_bind; [apply traced_self_storage_path|]. intros storage ->.
  eapply traced_bind; [apply traced_open_wb, confined_valid, Hv|]. intros f ->.
  eapply traced_bind; [apply traced_f_write, confined_valid, Hv|]. intros _ _.
  now apply traced_ret.
Qed.

Lemma traced_handle_get root parts :
  traced root (_handle_get parts) (fun _ => True).
Proof.
  unfold _handle_get. destruct (length parts <? 2)%nat; [now apply traced_ret|].
  apply traced_try; [|intros e; now apply traced_ret].
  eapply traced_bind; [apply traced_index|]. intros filename _.
  destruct (_is_valid_filename filename) eqn:Hv; [|now apply traced_ret].
  simpl negb. cbv iota.
  eapply traced_bind; [apply traced_self_storage_path|]. intros storage ->.
  eapply traced_bind; [apply traced_probe, confined_valid, Hv|]. intros present _.
  destruct (negb present); [now apply traced_ret|].
  eapply traced_bind; [apply traced_open_rb, confined_valid, Hv|]. intros f ->.
  eapply traced_bind; [apply traced_f_read, confined_valid, Hv|]. intros content _.
  now apply traced_ret.
Qed.

Lemma traced_list_loop root names files :
  Forall (fun n => legal_entry n = true) names ->
  traced root (list_loop root names files) (fun _ => True).
Proof.
  intros H. revert files. induction H as [|n names Hn _ IH]; intros files.
  { now apply traced_ret. }
  simpl.
  eapply traced_bind; [now apply traced_probe, confined_entry|]. intros regular _.
  destruct regular; [|apply IH].
  eapply traced_bind; [now apply traced_os_path_getsize, confined_entry|].
  intros size _. apply IH.
Qed.

Lemma traced_handle_list root : traced root _handle_list (fun _ => True).
Proof.
  unfold _handle_list.
  apply traced_try; [|intros e; now apply traced_ret].
  eapply traced_bind; [apply traced_self_storage_path|]. intros storage ->.
  eapply traced_bind; [apply traced_os_listdir|]. intros names Hnames.
  eapply traced_bind; [now apply traced_list_loop|]. intros files _.
  now apply traced_ret.
Qed.

Lemma traced_handle_delete root parts :
  traced root (_handle_delete parts) (fun _ => True).
Proof.
  unfold _handle_delete. destruct (length parts <? 2)%nat; [now apply traced_ret|].
  apply traced_try; [|intros e; now apply traced_ret].
  eapply traced_bind; [apply traced_index|]. intros filename _.
  destruct (_is_valid_filename filename) eqn:Hv; [|now apply traced_ret].
  simpl negb. cbv iota.
  eapply traced_bind; [apply traced_self_storage_path|]. intros storage ->.
  eapply traced_bind; [apply traced_probe, confined_valid, Hv|]. intros present _.
  destruct (negb present); [now apply traced_ret|].
  eapply traced_bind; [apply traced_os_remove, confined_valid, Hv|]. intros _ _.
  now apply traced_ret.
Qed.

Lemma traced_dispatch root p0 ps : traced root (dispatch p0 ps) (fun _ => True).
Proof.
  unfold dispatch.
  repeat match goal with |- context [wide_eqb ?a ?b] => destruct (wide_eqb a b) end.
  - apply traced_handle_upload.
  - apply traced_handle_get.
  - apply traced_handle_list.
  - apply traced_handle_delete.
  - now apply traced_ret.
Qed.

(** Well-formedness is an invariant of the protocol. *)
Lemma proses_string_wf s w : wf w -> wf (snd (proses_string s w)).
Proof.
  intros Hw. destruct (command_parts s) as [|p0 ps] eqn:E.
  { now apply command_parts_nonempty in E. }
  rewrite (proses_string_dispatch _ _ _ _ E).
  pose proof (traced_dispatch (storage_path w) p0 ps w eq_refl Hw) as H.
  destruct (dispatch p0 ps w) as [r w']. now destruct H as (_ & _ & H & _).
Qed.

(** C3: every call that names a file (to test, open, read, write or
    delete it) is made on the storage directory joined with one filename
    the validator has accepted, and every recorded call, those of LIST
    included, stays in the storage directory: its path is the directory
    itself or the directory joined with a single component other than
    the parent link. *)
Theorem C3_paths_confined (command_string : string) (w : world) :
  wf w ->
  exists new,
    calls (snd (proses_string command_string w)) = calls w ++ new
    /\ forall c path,
         In (c, path) new ->
         within_root (storage_path w) path = true
         /\ (names_a_file c = true ->
             exists filename,
               _is_valid_filename filename = true
               /\ path = path_join (storage_path w) filename).
Proof.
  intros Hw. destruct (command_parts command_string) as [|p0 ps] eqn:E.
  { now apply command_parts_nonempty in E. }
  rewrite (proses_string_dispatch _ _ _ _ E).
  pose proof (traced_dispatch (storage_path w) p0 ps w eq_refl Hw) as H.
  destruct (dispatch p0 ps w) as [r w'].
  destruct H as (_ & _ & _ & new & Hc & Hn).
  exists new. split; [exact Hc|]. intros c path Hin.
  exact (proj1 (List.Forall_forall _ _) Hn (c, path) Hin).
Qed.

End HandlersConfined.

(** ** Rejected filenames, and LIST *)

Section Rejection.
Import PyStr Py Os Base64 Json FileProtocol Props.

Lemma ke_ret {A} (a : A) : keeps_entries (ret (W := world) a).
Proof. now intros w. Qed.

Lemma ke_bind {A B} (m : M world A) (k : A -> M world B) :
  keeps_entries m -> (forall a, keeps_entries (k a)) -> keeps_entries (bind m k).
Proof.
  intros Hm Hk w. unfold bind. specialize (Hm w).
  destruct (m w) as [[a|e] w1]; simpl in *; [|exact Hm].
  now rewrite Hk.
Qed.

Lemma ke_try {A} (body : M world A) handler :
  keeps_entries body -> (forall e, keeps_entries (handler e)) ->
  keeps_entries (try_except body handler).
Proof.
  intros Hb Hh w. unfold try_except. specialize (Hb w).
  destruct (body w) as [[a|e] w1]; simpl in *; [exact Hb|].
  now rewrite Hh.
Qed.

Lemma ke_probe c path test : keeps_entries (probe c path test).
Proof. intros w. now rewrite probe_eq. Qed.

Lemma ke_os_path_getsize path : keeps_entries (os_path_getsize path).
Proof.
  intros w. unfold os_path_getsize. rewrite guarded_eq.
  destruct (os_error w GetSize path); [reflexivity|].
  destruct (str_in NUL path); [reflexivity|].
  destruct (locate _ path); [reflexivity| |reflexivity].
  now destruct (entries _ !! name) as [[?|]|].
Qed.

Lemma ke_os_listdir path : keeps_entries (os_listdir path).
Proof.
  intros w. unfold os_listdir. rewrite guarded_eq.
  destruct (os_error w Listdir path); [reflexivity|].
  destruct (str_in NUL path); [reflexivity|].
  now destruct (locate _ path).
Qed.

Lemma ke_list_loop storage names files : keeps_entries (list_loop storage names files).
Proof.
  revert files. induction names as [|n names IH]; intros files; [apply ke_ret|].
  simpl. apply ke_bind; [apply ke_probe|]. intros [|]; [|apply IH].
  apply ke_bind; [apply ke_os_path_getsize|]. intros size. apply IH.
Qed.

Lemma ke_handle_list : keeps_entries _handle_list.
Proof.
  unfold _handle_list. apply ke_try; [|intros e; apply ke_ret].
  apply ke_bind; [now intros w|]. intros storage.
  apply ke_bind; [apply ke_os_listdir|]. intros names.
  apply ke_bind; [apply ke_list_loop|]. intros files. apply ke_ret.
Qed.

Lemma handle_get_invalid v f rest w :
  _is_valid_filename f = false ->
  _handle_get (v :: f :: rest) w = (Return (error_response "Invalid filename"), w).
Proof.
  intros H.
  cbv beta iota zeta delta
    [_handle_get try_except bind index ret raise nth_error length Nat.ltb Nat.leb].
  now rewrite H.
Qed.

Lemma handle_delete_invalid v f rest w :
  _is_valid_filename f = false ->
  _handle_delete (v :: f :: rest) w = (Return (error_response "Invalid filename"), w).
Proof.
  intros H.
  cbv beta iota zeta delta
    [_handle_delete try_except bind index ret raise nth_error length Nat.ltb Nat.leb].
  now rewrite H.
Qed.

Lemma handle_upload_invalid v f p rest w :
  _is_valid_filename f = false ->
  _handle_upload (v :: f :: p :: rest) w = (Return (error_response "Invalid filename"), w).
Proof.
  intros H.
  cbv beta iota zeta delta
    [_handle_upload try_except bind index ret raise nth_error length Nat.ltb Nat.leb].
  now rewrite H.
Qed.

(** What LIST answers: the OK record of a listing, or, when the platform
    refuses a call, the ERROR record of the handler. *)
Lemma handle_list_answers w :
  exists response w',
    _handle_list w = (Return response, w')
    /\ ((exists files,
           response = dumps (Obj [("status", Str "OK");
                                  ("data", Str "File list retrieved successfully");
                                  ("files", Arr files);
                                  ("count", Int (length files))]))
        \/ exists e, response = error_response ("List failed: " +:+ e)).
Proof.
  unfold _handle_list, try_except, bind at 1, self_storage_path.
  unfold bind at 1.
  destruct (os_listdir (storage_path w) w) as [[names|e] w1].
  - unfold bind at 1.
    destruct (list_loop (storage_path w) names [] w1) as [[files|e] w2].
    + eexists _, _. split; [reflexivity|]. left. now exists files.
    + eexists _, _. split; [reflexivity|]. right. now exists e.
  - eexists _, _. split; [reflexivity|]. right. now exists e.
Qed.

(** C2, as amended: a filename that contains [..], [/] or [\], or has
    more than 255 characters, given as the filename argument of GET, of
    DELETE, or of an UPLOAD that carries a payload, is answered with ERROR
    "Invalid filename" and the world is left as it was (no call is made).
    LIST takes no filename: whatever follows the verb is ignored, the
    answer is that of the handler of LIST, which is given no argument, and
    so that of a bare LIST: the record of the listing (or ERROR "List
    failed: ..." when the platform refuses a call); the entries of the
    storage directory are left as they were. *)
Theorem C2_invalid_filename_rejected :
  (forall frame verb filename rest w,
     command_parts frame = verb :: filename :: rest ->
     (str_in ".." filename = true \/ str_in "/" filename = true
      \/ str_in (String "092" "") filename = true
      \/ 255 < String.length filename) ->
     (upper verb = "GET" \/ upper verb = "DELETE"
      \/ (upper verb = "UPLOAD" /\ rest <> [])) ->
     proses_string frame w = (Return (error_response "Invalid filename"), w))
  /\ (forall frame verb arguments w,
        command_parts frame = verb :: arguments ->
        upper verb = "LIST" ->
        exists response w',
          proses_string frame w = (Return response, w')
          /\ proses_string frame w = _handle_list w
          /\ proses_string frame w = proses_string "LIST" w
          /\ ((exists files,
                 response
                 = dumps (Obj [("status", Str "OK");
                               ("data", Str "File list retrieved successfully");
                               ("files", Arr files);
                               ("count", Int (length files))]))
              \/ exists e, response = error_response ("List failed: " +:+ e))
          /\ is_response response
          /\ entries w' = entries w).
Proof.
  split.
  - intros frame verb filename rest w Hparts Hden Hverb.
    apply denied_invalid in Hden.
    rewrite (proses_string_dispatch _ _ _ _ Hparts).
    destruct Hverb as [Hv|[Hv|[Hv Hrest]]].
    + rewrite (dispatch_get _ _ _ Hv). now apply handle_get_invalid.
    + rewrite (dispatch_delete _ _ _ Hv). now apply handle_delete_invalid.
    + rewrite (dispatch_upload _ _ _ Hv).
      destruct rest as [|p rest]; [contradiction|]. now apply handle_upload_invalid.
  - intros frame verb arguments w Hparts Hv.
    assert (Hbare : proses_string "LIST" w = _handle_list w).
    { now rewrite (proses_string_dispatch "LIST" "LIST" [] w eq_refl),
        (dispatch_list "LIST" [] w eq_refl). }
    rewrite Hbare, (proses_string_dispatch _ _ _ _ Hparts), (dispatch_list _ _ _ Hv).
    destruct (handle_list_answers w) as (r & w' & E & Hr).
    exists r, w'. split; [exact E|]. split; [reflexivity|]. split; [reflexivity|].
    split; [exact Hr|]. split.
    + destruct Hr as [[files ->]|[e ->]]; [apply ok_is_response|apply error_is_response].
    + pose proof (ke_handle_list w) as Hk. now rewrite E in Hk.
Qed.

End Rejection.

(** ** Running the handlers on a validated filename *)

Section Running.
Import PyStr Py Os Base64 Json FileProtocol Props.

Lemma join_cons x l : exists t, join (x :: l) = x +:+ t.
Proof.
  destruct l as [|y l]; [exists ""; now rewrite app_empty_r|].
  now exists (", " +:+ join (y :: l)).
Qed.

Lemma dumps_first_field k v fields :
  exists t, dumps (Obj ((k, v) :: fields)) = "{" +:+ (quoted k +:+ ": " +:+ dumps v) +:+ t.
Proof.
  change (dumps (Obj ((k, v) :: fields)))
    with ("{" +:+
          join ((quoted k +:+ ": " +:+ dumps v)
                :: List.map (fun kv => quoted (fst kv) +:+ ": " +:+ dumps (snd kv)) fields)
          +:+ "}").
  destruct (join_cons (quoted k +:+ ": " +:+ dumps v)
              (List.map (fun kv => quoted (fst kv) +:+ ": " +:+ dumps (snd kv)) fields))
    as [t ->].
  exists (t +:+ "}"). now rewrite !app_assoc'.
Qed.

(** An ERROR record is not an OK record. *)
Lemma error_not_ok d : has_status "OK" (error_response d) -> False.
Proof.
  intros [fields H]. unfold error_response in H.
  destruct (dumps_first_field "status" (Str "ERROR") [("data", Str d)]) as [t1 E1].
  destruct (dumps_first_field "status" (Str "OK") fields) as [t2 E2].
  rewrite E1, E2 in H.
  assert (Hs1 : quoted "status" +:+ ": " +:+ dumps (Str "ERROR")
                = String "034" ("status" +:+ String "034" (": " +:+ String "034" ("ERROR" +:+ String "034" ""))))
    by reflexivity.
  assert (Hs2 : quoted "status" +:+ ": " +:+ dumps (Str "OK")
                = String "034" ("status" +:+ String "034" (": " +:+ String "034" ("OK" +:+ String "034" ""))))
    by reflexivity.
  rewrite Hs1, Hs2 in H.
  cbv [String.append] in H. discriminate H.
Qed.

Lemma rstrip_after_space text :
  rstrip (String " " text) = ""
  \/ exists r, rstrip (String " " text) = String " " r /\ rstrip text = r /\ r <> "".
Proof.
  rewrite rstrip_cons. destruct (rstrip text) as [|a r]; [now left|].
  right. now exists (String a r).
Qed.

(** The parts of a frame that starts with a verb and a space. *)
Lemma command_parts_verb v text :
  no_whitespace v = true -> v <> "" ->
  command_parts (v +:+ " " +:+ text) = v :: arguments text.
Proof.
  intros Hv Hne. unfold command_parts, arguments.
  rewrite (strip_token _ _ Hv Hne).
  change (" " +:+ text) with (String " " text).
  rewrite (split_skip 1 v _ (no_whitespace_no_space _ Hv)). f_equal.
  destruct (rstrip_after_space text) as [->|(r & -> & _)];
    now rewrite <- (app_empty_r v) at 2.
Qed.

Lemma arguments_token text :
  str_in " " text = false -> rstrip text = text -> text <> "" ->
  arguments text = [text].
Proof.
  intros Hs Hr Hne. unfold arguments.
  destruct (rstrip_after_space text) as [E|(r & E & Hr' & _)].
  - rewrite rstrip_cons, Hr in E. destruct text; [contradiction|discriminate].
  - rewrite E, <- Hr', Hr. simpl. now rewrite (partition_none _ _ Hs).
Qed.

Lemma arguments_two f p :
  str_in " " f = false -> rstrip p = p -> p <> "" ->
  arguments (f +:+ " " +:+ p) = [f; p].
Proof.
  intros Hs Hr Hne. unfold arguments.
  assert (E : rstrip (String " " (f +:+ " " +:+ p)) = String " " (f +:+ " " +:+ p)).
  { assert (Eq : String " " (f +:+ " " +:+ p) = String " " (f +:+ " ") +:+ p)
      by now rewrite (app_cons " " (f +:+ " ") p), (app_assoc' f " " p).
    rewrite Eq at 1. rewrite rstrip_app_nonempty by now rewrite Hr.
    now rewrite Hr, Eq. }
  rewrite E. simpl. now rewrite (partition_space f p Hs).
Qed.

Lemma handle_delete_valid v f rest w :
  _is_valid_filename f = true ->
  _handle_delete (v :: f :: rest) w =
    let path := path_join (storage_path w) f in
    match os_path_exists path w with
    | (Return present, w0) =>
        if negb present
        then (Return (error_response ("File not found: " +:+ f)), w0)
        else
          match os_remove path w0 with
          | (Return _, w1) => (Return (delete_ok f), w1)
          | (Raise e, w1) => (Return (error_response ("Delete failed: " +:+ e)), w1)
          end
    | (Raise e, w0) => (Return (error_response ("Delete failed: " +:+ e)), w0)
    end.
Proof.
  intros H.
  cbv beta iota zeta delta
    [_handle_delete try_except bind index ret raise nth_error length Nat.ltb Nat.leb
     self_storage_path].
  rewrite H. cbn [negb]. cbv iota.
  destruct (os_path_exists _ w) as [[[|]|e] w0]; cbn [negb]; cbv iota; try reflexivity.
  now destruct (os_remove _ w0) as [[u|e] w1].
Qed.

Lemma handle_get_valid v f rest w :
  _is_valid_filename f = true ->
  _handle_get (v :: f :: rest) w =
    let path := path_join (storage_path w) f in
    match os_path_exists path w with
    | (Return present, w0) =>
        if negb present
        then (Return (error_response ("File not found: " +:+ f)), w0)
        else
          match open_rb path w0 with
          | (Return file, w1) =>
              match f_read file w1 with
              | (Return content, w2) =>
                  (Return (get_ok f (b64encode content) (length content)), w2)
              | (Raise e, w2) => (Return (error_response ("Get failed: " +:+ e)), w2)
              end
          | (Raise e, w1) => (Return (error_response ("Get failed: " +:+ e)), w1)
          end
    | (Raise e, w0) => (Return (error_response ("Get failed: " +:+ e)), w0)
    end.
Proof.
  intros H.
  cbv beta iota zeta delta
    [_handle_get try_except bind index ret raise nth_error length Nat.ltb Nat.leb
     self_storage_path].
  rewrite H. cbn [negb]. cbv iota.
  destruct (os_path_exists _ w) as [[[|]|e] w0]; cbn [negb]; cbv iota; try reflexivity.
  destruct (open_rb _ w0) as [[file|e] w1]; [|reflexivity].
  now destruct (f_read file w1) as [[content|e] w2].
Qed.

Lemma handle_upload_valid v f p rest data w :
  _is_valid_filename f = true -> b64decode p = Some data ->
  _handle_upload (v :: f :: p :: rest) w =
    let path := path_join (storage_path w) f in
    match open_wb path w with
    | (Return file, w1) =>
        match f_write file data w1 with
        | (Return _, w2) => (Return (upload_ok f (length data)), w2)
        | (Raise e, w2) => (Return (error_response ("Upload failed: " +:+ e)), w2)
        end
    | (Raise e, w1) => (Return (error_response ("Upload failed: " +:+ e)), w1)
    end.
Proof.
  intros H Hd.
  cbv beta iota zeta delta
    [_handle_upload try_except bind index ret raise nth_error length Nat.ltb Nat.leb
     self_storage_path].
  rewrite H, Hd. cbn [negb]. cbv iota.
  destruct (open_wb _ w) as [[file|e] w1]; [|reflexivity].
  now destruct (f_write file data w1) as [[u|e] w2].
Qed.

End Running.

(** ** DELETE, then GET *)

Section DeleteThenGet.
Import PyStr Py Os Base64 Json FileProtocol Props.

Ltac not_ok H Hok :=
  exfalso; injection H as H _; rewrite <- H in Hok; exact (error_not_ok _ Hok).

Lemma handle_delete_then_get v v' ps w response w1 :
  _handle_delete (v :: ps) w = (Return response, w1) ->
  has_status "OK" response ->
  exists name w2,
    nth_error ps 0 = Some name
    /\ _handle_get (v' :: ps) w1
       = (Return (error_response ("File not found: " +:+ name)), w2).
Proof.
  intros H Hok. destruct ps as [|f rest].
  { cbv beta iota delta [_handle_delete length Nat.ltb Nat.leb ret] in H. not_ok H Hok. }
  destruct (_is_valid_filename f) eqn:Hv;
    [|rewrite (handle_delete_invalid _ _ _ _ Hv) in H; not_ok H Hok].
  rewrite (handle_delete_valid _ _ _ _ Hv) in H. cbv zeta in H.
  unfold os_path_exists in H. rewrite probe_eq in H.
  set (path := path_join (storage_path w) f) in *.
  destruct (os_error w Exists path) eqn:Eerr; [cbn [negb] in H; not_ok H Hok|].
  destruct (str_in NUL path) eqn:Enul; [cbn [negb] in H; not_ok H Hok|].
  change (locate (logged w Exists path) path) with (locate w path) in H.
  change (entries (logged w Exists path)) with (entries w) in H.
  destruct (locate w path) as [|n|] eqn:Eloc.
  - (* the directory itself: removing it raises *)
    cbn [negb] in H. unfold os_remove in H. rewrite guarded_eq in H.
    change (os_error (logged w Exists path)) with (os_error w) in H.
    destruct (os_error w Remove path); [not_ok H Hok|].
    rewrite Enul in H.
    change (locate (logged (logged w Exists path) Remove path) path)
      with (locate w path) in H.
    rewrite Eloc in H. not_ok H Hok.
  - destruct (entries w !! n) as [x|] eqn:Een; cbn [negb] in H; [|not_ok H Hok].
    unfold os_remove in H. rewrite guarded_eq in H.
    change (os_error (logged w Exists path)) with (os_error w) in H.
    destruct (os_error w Remove path); [not_ok H Hok|].
    rewrite Enul in H.
    change (locate (logged (logged w Exists path) Remove path) path)
      with (locate w path) in H.
    change (entries (logged (logged w Exists path) Remove path))
      with (entries w) in H.
    rewrite Eloc, Een in H. destruct x as [content|]; [|not_ok H Hok].
    injection H as _ Hw1.
    exists f. eexists. split; [reflexivity|].
    rewrite (handle_get_valid _ _ _ _ Hv). cbv zeta.
    assert (Hsp : storage_path w1 = storage_path w) by now subst w1.
    assert (Herr : os_error w1 = os_error w) by now subst w1.
    assert (Hen : entries w1 !! n = None) by (subst w1; apply lookup_delete_eq).
    rewrite Hsp. fold path. unfold os_path_exists. rewrite probe_eq.
    rewrite Herr, Eerr, Enul.
    change (locate (logged w1 Exists path) path)
      with (match strip_prefix (path_join (storage_path w1) "") path with
            | Some n0 =>
                if String.eqb n0 "" || String.eqb n0 "." then Root
                else if String.eqb n0 ".." || str_in "/" n0 then Outside
                else Entry n0
            | None => if String.eqb path (storage_path w1) then Root else Outside
            end).
    rewrite Hsp. fold (locate w path). rewrite Eloc.
    change (entries (logged w1 Exists path)) with (entries w1). rewrite Hen.
    reflexivity.
  - cbn [negb] in H. not_ok H Hok.
Qed.

End DeleteThenGet.

Section DeleteThenGetClaim.
Import PyStr Py Os Base64 Json FileProtocol Props.

(** C8: whatever the storage held before, once [DELETE F] has been
    answered with an OK record, [GET F] is answered with an ERROR record
    that reports the file as not found.  The file named is the filename
    argument of both frames, which is [F] itself when [F] has no space
    and no trailing white space. *)
Theorem C8_delete_then_get (filename : string) (w w1 : world) (response : string) :
  proses_string ("DELETE " +:+ filename) w = (Return response, w1) ->
  has_status "OK" response ->
  exists name w2,
    proses_string ("GET " +:+ filename) w1
    = (Return (error_response ("File not found: " +:+ name)), w2)
    /\ (str_in " " filename = false -> rstrip filename = filename ->
        name = filename).
Proof.
  intros H Hok.
  assert (Hd : command_parts ("DELETE " +:+ filename) = "DELETE" :: arguments filename)
    by now apply (command_parts_verb "DELETE").
  assert (Hg : command_parts ("GET " +:+ filename) = "GET" :: arguments filename)
    by now apply (command_parts_verb "GET").
  rewrite (proses_string_dispatch _ _ _ _ Hd),
    (dispatch_delete _ _ _ (eq_refl : upper "DELETE" = "DELETE")) in H.
  destruct (handle_delete_then_get _ "GET" _ _ _ _ H Hok) as (name & w2 & Hn & Hget).
  exists name, w2. split.
  - now rewrite (proses_string_dispatch _ _ _ _ Hg),
      (dispatch_get _ _ _ (eq_refl : upper "GET" = "GET")).
  - intros Hs Hr. destruct (String.eqb_spec filename "") as [->|Hne].
    + discriminate Hn.
    + rewrite (arguments_token _ Hs Hr Hne) in Hn. now injection Hn.
Qed.

End DeleteThenGetClaim.

(** ** UPLOAD, then GET *)

Section RoundTrip.
Import PyStr Py Os Base64 Json FileProtocol Props.

Lemma locate_same w w' path :
  storage_path w' = storage_path w -> locate w' path = locate w path.
Proof. intros H. unfold locate. now rewrite H. Qed.

Lemma open_wb_ok w f path :
  os_error w OpenWb path = None -> str_in NUL path = false ->
  locate w path = Entry f -> entries w !! f <> Some SubDir ->
  open_wb path w
  = (Return (File path),
     set_entries (logged w OpenWb path) (<[f := RegFile []]> (entries w))).
Proof.
  intros He Hn Hl Hd. unfold open_wb. rewrite guarded_eq, He, Hn.
  rewrite (locate_same w (logged w OpenWb path) path eq_refl), Hl.
  change (entries (logged w OpenWb path)) with (entries w).
  destruct (entries w !! f) as [[c|]|]; [reflexivity|contradiction|reflexivity].
Qed.

Lemma f_write_ok w f path c data :
  os_error w FWrite path = None -> str_in NUL path = false ->
  locate w path = Entry f -> entries w !! f = Some (RegFile c) ->
  f_write (File path) data w
  = (Return tt,
     set_entries (logged w FWrite path) (<[f := RegFile (c ++ data)]> (entries w))).
Proof.
  intros He Hn Hl Hc. unfold f_write. rewrite guarded_eq, He, Hn.
  rewrite (locate_same w (logged w FWrite path) path eq_refl), Hl.
  change (entries (logged w FWrite path)) with (entries w). now rewrite Hc.
Qed.

Lemma os_path_exists_ok w f path x :
  os_error w Exists path = None -> str_in NUL path = false ->
  locate w path = Entry f -> entries w !! f = Some x ->
  os_path_exists path w = (Return true, logged w Exists path).
Proof.
  intros He Hn Hl Hc. unfold os_path_exists. rewrite probe_eq, He, Hn.
  rewrite (locate_same w (logged w Exists path) path eq_refl), Hl.
  change (entries (logged w Exists path)) with (entries w). now rewrite Hc.
Qed.

Lemma open_rb_ok w f path c :
  os_error w OpenRb path = None -> str_in NUL path = false ->
  locate w path = Entry f -> entries w !! f = Some (RegFile c) ->
  open_rb path w = (Return (File path), logged w OpenRb path).
Proof.
  intros He Hn Hl Hc. unfold open_rb. rewrite guarded_eq, He, Hn.
  rewrite (locate_same w (logged w OpenRb path) path eq_refl), Hl.
  change (entries (logged w OpenRb path)) with (entries w). now rewrite Hc.
Qed.

Lemma f_read_ok w f path c :
  os_error w FRead path = None -> str_in NUL path = false ->
  locate w path = Entry f -> entries w !! f = Some (RegFile c) ->
  f_read (File path) w = (Return c, logged w FRead path).
Proof.
  intros He Hn Hl Hc. unfold f_read. rewrite guarded_eq, He, Hn.
  rewrite (locate_same w (logged w FRead path) path eq_refl), Hl.
  change (entries (logged w FRead path)) with (entries w). now rewrite Hc.
Qed.

(** The handlers alone: storing then fetching a validated name. *)
Lemma handle_upload_then_get v v' f p data rest rest' w :
  _is_valid_filename f = true -> f <> "." ->
  b64decode p = Some data ->
  (forall c path, os_error w c path = None) ->
  str_in NUL (path_join (storage_path w) f) = false ->
  entries w !! f <> Some SubDir ->
  exists w1 w2,
    _handle_upload (v :: f :: p :: rest) w = (Return (upload_ok f (length data)), w1)
    /\ _handle_get (v' :: f :: rest') w1
       = (Return (get_ok f (b64encode data) (length data)), w2).
Proof.
  intros Hv Hdot Hdec Herr Hnul Hdir.
  set (path := path_join (storage_path w) f) in *.
  pose proof (locate_valid w f Hv Hdot) as Hloc. fold path in Hloc.
  set (wa := set_entries (logged w OpenWb path) (<[f := RegFile []]> (entries w))).
  set (wb := set_entries (logged wa FWrite path)
               (<[f := RegFile ([] ++ data)]> (entries wa))).
  assert (Hlb : forall w', storage_path w' = storage_path w -> locate w' path = Entry f).
  { intros w' E. now rewrite (locate_same w w' path E). }
  assert (Hopen : open_wb path w = (Return (File path), wa))
    by now apply open_wb_ok.
  assert (Hwrite : f_write (File path) data wa = (Return tt, wb)).
  { apply f_write_ok; [apply (Herr FWrite)|exact Hnul|now apply Hlb|apply lookup_insert_eq]. }
  assert (Hfile : entries wb !! f = Some (RegFile data)) by apply lookup_insert_eq.
  exists wb, (logged (logged (logged wb Exists path) OpenRb path) FRead path).
  split.
  - rewrite (handle_upload_valid _ _ _ _ _ _ Hv Hdec). cbv zeta. fold path.
    now rewrite Hopen, Hwrite.
  - rewrite (handle_get_valid _ _ _ _ Hv). cbv zeta.
    change (path_join (storage_path wb) f) with path.
    rewrite (os_path_exists_ok wb f path (RegFile data));
      [|apply (Herr Exists)|exact Hnul|now apply Hlb|exact Hfile].
    cbn [negb]. cbv iota.
    rewrite (open_rb_ok (logged wb Exists path) f path data);
      [|apply (Herr OpenRb)|exact Hnul|now apply Hlb|exact Hfile].
    rewrite (f_read_ok (logged (logged wb Exists path) OpenRb path) f path data);
      [|apply (Herr FRead)|exact Hnul|now apply Hlb|exact Hfile].
    reflexivity.
Qed.

End RoundTrip.

Section RoundTripClaim.
Import PyStr Py Os Base64 Json FileProtocol Props.

(** C1, as amended: for every non-empty byte sequence [B] and every
    filename [F] that the validator accepts, that has no space and no
    trailing white space, and that the platform can store as a regular
    file (it refuses no call, the path has no NUL, and [F] names neither
    the directory itself nor a directory in it), [UPLOAD F base64(B)]
    is answered with an OK record whose [file_size] is [len(B)], and the
    following [GET F] with an OK record whose [file_size] is [len(B)] and
    whose [data_file] is the base64 text of [B], which decodes to exactly
    [B]. *)
Theorem C1_upload_then_get (data : list byte) (filename : string) (w : world) :
  _is_valid_filename filename = true ->
  data <> [] ->
  str_in " " filename = false ->
  rstrip filename = filename ->
  filename <> "." ->
  (forall c path, os_error w c path = None) ->
  str_in NUL (path_join (storage_path w) filename) = false ->
  entries w !! filename <> Some SubDir ->
  exists w1 w2,
    proses_string ("UPLOAD " +:+ filename +:+ " " +:+ b64encode data) w
    = (Return
         (dumps (Obj [("status", Str "OK");
                      ("data", Str ("File " +:+ filename +:+ " uploaded successfully"));
                      ("file_size", Int (length data))])),
       w1)
    /\ proses_string ("GET " +:+ filename) w1
       = (Return
            (dumps (Obj [("status", Str "OK");
                         ("data", Str ("File " +:+ filename +:+ " retrieved successfully"));
                         ("data_file", Str (b64encode data));
                         ("file_size", Int (length data))])),
          w2)
    /\ b64decode (b64encode data) = Some data.
Proof.
  intros Hv Hdata Hs Hr Hdot Herr Hnul Hdir.
  destruct (b64encode_text data) as [_ Hws].
  pose proof (rstrip_no_whitespace _ Hws) as HrE.
  pose proof (b64encode_nonempty _ Hdata) as HneE.
  pose proof (b64decode_b64encode data) as Hdec.
  assert (Hu : command_parts ("UPLOAD " +:+ filename +:+ " " +:+ b64encode data)
               = ["UPLOAD"; filename; b64encode data]).
  { rewrite <- (arguments_two filename (b64encode data) Hs HrE HneE).
    now apply (command_parts_verb "UPLOAD"). }
  assert (Hg : command_parts ("GET " +:+ filename) = ["GET"; filename]).
  { rewrite <- (arguments_token filename Hs Hr (valid_not_empty _ Hv)).
    now apply (command_parts_verb "GET"). }
  destruct (handle_upload_then_get "UPLOAD" "GET" filename (b64encode data) data [] [] w
              Hv Hdot Hdec Herr Hnul Hdir) as (w1 & w2 & H1 & H2).
  exists w1, w2. split; [|split; [|exact Hdec]].
  - rewrite (proses_string_dispatch _ _ _ _ Hu),
      (dispatch_upload _ _ _ (eq_refl : upper "UPLOAD" = "UPLOAD")).
    exact H1.
  - rewrite (proses_string_dispatch _ _ _ _ Hg),
      (dispatch_get _ _ _ (eq_refl : upper "GET" = "GET")).
    exact H2.
Qed.

End RoundTripClaim.

(** ** The session loop *)

Section SessionFacts.
Import PyStr Py Os Base64 Json FileProtocol Session Props.

Lemma delimiter_parts :
  DELIMITER = String "013" (String "010" (String "013" "")) +:+ String "010" "".
Proof. reflexivity. Qed.

Lemma split_once sep s h t :
  partition sep s = Some (h, t) -> split sep 1 s = [h; t].
Proof. intros H. simpl. now rewrite H. Qed.

(** A frame body followed by the delimiter is cut exactly there. *)
Lemma partition_frame c rest :
  frame_body c = true ->
  partition DELIMITER (c +:+ DELIMITER +:+ rest) = Some (c, rest).
Proof.
  intros H. unfold frame_body in H. apply negb_true_iff in H.
  rewrite delimiter_parts in *. now apply partition_joined.
Qed.

Lemma length_framed cs rest : length cs <= String.length (framed cs rest).
Proof.
  induction cs as [|c cs IH]; simpl; [lia|].
  rewrite !app_length'. simpl. lia.
Qed.

Lemma sends_app a b : sends (a ++ b) = sends a ++ sends b.
Proof. apply omap_app. Qed.

Lemma sends_send l : sends (Send <$> l) = l.
Proof. unfold sends. induction l as [|x l IH]; simpl in *; now f_equal. Qed.

(** The inner loop never runs out of fuel. *)
Lemma frames_loop_total fuel refuse : forall k buffer w,
  String.length buffer < fuel -> exists r, frames_loop fuel refuse k buffer w = Some r.
Proof.
  induction fuel as [|fuel IH]; intros k buffer w Hlen; [lia|].
  simpl. destruct (str_in DELIMITER buffer) eqn:Hin; [|eauto].
  destruct (partition_some _ _ Hin) as (h & t & Hp & Hb).
  rewrite Hp.
  destruct (proses_string_responds h w) as (hasil & w1 & -> & _).
  destruct (refuse k); [eauto|].
  destruct (IH (S k) t w1) as [[[sent r] w2] ->]; [|eauto].
  rewrite Hb, !app_length' in Hlen. simpl in Hlen. lia.
Qed.

Lemma process_buffer_total refuse k buffer w :
  exists r, process_buffer refuse k buffer w = Some r.
Proof. apply frames_loop_total. lia. Qed.

(** The outer loop always ends, and its first act is to read. *)
Lemma serve_total incoming refuse : forall k buffer w,
  exists evs w', serve incoming refuse k buffer w = Some (Recv :: evs, w').
Proof.
  induction incoming as [|r incoming IH]; intros k buffer w.
  { simpl. eauto. }
  destruct r as [[|a data]| |e]; simpl; eauto.
  destruct (process_buffer_total refuse k (buffer +:+ String a data) w)
    as [[[sent [b|e]] w1] ->].
  - destruct (IH (k + length (sends sent)) b w1) as (evs & w2 & ->). eauto.
  - eauto.
Qed.

(** The frames of a buffer are answered one by one, in order, as long as
    the peer accepts the responses. *)
Lemma frames_loop_framed refuse cs : forall rest k w fuel,
  length cs < fuel ->
  Forall (fun c => frame_body c = true) cs ->
  str_in DELIMITER rest = false ->
  (forall i, i < length cs -> refuse (k + i) = None) ->
  exists sent w',
    frames_loop fuel refuse k (framed cs rest) w = Some (Send <$> sent, Return rest, w')
    /\ replies w cs sent w'
    /\ length sent = length cs.
Proof.
  induction cs as [|c cs IH]; intros rest k w fuel Hfuel Hcs Hrest Hacc.
  - destruct fuel; [simpl in Hfuel; lia|]. simpl. rewrite Hrest.
    exists [], w. repeat split. constructor.
  - destruct fuel; [simpl in Hfuel; lia|].
    apply Forall_cons_iff in Hcs as [Hc Hcs].
    cbn [framed frames_loop].
    assert (Hin : str_in DELIMITER (c +:+ DELIMITER +:+ framed cs rest) = true).
    { apply str_in_spec. now exists c, (framed cs rest). }
    rewrite Hin, (split_once _ _ _ _ (partition_frame c _ Hc)).
    destruct (proses_string_responds c w) as (hasil & w1 & E & _). rewrite E.
    pose proof (Hacc 0 ltac:(simpl; lia)) as H0. rewrite Nat.add_0_r in H0. rewrite H0.
    destruct (IH rest (S k) w1 fuel) as (sent & w' & -> & Hrep & Hlen); auto.
    { simpl in Hfuel. lia. }
    { intros i Hi. replace (S k + i) with (k + S i) by lia. apply Hacc. simpl. lia. }
    exists ((hasil +:+ DELIMITER) :: sent), w'. repeat split.
    + econstructor; eassumption.
    + simpl. now rewrite Hlen.
Qed.

(** A response that the peer does not accept ends the loop: the frames
    before it are answered, its own command has run, and no later frame
    is looked at. *)
Lemma frames_loop_refused refuse before : forall c after rest k w fuel e,
  length before < fuel ->
  Forall (fun c => frame_body c = true) (before ++ [c]) ->
  (forall i, i < length before -> refuse (k + i) = None) ->
  refuse (k + length before) = Some e ->
  exists sent w1 hasil w',
    replies w before sent w1
    /\ proses_string c w1 = (Return hasil, w')
    /\ frames_loop fuel refuse k (framed (before ++ c :: after) rest) w
       = Some ((Send <$> sent) ++ [SendFails (hasil +:+ DELIMITER)], Raise e, w').
Proof.
  induction before as [|b before IH]; intros c after rest k w fuel e Hfuel Hcs Hacc Href.
  - destruct fuel; [simpl in Hfuel; lia|].
    apply Forall_cons_iff in Hcs as [Hc _].
    cbn [framed frames_loop app].
    assert (Hin : str_in DELIMITER (c +:+ DELIMITER +:+ framed after rest) = true).
    { apply str_in_spec. now exists c, (framed after rest). }
    rewrite Hin, (split_once _ _ _ _ (partition_frame c _ Hc)).
    destruct (proses_string_responds c w) as (hasil & w1 & E & _). rewrite E.
    simpl in Href. rewrite Nat.add_0_r in Href. rewrite Href.
    exists [], w, hasil, w1. repeat split; [constructor|exact E].
  - destruct fuel; [simpl in Hfuel; lia|].
    apply Forall_cons_iff in Hcs as [Hb Hcs].
    cbn [framed frames_loop app].
    assert (Hin : str_in DELIMITER
                    (b +:+ DELIMITER +:+ framed (before ++ c :: after) rest) = true).
    { apply str_in_spec. now exists b, (framed (before ++ c :: after) rest). }
    rewrite Hin, (split_once _ _ _ _ (partition_frame b _ Hb)).
    destruct (proses_string_responds b w) as (hb & wb & E & _). rewrite E.
    pose proof (Hacc 0 ltac:(simpl; lia)) as H0. rewrite Nat.add_0_r in H0. rewrite H0.
    destruct (IH c after rest (S k) wb fuel e) as (sent & w1 & hasil & w' & Hrep & Ec & ->).
    { simpl in Hfuel. lia. }
    { exact Hcs. }
    { intros i Hi. replace (S k + i) with (k + S i) by lia. apply Hacc. simpl. lia. }
    { replace (S k + length before) with (k + S (length before)) by lia. exact Href. }
    exists ((hb +:+ DELIMITER) :: sent), w1, hasil, w'. repeat split.
    + econstructor; eassumption.
    + exact Ec.
Qed.

End SessionFacts.

Section SessionClaim.
Import PyStr Py Os Base64 Json FileProtocol Session Props.

(** C5, as amended: when the buffer, once a chunk has been appended,
    holds the complete frames [cs] followed by an unfinished [rest], and
    the peer accepts the responses, the session answers every frame, one
    response frame per command frame and in the order of the commands,
    each command run in the world its predecessor left; all these
    responses are sent before the socket is read again, and [rest] stays
    in the buffer.  A response that the peer does not accept ends the
    session: the frames before it are answered, its own command has run,
    and the frames behind it are neither run nor answered. *)
Theorem C5_pipelined_frames (cs : list string) (rest buffer data : string)
    (more : list recv_result) (refuse : nat -> option string) (k : nat)
    (w : world) :
  Forall (fun c => frame_body c = true) cs ->
  str_in DELIMITER rest = false ->
  data <> "" ->
  buffer +:+ data = framed cs rest ->
  ((forall i, i < length cs -> refuse (k + i) = None) ->
   exists sent w' evs w'',
     replies w cs sent w'
     /\ length sent = length cs
     /\ process_buffer refuse k (buffer +:+ data) w
        = Some (Send <$> sent, Return rest, w')
     /\ serve more refuse (k + length cs) rest w' = Some (Recv :: evs, w'')
     /\ serve (Data data :: more) refuse k buffer w
        = Some (Recv :: (Send <$> sent) ++ Recv :: evs, w''))
  /\ (forall before c after e,
        cs = before ++ c :: after ->
        (forall i, i < length before -> refuse (k + i) = None) ->
        refuse (k + length before) = Some e ->
        exists sent w1 hasil w',
          replies w before sent w1
          /\ proses_string c w1 = (Return hasil, w')
          /\ serve (Data data :: more) refuse k buffer w
             = Some (Recv :: (Send <$> sent) ++ [SendFails (hasil +:+ DELIMITER)], w')).
Proof.
  intros Hcs Hrest Hdata Hbuf. split.
  - intros Hacc.
    destruct (frames_loop_framed refuse cs rest k w (S (String.length (framed cs rest))))
      as (sent & w' & Hloop & Hrep & Hlen); auto.
    { pose proof (length_framed cs rest). lia. }
    destruct (serve_total more refuse (k + length cs) rest w') as (evs & w'' & Hserve).
    assert (Hpb : process_buffer refuse k (buffer +:+ data) w
                  = Some (Send <$> sent, Return rest, w')).
    { unfold process_buffer. now rewrite Hbuf. }
    exists sent, w', evs, w''. repeat split; auto.
    destruct data as [|a data]; [contradiction|].
    cbn [serve]. now rewrite Hpb, sends_send, Hlen, Hserve.
  - intros before c after e -> Hacc Href.
    destruct (frames_loop_refused refuse before c after rest k w
                (S (String.length (framed (before ++ c :: after) rest))) e)
      as (sent & w1 & hasil & w' & Hrep & Ec & Hloop); auto.
    { pose proof (length_framed (before ++ c :: after) rest) as H.
      rewrite length_app in H. simpl in H. lia. }
    { rewrite Forall_app in Hcs. destruct Hcs as [H1 H2].
      apply Forall_app. split; [exact H1|].
      apply Forall_cons_iff in H2 as [H2 _]. now constructor. }
    exists sent, w1, hasil, w'. repeat split; auto.
    destruct data as [|a data]; [contradiction|].
    cbn [serve]. unfold process_buffer. now rewrite Hbuf, Hloop.
Qed.

(** [handle_client] always ends: it reads first and closes last. *)
Lemma handle_client_total conn w :
  exists evs w', handle_client conn w = Some (Recv :: evs ++ [Close], w').
Proof.
  unfold handle_client.
  destruct (serve_total (incoming conn) (sendall_error conn) 0 "" w) as (evs & w' & ->).
  now exists evs, w'.
Qed.

(** Two frames in one write, [UPLOAD a QUJD] then [LIST]: two responses,
    in that order, and the listing shows the file just stored. *)
Example pipelining_upload_then_list :
  option_map fst
    (handle_client
       (Connection [Data ("UPLOAD a QUJD" +:+ DELIMITER +:+ "LIST" +:+ DELIMITER)]
          (fun _ => None))
       empty_world)
  = Some [Recv;
          Send (upload_ok "a" 3 +:+ DELIMITER);
          Send (dumps (Obj [("status", Str "OK");
                            ("data", Str "File list retrieved successfully");
                            ("files", Arr [Obj [("filename", Str "a"); ("size", Int 3)]]);
                            ("count", Int 1)]) +:+ DELIMITER);
          Recv; Close].
Proof. vm_compute. reflexivity. Qed.

End SessionClaim.

(** ** Instances and counterexamples *)

Section Instances.
Import PyStr Py Os Base64 Json FileProtocol Session Props.

Lemma C1_upload_then_get_witness :
  exists w1 w2,
    proses_string ("UPLOAD " +:+ "a.txt" +:+ " " +:+ b64encode [x41; x42; x43]) empty_world
    = (Return
         (dumps (Obj [("status", Str "OK");
                      ("data", Str ("File " +:+ "a.txt" +:+ " uploaded successfully"));
                      ("file_size", Int (length [x41; x42; x43]))])),
       w1)
    /\ proses_string ("GET " +:+ "a.txt") w1
       = (Return
            (dumps (Obj [("status", Str "OK");
                         ("data", Str ("File " +:+ "a.txt" +:+ " retrieved successfully"));
                         ("data_file", Str (b64encode [x41; x42; x43]));
                         ("file_size", Int (length [x41; x42; x43]))])),
          w2)
    /\ b64decode (b64encode [x41; x42; x43]) = Some [x41; x42; x43].
Proof.
  apply (C1_upload_then_get [x41; x42; x43] "a.txt" empty_world).
  - reflexivity.
  - discriminate.
  - reflexivity.
  - reflexivity.
  - discriminate.
  - intros c path. reflexivity.
  - reflexivity.
  - simpl. rewrite lookup_empty. discriminate.
Defined.

(** The claim C1 fails for the empty byte sequence: its base64 text is
    empty, the frame loses its trailing space, and UPLOAD is refused. *)
Lemma C1_counterexample_empty_payload :
  _is_valid_filename "a" = true
  /\ proses_string ("UPLOAD " +:+ "a" +:+ " " +:+ b64encode []) empty_world
     = (Return (error_response "UPLOAD command requires filename and content"),
        empty_world).
Proof. split; reflexivity. Qed.

Lemma C2_invalid_filename_rejected_witness :
  proses_string "GET ../etc/passwd" empty_world
  = (Return (error_response "Invalid filename"), empty_world)
  /\ exists response w',
       proses_string "LIST ../x" one_file_world = (Return response, w')
       /\ proses_string "LIST ../x" one_file_world = _handle_list one_file_world
       /\ proses_string "LIST ../x" one_file_world = proses_string "LIST" one_file_world
       /\ ((exists files,
              response
              = dumps (Obj [("status", Str "OK");
                            ("data", Str "File list retrieved successfully");
                            ("files", Arr files);
                            ("count", Int (length files))]))
           \/ exists e, response = error_response ("List failed: " +:+ e))
       /\ is_response response
       /\ entries w' = entries one_file_world.
Proof.
  split.
  - apply (proj1 C2_invalid_filename_rejected "GET ../etc/passwd" "GET" "../etc/passwd" []).
    + reflexivity.
    + left. reflexivity.
    + left. reflexivity.
  - apply (proj2 C2_invalid_filename_rejected "LIST ../x" "LIST" ["../x"] one_file_world);
      reflexivity.
Defined.

(** The claim C2 fails for LIST: a rejected filename behind the verb is
    ignored and the answer is the OK record of the listing. *)
Lemma C2_counterexample_list :
  str_in ".." "../x" = true
  /\ fst (proses_string "LIST ../x" empty_world)
     = Return (dumps (Obj [("status", Str "OK");
                           ("data", Str "File list retrieved successfully");
                           ("files", Arr []);
                           ("count", Int 0)])).
Proof. split; vm_compute; reflexivity. Qed.

Lemma one_file_world_wf : wf one_file_world.
Proof. unfold wf. simpl. apply map_Forall_singleton. reflexivity. Qed.

Lemma C3_paths_confined_witness :
  exists new,
    calls (snd (proses_string "DELETE a" one_file_world)) = calls one_file_world ++ new
    /\ forall c path,
         In (c, path) new ->
         within_root (storage_path one_file_world) path = true
         /\ (names_a_file c = true ->
             exists filename,
               _is_valid_filename filename = true
               /\ path = path_join (storage_path one_file_world) filename).
Proof. apply (C3_paths_confined "DELETE a" one_file_world), one_file_world_wf. Defined.

Lemma C5_pipelined_frames_witness :
  exists sent w' evs w'',
    replies empty_world ["UPLOAD a QUJD"; "LIST"] sent w'
    /\ length sent = length ["UPLOAD a QUJD"; "LIST"]
    /\ process_buffer (fun _ => None) 0
         ("" +:+ framed ["UPLOAD a QUJD"; "LIST"] "") empty_world
       = Some (Send <$> sent, Return "", w')
    /\ serve [] (fun _ => None) (0 + length ["UPLOAD a QUJD"; "LIST"]) "" w'
       = Some (Recv :: evs, w'')
    /\ serve [Data (framed ["UPLOAD a QUJD"; "LIST"] "")] (fun _ => None) 0 ""
         empty_world
       = Some (Recv :: (Send <$> sent) ++ Recv :: evs, w'').
Proof.
  refine (proj1 (C5_pipelined_frames ["UPLOAD a QUJD"; "LIST"] "" ""
                   (framed ["UPLOAD a QUJD"; "LIST"] "") [] (fun _ => None) 0
                   empty_world _ _ _ _) _).
  - repeat constructor.
  - reflexivity.
  - vm_compute. discriminate.
  - reflexivity.
  - intros i _. reflexivity.
Defined.

(** The claim C5 fails when the peer does not accept a response: of two
    frames received in one chunk, the first is run, [sendall] raises on
    its response, and the session closes without running or answering
    the second. *)
Lemma C5_counterexample_refused_send :
  Forall (fun c => frame_body c = true) ["LIST"; "LIST"]
  /\ option_map fst
       (handle_client
          (Connection [Data (framed ["LIST"; "LIST"] "")]
             (fun _ => Some "[Errno 32] Broken pipe"))
          empty_world)
     = Some [Recv;
             SendFails (dumps (Obj [("status", Str "OK");
                                    ("data", Str "File list retrieved successfully");
                                    ("files", Arr []);
                                    ("count", Int 0)]) +:+ DELIMITER);
             Close].
Proof. split; [repeat constructor|vm_compute; reflexivity]. Qed.

Lemma C6_decoding_after_strip_witness :
  command_parts "  UPLOAD a.txt QUJD QUJD  " = ["UPLOAD"; "a.txt"; "QUJD QUJD"]
  /\ (upper "UPLOAD" = "UPLOAD" ->
      proses_string "  UPLOAD a.txt QUJD QUJD  " empty_world
      = _handle_upload ["UPLOAD"; "a.txt"; "QUJD QUJD"] empty_world).
Proof.
  apply (C6_decoding_after_strip "  UPLOAD a.txt QUJD QUJD  " "UPLOAD" "a.txt" "QUJD QUJD");
    reflexivity.
Defined.

(** The claim C6 fails on a frame with trailing white space: cutting the
    frame itself at its first two spaces keeps the trailing space in the
    payload, the code drops it. *)
Lemma C6_counterexample_trailing_space :
  split_first_two_spaces "UPLOAD a b c " = ["UPLOAD"; "a"; "b c "]
  /\ command_parts "UPLOAD a b c " = ["UPLOAD"; "a"; "b c"].
Proof. split; reflexivity. Qed.

(** The second frame has the sharp s for its verb, whose upper-case form
    is [SS]. *)
Lemma C7_verbs_witness :
  proses_string ("upload" +:+ " a QUJD") empty_world
  = proses_string ("UpLoAd" +:+ " a QUJD") empty_world
  /\ proses_string (String "223" "x y") empty_world
     = (Return (dumps (Obj [("status", Str "ERROR");
                            ("data", WStr (points "Unknown command: "
                                           ++ upper (String "223" "x")))])),
        empty_world)
  /\ str_in (escape_wide (upper (String "223" "x")))
       (dumps (Obj [("status", Str "ERROR");
                    ("data", WStr (points "Unknown command: "
                                   ++ upper (String "223" "x")))]))
     = true.
Proof.
  split.
  - apply (proj1 C7_verbs "upload" "UpLoAd" " a QUJD" empty_world); reflexivity.
  - apply (proj1 (proj2 C7_verbs) (String "223" "x y") empty_world).
    vm_compute. intros [H|[H|[H|[H|[]]]]]; discriminate H.
Defined.

Lemma C8_delete_then_get_witness :
  exists name w2,
    proses_string ("GET " +:+ "a") (snd (proses_string ("DELETE " +:+ "a") one_file_world))
    = (Return (error_response ("File not found: " +:+ name)), w2)
    /\ (str_in " " "a" = false -> rstrip "a" = "a" -> name = "a").
Proof.
  apply (C8_delete_then_get "a" one_file_world
           (snd (proses_string ("DELETE " +:+ "a") one_file_world)) (delete_ok "a")).
  - vm_compute. reflexivity.
  - eexists. reflexivity.
Defined.

Lemma C10_empty_command_unreachable_witness :
  proses_string (String " " (String "009" (String "010" ""))) empty_world
  = (Return (error_response "Unknown command: "), empty_world).
Proof. apply (proj2 (proj2 C10_empty_command_unreachable)). reflexivity. Defined.

End Instances.

(** * Further properties *)

(** ** What a response is made of *)

Section ResponseText.
Import PyStr Py Os Base64 Json FileProtocol Session Props More.

Lemma all_chars_app P a b : all_chars P (a +:+ b) = all_chars P a && all_chars P b.
Proof.
  induction a as [|c a IH]; [reflexivity|].
  rewrite app_cons. simpl. now rewrite IH, andb_assoc.
Qed.

Lemma escape_char_printable c : printable_text (escape_char c) = true.
Proof. destruct c as [[] [] [] [] [] [] [] []]; reflexivity. Qed.

Lemma escape_printable s : printable_text (escape s) = true.
Proof.
  induction s as [|c s IH]; [reflexivity|].
  simpl. unfold printable_text in *. now rewrite all_chars_app, escape_char_printable, IH.
Qed.

Lemma quoted_printable s : printable_text (quoted s) = true.
Proof.
  pose proof (escape_printable s) as H. unfold quoted, printable_text in *.
  cbn [all_chars]. now rewrite all_chars_app, H.
Qed.

Lemma hex_digit_printable n : printable (hex_digit n) = true.
Proof.
  unfold hex_digit. generalize (N.to_nat n). clear n. intros k.
  do 16 (destruct k as [|k]; [reflexivity|]). reflexivity.
Qed.

Lemma escape_unit_printable n : printable_text (escape_unit n) = true.
Proof.
  unfold escape_unit, printable_text. cbn [all_chars].
  now rewrite !hex_digit_printable.
Qed.

Lemma escape_point_printable n : printable_text (escape_point n) = true.
Proof.
  unfold escape_point. destruct (n <? 256)%N; [apply escape_char_printable|].
  destruct (n <? 65536)%N; [apply escape_unit_printable|].
  unfold printable_text. rewrite all_chars_app.
  pose proof (escape_unit_printable
                (N.lor 55296 (N.land (N.shiftr (n - 65536) 10) 1023))) as H1.
  pose proof (escape_unit_printable (N.lor 56320 (N.land (n - 65536) 1023))) as H2.
  unfold printable_text in H1, H2. now rewrite H1, H2.
Qed.

Lemma escape_wide_printable t : printable_text (escape_wide t) = true.
Proof.
  induction t as [|n t IH]; [reflexivity|].
  simpl. unfold printable_text in *.
  pose proof (escape_point_printable n) as H. unfold printable_text in H.
  now rewrite all_chars_app, H, IH.
Qed.

Lemma quoted_wide_printable t : printable_text (quoted_wide t) = true.
Proof.
  pose proof (escape_wide_printable t) as H. unfold quoted_wide, printable_text in *.
  cbn [all_chars]. now rewrite all_chars_app, H.
Qed.

Lemma uint_printable d : printable_text (NilEmpty.string_of_uint d) = true.
Proof. induction d; simpl; auto. Qed.

Lemma str_of_nat_printable n : printable_text (str_of_nat n) = true.
Proof.
  unfold str_of_nat, NilZero.string_of_uint.
  destruct (Nat.to_uint n) eqn:E; try reflexivity; rewrite <- E; apply uint_printable.
Qed.

Lemma join_printable items :
  Forall (fun s => printable_text s = true) items -> printable_text (join items) = true.
Proof.
  induction 1 as [|x items Hx Hitems IH]; [reflexivity|].
  destruct items as [|y items]; [exact Hx|].
  change (join (x :: y :: items)) with (x +:+ ", " +:+ join (y :: items)).
  unfold printable_text in *. now rewrite !all_chars_app, Hx, IH.
Qed.

(** [json.dumps] writes printing ASCII only. *)
Lemma dumps_printable : forall v, printable_text (dumps v) = true.
Proof.
  fix IH 1. intros [s|t|n|l|l].
  - apply quoted_printable.
  - apply quoted_wide_printable.
  - apply str_of_nat_printable.
  - change (dumps (Arr l)) with ("[" +:+ join (List.map dumps l) +:+ "]").
    unfold printable_text. rewrite !all_chars_app.
    assert (H : Forall (fun s => printable_text s = true) (List.map dumps l)).
    { clear -IH. revert l. fix IHl 1. intros [|a l]; simpl; constructor; [apply IH|apply IHl]. }
    apply join_printable in H. unfold printable_text in H. now rewrite H.
  - change (dumps (Obj l))
      with ("{" +:+ join (List.map (fun kv => quoted (fst kv) +:+ ": " +:+ dumps (snd kv)) l)
            +:+ "}").
    unfold printable_text. rewrite !all_chars_app.
    assert (H : Forall (fun s => printable_text s = true)
                  (List.map (fun kv => quoted (fst kv) +:+ ": " +:+ dumps (snd kv)) l)).
    { clear -IH. revert l. fix IHl 1. intros [|[k v] l]; simpl; constructor; [|apply IHl].
      unfold printable_text. rewrite !all_chars_app.
      pose proof (quoted_printable k) as Hk. pose proof (IH v) as Hv.
      unfold printable_text in Hk, Hv. now rewrite Hk, Hv. }
    apply join_printable in H. unfold printable_text in H. now rewrite H.
Qed.

(** No delimiter starts in a printing text. *)
Lemma printable_no_delimiter r t :
  printable_text r = true -> str_in DELIMITER (r +:+ t) = str_in DELIMITER t.
Proof.
  induction r as [|a r IH]; intros H; [reflexivity|].
  unfold printable_text in *. simpl in H. apply andb_true_iff in H as [Ha Hr].
  rewrite app_cons, str_in_cons, (IH Hr).
  assert (Hs : startswith DELIMITER (String a (r +:+ t)) = false).
  { change (startswith DELIMITER (String a (r +:+ t)))
      with (Ascii.eqb "013" a
            && startswith (String "010" (String "013" (String "010" ""))) (r +:+ t)).
    destruct (Ascii.eqb_spec "013" a) as [<-|]; [discriminate Ha|reflexivity]. }
  now rewrite Hs.
Qed.

Lemma printable_frame_body r : printable_text r = true -> frame_body r = true.
Proof. intros H. unfold frame_body. now rewrite (printable_no_delimiter _ _ H). Qed.

Lemma response_printable r : is_response r -> printable_text r = true.
Proof. intros [[fields ->]|[fields ->]]; apply dumps_printable. Qed.

(** X1: every response of [proses_string] is printing ASCII, so the
    delimiter that the session appends is the first one in the frame: a
    client that cuts the stream at the first delimiter recovers exactly
    the response, whatever follows. *)
Theorem X1_response_is_delimiter_free (command_string : string) (w : world) :
  exists response w',
    proses_string command_string w = (Return response, w')
    /\ printable_text response = true
    /\ forall rest,
         partition DELIMITER (response +:+ DELIMITER +:+ rest) = Some (response, rest).
Proof.
  destruct (proses_string_responds command_string w) as (r & w' & E & Hr).
  exists r, w'. split; [exact E|].
  pose proof (response_printable r Hr) as Hp. split; [exact Hp|].
  intros rest. apply partition_frame. now apply printable_frame_body.
Qed.

End ResponseText.

(** ** The parts of a frame *)

Section PartsStructure.
Import PyStr Py Os Base64 Json FileProtocol Session Props More.

Lemma partition_eq sep s h t : partition sep s = Some (h, t) -> s = h +:+ sep +:+ t.
Proof.
  revert h. induction s as [|a s IH]; intros h H.
  - simpl in H. destruct (startswith sep "") eqn:E; [|discriminate].
    injection H as <- <-. apply startswith_spec in E as [x Hx].
    symmetry in Hx. apply app_eq_empty in Hx as [-> ->]. reflexivity.
  - unfold partition in H; fold partition in H.
    destruct (startswith sep (String a s)) eqn:E.
    + injection H as <- <-. apply startswith_spec in E as [x Hx].
      now rewrite Hx, drop_app.
    + destruct (partition sep s) as [[h' t']|]; [|discriminate].
      injection H as <- <-. now rewrite app_cons, <- (IH h' eq_refl).
Qed.

Lemma partition_none_inv sep s : partition sep s = None -> str_in sep s = false.
Proof.
  intros H. destruct (str_in sep s) eqn:E; [|reflexivity].
  destruct (partition_some _ _ E) as (h & t & Hp & _). congruence.
Qed.

(** The text before the first separating character holds none. *)
Lemma partition_char_head c s h t :
  partition (String c "") s = Some (h, t) -> str_in (String c "") h = false.
Proof.
  revert h. induction s as [|a s IH]; intros h H.
  - discriminate H.
  - unfold partition in H; fold partition in H.
    destruct (startswith (String c "") (String a s)) eqn:E.
    + now injection H as <- <-.
    + destruct (partition (String c "") s) as [[h' t']|]; [|discriminate].
      injection H as <- <-. rewrite str_in_cons, (IH h' eq_refl), orb_false_r.
      change (startswith (String c "") (String a h')) with (Ascii.eqb c a && true).
      change (startswith (String c "") (String a s)) with (Ascii.eqb c a && true) in E.
      exact E.
Qed.

Lemma concat_cons sep x l :
  l <> [] -> String.concat sep (x :: l) = x +:+ sep +:+ String.concat sep l.
Proof. now destruct l. Qed.

(** Joining the parts with the separator gives the text back. *)
Lemma concat_split sep n s : String.concat sep (split sep n s) = s.
Proof.
  revert s. induction n as [|n IH]; intros s; [reflexivity|].
  simpl. destruct (partition sep s) as [[h t]|] eqn:E; [|reflexivity].
  rewrite concat_cons by apply split_nonempty.
  now rewrite IH, (partition_eq _ _ _ _ E).
Qed.

Lemma length_split sep n s : 1 <= length (split sep n s) <= S n.
Proof.
  revert s. induction n as [|n IH]; intros s; simpl; [lia|].
  destruct (partition sep s) as [[h t]|]; simpl; [|lia].
  specialize (IH t). lia.
Qed.

Lemma split_char_heads c n s :
  Forall (fun p => str_in (String c "") p = false) (removelast (split (String c "") n s))
  /\ (length (split (String c "") n s) <= n ->
      Forall (fun p => str_in (String c "") p = false) (split (String c "") n s)).
Proof.
  revert s. induction n as [|n IH]; intros s.
  { simpl. split; [constructor|lia]. }
  cbn [split]. destruct (partition (String c "") s) as [[h t]|] eqn:E.
  - destruct (IH t) as [H1 H2]. pose proof (partition_char_head _ _ _ _ E) as Hh.
    split.
    + destruct (split (String c "") n t) as [|x l] eqn:Es;
        [now apply split_nonempty in Es|].
      change (removelast (h :: x :: l)) with (h :: removelast (x :: l)).
      now constructor.
    + intros Hlen. simpl in Hlen. constructor; [exact Hh|]. apply H2. lia.
  - split; [constructor|]. intros _. constructor; [|constructor].
    now apply partition_none_inv.
Qed.

(** X2: the parts of a frame are one to three, joining them with single
    spaces gives back the stripped frame, and only the third part, the
    payload, can contain a space. *)
Theorem X2_command_parts_structure (command_string : string) :
  String.concat " " (command_parts command_string) = strip command_string
  /\ 1 <= length (command_parts command_string) <= 3
  /\ Forall no_space (removelast (command_parts command_string))
  /\ (length (command_parts command_string) < 3 ->
      Forall no_space (command_parts command_string)).
Proof.
  unfold command_parts. split; [apply concat_split|]. split; [apply length_split|].
  destruct (split_char_heads " " 2 (strip command_string)) as [H1 H2].
  split; [exact H1|]. intros H. apply H2. lia.
Qed.

End PartsStructure.

(** ** The session as a whole *)

Section SessionWhole.
Import PyStr Py Os Base64 Json FileProtocol Session Props More.

(** What the inner loop does: it hands response frames to [sendall] and
    nothing else, and the buffer it leaves has no complete frame. *)
Lemma frames_loop_spec fuel refuse : forall k buffer w evs r w',
  frames_loop fuel refuse k buffer w = Some (evs, r, w') ->
  Forall response_frame evs
  /\ match r with
     | Return b => str_in DELIMITER b = false /\ evs = Send <$> sends evs
     | Raise _ => True
     end.
Proof.
  induction fuel as [|fuel IH]; intros k buffer w evs r w' H; [discriminate|].
  simpl in H. destruct (str_in DELIMITER buffer) eqn:Hin.
  - destruct (partition_some _ _ Hin) as (h & t & Hp & _). rewrite Hp in H.
    destruct (proses_string_responds h w) as (hasil & w1 & E & Hr). rewrite E in H.
    destruct (refuse k).
    + injection H as <- <- <-. split; [|exact I].
      constructor; [now exists hasil|constructor].
    + destruct (frames_loop fuel refuse (S k) t w1) as [[[evs1 r1] w2]|] eqn:El;
        [|discriminate].
      injection H as <- <- <-.
      destruct (IH _ _ _ _ _ _ El) as (Hs & Hb).
      split; [constructor; [now exists hasil|exact Hs]|].
      destruct r1 as [b|e]; [|exact I]. destruct Hb as [Hb Hev].
      split; [exact Hb|]. simpl. f_equal. exact Hev.
  - injection H as <- <- <-. split; [constructor|]. now split.
Qed.

Lemma serve_spec incoming refuse : forall k buffer w evs w',
  serve incoming refuse k buffer w = Some (evs, w') ->
  Forall (fun e => e = Recv \/ response_frame e) evs.
Proof.
  induction incoming as [|r incoming IH]; intros k buffer w evs w' H.
  { injection H as <- <-. repeat constructor. }
  destruct r as [[|a data]| |e]; try (injection H as <- <-; repeat constructor).
  cbn [serve] in H.
  destruct (process_buffer refuse k (buffer +:+ String a data) w)
    as [[[sent res] w1]|] eqn:Ep; [|discriminate].
  destruct (frames_loop_spec _ _ _ _ _ _ _ _ Ep) as (Hs & _).
  assert (Hsent : Forall (fun e => e = Recv \/ response_frame e) sent).
  { eapply Forall_impl; [exact Hs|]. intros e He. now right. }
  destruct res as [b|e].
  - destruct (serve incoming refuse _ b w1) as [[evs1 w2]|] eqn:Es; [|discriminate].
    injection H as <- <-. constructor; [now left|].
    apply Forall_app. split; [exact Hsent|]. exact (IH _ _ _ _ _ Es).
  - injection H as <- <-. constructor; [now left|exact Hsent].
Qed.

(** X3: on every script of what the socket delivers and refuses,
    [handle_client] ends; it reads first, closes the connection exactly
    once, as its last act, and every frame it sends is a response record
    followed by the delimiter. *)
Theorem X3_session_ends_and_closes (conn : connection) (w : world) :
  exists evs w',
    handle_client conn w = Some (Recv :: evs ++ [Close], w')
    /\ ~ In Close evs
    /\ forall frame,
         In (Send frame) evs \/ In (SendFails frame) evs ->
         exists response, frame = response +:+ DELIMITER /\ is_response response.
Proof.
  unfold handle_client.
  destruct (serve_total (incoming conn) (sendall_error conn) 0 "" w) as (evs & w' & E).
  rewrite E. pose proof (serve_spec _ _ _ _ _ _ _ E) as H.
  apply Forall_cons_iff in H as [_ H].
  exists evs, w'. split; [reflexivity|]. split.
  - intros Hc. apply (proj1 (List.Forall_forall _ _) H) in Hc as [Hc|[]]. discriminate Hc.
  - intros frame [Hf|Hf]; apply (proj1 (List.Forall_forall _ _) H) in Hf as [Hf|Hf];
      try discriminate Hf; exact Hf.
Qed.

End SessionWhole.

(** ** Chunks *)

Section Chunking.
Import PyStr Py Os Base64 Json FileProtocol Session Props More.

(** More fuel does not change a result. *)
Lemma frames_loop_more_fuel fuel refuse : forall fuel' k buffer w r,
  frames_loop fuel refuse k buffer w = Some r -> fuel <= fuel' ->
  frames_loop fuel' refuse k buffer w = Some r.
Proof.
  induction fuel as [|fuel IH]; intros fuel' k buffer w r H Hle; [discriminate|].
  destruct fuel' as [|fuel']; [lia|].
  cbn [frames_loop] in *. destruct (str_in DELIMITER buffer); [|exact H].
  destruct (split DELIMITER 1 buffer) as [|c [|b [|x l]]]; try exact H.
  destruct (proses_string c w) as [[hasil|e] w1]; [|exact H].
  destruct (refuse k); [exact H|].
  destruct (frames_loop fuel refuse (S k) b w1) as [[[sent res] w2]|] eqn:E;
    [|discriminate].
  rewrite (IH fuel' _ _ _ _ E); [exact H|lia].
Qed.

Lemma frames_loop_agree fuel fuel' refuse k buffer w r r' :
  frames_loop fuel refuse k buffer w = Some r ->
  frames_loop fuel' refuse k buffer w = Some r' -> r = r'.
Proof.
  intros H H'.
  pose proof (frames_loop_more_fuel _ _ (max fuel fuel') _ _ _ _ H (Nat.le_max_l _ _)) as E.
  pose proof (frames_loop_more_fuel _ _ (max fuel fuel') _ _ _ _ H' (Nat.le_max_r _ _)) as E'.
  congruence.
Qed.

(** The first delimiter of a text is still the first when more text follows. *)
Lemma partition_app sep x b h t :
  partition sep x = Some (h, t) -> partition sep (x +:+ b) = Some (h, t +:+ b).
Proof.
  revert h. induction x as [|a x IH]; intros h H.
  - simpl in H. destruct (startswith sep "") eqn:E; [|discriminate].
    injection H as <- <-. apply startswith_spec in E as [y Hy].
    symmetry in Hy. apply app_eq_empty in Hy as [-> ->].
    rewrite app_empty_l. now destruct b.
  - unfold partition in H; fold partition in H.
    destruct (startswith sep (String a x)) eqn:E.
    + injection H as <- <-. apply startswith_spec in E as [y Hy].
      rewrite Hy, app_assoc', drop_app.
      assert (Hs : startswith sep (sep +:+ y +:+ b) = true) by apply startswith_refl_app.
      destruct (sep +:+ y +:+ b) as [|c z] eqn:Ez.
      * apply app_eq_empty in Ez as [-> Ez]. apply app_eq_empty in Ez as [-> _].
        discriminate Hy.
      * unfold partition; fold partition. now rewrite Hs, <- Ez, drop_app.
    + destruct (partition sep x) as [[h' t']|] eqn:Ep; [|discriminate].
      injection H as <- <-. rewrite app_cons.
      unfold partition; fold partition.
      assert (Hs : startswith sep (String a (x +:+ b)) = false).
      { rewrite <- E, <- app_cons. apply startswith_app_long.
        rewrite (partition_eq _ _ _ _ Ep). simpl. rewrite !app_length'. lia. }
      now rewrite Hs, (IH h' eq_refl).
Qed.

(** Appending text to the buffer: the frames already complete are
    answered as before, and the loop goes on with what they left. *)
Lemma frames_loop_app fuel refuse :
  forall fuel2 k x b w evs1 r1 w1 evs2 res w2,
  frames_loop fuel refuse k x w = Some (evs1, Return r1, w1) ->
  frames_loop fuel2 refuse (k + length (sends evs1)) (r1 +:+ b) w1
  = Some (evs2, res, w2) ->
  frames_loop (fuel + fuel2) refuse k (x +:+ b) w = Some (evs1 ++ evs2, res, w2).
Proof.
  induction fuel as [|fuel IH]; intros fuel2 k x b w evs1 r1 w1 evs2 res w2 H1 H2;
    [discriminate|].
  simpl in H1. destruct (str_in DELIMITER x) eqn:Hin.
  - destruct (partition_some _ _ Hin) as (h & t & Hp & Hx). rewrite Hp in H1.
    destruct (proses_string h w) as [[hasil|e] wa] eqn:E; [|discriminate].
    destruct (refuse k) eqn:Ek; [discriminate|].
    destruct (frames_loop fuel refuse (S k) t wa) as [[[s r] wb]|] eqn:El; [|discriminate].
    injection H1 as Hs Hr Hw. subst evs1 r w1.
    cbn [Nat.add frames_loop].
    rewrite (str_in_app_l _ _ b Hin), (split_once _ _ _ _ (partition_app _ _ b _ _ Hp)), E, Ek.
    replace (k + length (sends (Send (hasil +:+ DELIMITER) :: s)))
      with (S k + length (sends s)) in H2
      by (change (sends (Send (hasil +:+ DELIMITER) :: s))
            with ((hasil +:+ DELIMITER) :: sends s); simpl; lia).
    now rewrite (IH _ _ _ _ _ _ _ _ _ _ _ El H2).
  - injection H1 as Hs Hr Hw. subst evs1 r1 w1.
    change (sends []) with (@nil string) in H2. rewrite Nat.add_0_r in H2.
    apply (frames_loop_more_fuel fuel2); [exact H2|lia].
Qed.

(** A loop that an exception has ended is not changed by later text. *)
Lemma frames_loop_app_raise fuel refuse : forall k x b w evs e w1,
  frames_loop fuel refuse k x w = Some (evs, Raise e, w1) ->
  frames_loop fuel refuse k (x +:+ b) w = Some (evs, Raise e, w1).
Proof.
  induction fuel as [|fuel IH]; intros k x b w evs e w1 H; [discriminate|].
  simpl in H. destruct (str_in DELIMITER x) eqn:Hin; [|discriminate].
  destruct (partition_some _ _ Hin) as (h & t & Hp & Hx). rewrite Hp in H.
  cbn [frames_loop].
  rewrite (str_in_app_l _ _ b Hin), (split_once _ _ _ _ (partition_app _ _ b _ _ Hp)).
  destruct (proses_string h w) as [[hasil|e'] wa] eqn:E; [|exact H].
  destruct (refuse k) eqn:Ek; [exact H|].
  destruct (frames_loop fuel refuse (S k) t wa) as [[[s r] wb]|] eqn:El; [|discriminate].
  injection H as Hs Hr Hw. subst evs r w1.
  now rewrite (IH _ _ _ _ _ _ _ El).
Qed.

Lemma process_buffer_app refuse k x b w evs1 r1 w1 evs2 res w2 :
  process_buffer refuse k x w = Some (evs1, Return r1, w1) ->
  process_buffer refuse (k + length (sends evs1)) (r1 +:+ b) w1 = Some (evs2, res, w2) ->
  process_buffer refuse k (x +:+ b) w = Some (evs1 ++ evs2, res, w2).
Proof.
  intros H1 H2. pose proof (frames_loop_app _ _ _ _ _ _ _ _ _ _ _ _ _ H1 H2) as H.
  destruct (process_buffer_total refuse k (x +:+ b) w) as [r E]. rewrite E. f_equal.
  exact (frames_loop_agree _ _ _ _ _ _ _ _ E H).
Qed.

Lemma process_buffer_app_raise refuse k x b w evs e w1 :
  process_buffer refuse k x w = Some (evs, Raise e, w1) ->
  process_buffer refuse k (x +:+ b) w = Some (evs, Raise e, w1).
Proof.
  intros H1. pose proof (frames_loop_app_raise _ _ _ _ b _ _ _ _ H1) as H.
  destruct (process_buffer_total refuse k (x +:+ b) w) as [r E]. rewrite E. f_equal.
  exact (frames_loop_agree _ _ _ _ _ _ _ _ E H).
Qed.

(** X5: the answers of a session do not depend on how the received text
    was cut into chunks: two chunks whose texts are [a] and [b], received
    one after the other, are answered with the same frames, in the same
    order, and leave the same world, as one chunk whose text is [a]
    followed by [b]; a send that the peer refuses ends both sessions at
    the same frame.  (Chunks are compared as texts: a chunk that
    [decode] rejects ends the session.) *)
Theorem X5_chunking_is_invisible (a b buffer : string) (more : list recv_result)
    (refuse : nat -> option string) (k : nat) (w : world) :
  a <> "" -> b <> "" ->
  exists evs evs' w',
    serve (Data a :: Data b :: more) refuse k buffer w = Some (evs, w')
    /\ serve (Data (a +:+ b) :: more) refuse k buffer w = Some (evs', w')
    /\ sends evs = sends evs'
    /\ writes evs = writes evs'.
Proof.
  intros Ha Hb.
  destruct a as [|ca a]; [contradiction|]. destruct b as [|cb b]; [contradiction|].
  change (String ca a +:+ String cb b) with (String ca (a +:+ String cb b)).
  cbn [serve].
  change (String ca (a +:+ String cb b)) with (String ca a +:+ String cb b).
  rewrite <- app_assoc'.
  destruct (process_buffer_total refuse k (buffer +:+ String ca a) w) as [[[s1 r1] w1] E1].
  rewrite E1. destruct r1 as [b1|e1].
  - destruct (process_buffer_total refuse (k + length (sends s1)) (b1 +:+ String cb b) w1)
      as [[[s2 r2] w2] E2].
    rewrite E2, (process_buffer_app _ _ _ _ _ _ _ _ _ _ _ E1 E2).
    destruct r2 as [b2|e2].
    + rewrite sends_app, length_app, Nat.add_assoc.
      destruct (serve_total more refuse (k + length (sends s1) + length (sends s2)) b2 w2)
        as (evs2 & w3 & ->).
      eexists _, _, w3. split; [reflexivity|]. split; [reflexivity|].
      change (Recv :: s1 ++ Recv :: s2 ++ Recv :: evs2)
        with ([Recv] ++ s1 ++ [Recv] ++ s2 ++ Recv :: evs2).
      change (Recv :: (s1 ++ s2) ++ Recv :: evs2)
        with ([Recv] ++ (s1 ++ s2) ++ Recv :: evs2).
      unfold writes. rewrite !sends_app, !List.filter_app.
      change (sends [Recv]) with (@nil string). simpl.
      split; now rewrite (assoc_L (++)).
    + eexists _, _, w2. split; [reflexivity|]. split; [reflexivity|].
      change (Recv :: s1 ++ Recv :: s2) with ([Recv] ++ s1 ++ [Recv] ++ s2).
      change (Recv :: s1 ++ s2) with ([Recv] ++ s1 ++ s2).
      unfold writes. rewrite !sends_app, !List.filter_app.
      change (sends [Recv]) with (@nil string). simpl.
      split; now rewrite ?app_nil_r.
  - rewrite (process_buffer_app_raise _ _ _ _ _ _ _ _ E1).
    eexists _, _, w1. repeat split; reflexivity.
Qed.

End Chunking.

(** ** What each command does to the storage *)

Section Effects.
Import PyStr Py Os Base64 Json FileProtocol Session Props More.

Lemma parts_verb_name v f :
  no_whitespace v = true -> v <> "" ->
  str_in " " f = false -> rstrip f = f -> f <> "" ->
  command_parts (v +:+ " " +:+ f) = [v; f].
Proof.
  intros Hv Hne Hs Hr Hf. rewrite <- (arguments_token f Hs Hr Hf).
  now apply command_parts_verb.
Qed.

Lemma parts_verb_name_payload v f p :
  no_whitespace v = true -> v <> "" ->
  str_in " " f = false -> rstrip p = p -> p <> "" ->
  command_parts (v +:+ " " +:+ f +:+ " " +:+ p) = [v; f; p].
Proof.
  intros Hv Hne Hs Hr Hp. rewrite <- (arguments_two f p Hs Hr Hp).
  now apply command_parts_verb.
Qed.

Lemma plain_name_locate w f : plain_name w f -> locate w (path_join (storage_path w) f) = Entry f.
Proof. intros (Hv & _ & _ & Hd & _). now apply locate_valid. Qed.

(** The handler alone: what a successful UPLOAD leaves behind. *)
Lemma handle_upload_stores v f p data rest w :
  plain_name w f -> quiet w -> entries w !! f <> Some SubDir ->
  b64decode p = Some data ->
  exists w1,
    _handle_upload (v :: f :: p :: rest) w = (Return (upload_ok f (length data)), w1)
    /\ entries w1 = <[f := RegFile data]> (entries w)
    /\ storage_path w1 = storage_path w /\ os_error w1 = os_error w.
Proof.
  intros Hp Hq Hdir Hdec. pose proof (plain_name_locate w f Hp) as Hloc.
  destruct Hp as (Hv & _ & _ & _ & Hnul).
  set (path := path_join (storage_path w) f) in *.
  set (wa := set_entries (logged w OpenWb path) (<[f := RegFile []]> (entries w))).
  set (wb := set_entries (logged wa FWrite path)
               (<[f := RegFile ([] ++ data)]> (entries wa))).
  assert (Hopen : open_wb path w = (Return (File path), wa))
    by (apply open_wb_ok; auto).
  assert (Hwrite : f_write (File path) data wa = (Return tt, wb)).
  { apply f_write_ok; [apply (Hq FWrite)|exact Hnul| |apply lookup_insert_eq].
    now rewrite (locate_same w wa path eq_refl). }
  exists wb. split; [|split; [|split; reflexivity]].
  - rewrite (handle_upload_valid _ _ _ _ _ _ Hv Hdec). cbv zeta. fold path.
    now rewrite Hopen, Hwrite.
  - subst wb wa. simpl. apply insert_insert_eq.
Qed.

(** The handler on any validated name that is not a directory. *)
Lemma upload_stores v f p data rest w :
  _is_valid_filename f = true -> f <> "." ->
  str_in NUL (path_join (storage_path w) f) = false ->
  quiet w -> entries w !! f <> Some SubDir ->
  b64decode p = Some data ->
  exists w1,
    _handle_upload (v :: f :: p :: rest) w = (Return (upload_ok f (length data)), w1)
    /\ entries w1 = <[f := RegFile data]> (entries w).
Proof.
  intros Hv Hdot Hnul Hq Hdir Hdec. pose proof (locate_valid w f Hv Hdot) as Hloc.
  set (path := path_join (storage_path w) f) in *.
  set (wa := set_entries (logged w OpenWb path) (<[f := RegFile []]> (entries w))).
  set (wb := set_entries (logged wa FWrite path)
               (<[f := RegFile ([] ++ data)]> (entries wa))).
  assert (Hopen : open_wb path w = (Return (File path), wa))
    by (apply open_wb_ok; auto).
  assert (Hwrite : f_write (File path) data wa = (Return tt, wb)).
  { apply f_write_ok; [apply (Hq FWrite)|exact Hnul| |apply lookup_insert_eq].
    now rewrite (locate_same w wa path eq_refl). }
  exists wb. split.
  - rewrite (handle_upload_valid _ _ _ _ _ _ Hv Hdec). cbv zeta. fold path.
    now rewrite Hopen, Hwrite.
  - subst wb wa. simpl. apply insert_insert_eq.
Qed.

(** X6: UPLOAD stores the bytes that its payload decodes to.  For a frame
    of three parts whose verb is UPLOAD in any case, whose filename is
    valid and names no directory, and whose payload [b64decode] accepts,
    on a platform that refuses nothing, the answer is OK with
    [file_size] the number of decoded bytes, and the entry holds exactly
    these bytes, whatever it held before.  The payload need not be
    canonical base64: text behind complete padding, or characters outside
    the alphabet, are accepted as the decoder accepts them. *)
Theorem X6_upload_stores_decoded_payload (command_string v filename payload : string)
    (data : list byte) (w : world) :
  command_parts command_string = [v; filename; payload] ->
  upper v = "UPLOAD" ->
  _is_valid_filename filename = true -> filename <> "." ->
  str_in NUL (path_join (storage_path w) filename) = false ->
  quiet w ->
  entries w !! filename <> Some SubDir ->
  b64decode payload = Some data ->
  exists w1,
    proses_string command_string w = (Return (upload_ok filename (length data)), w1)
    /\ entries w1 = <[filename := RegFile data]> (entries w).
Proof.
  intros Hparts Hverb Hv Hdot Hnul Hq Hdir Hdec.
  rewrite (proses_string_dispatch _ _ _ _ Hparts), (dispatch_upload _ _ _ Hverb).
  now apply upload_stores.
Qed.

(** X7: GET returns what is stored.  For a regular file with content
    [c] under a plain name, the answer is OK, [file_size] is [len(c)] and
    [data_file] is the base64 text of [c], which decodes to [c]; the
    storage is left as it was. *)
Theorem X7_get_returns_stored_content (filename : string) (content : list byte)
    (w : world) :
  plain_name w filename -> quiet w ->
  entries w !! filename = Some (RegFile content) ->
  exists w',
    proses_string ("GET " +:+ filename) w
    = (Return (get_ok filename (b64encode content) (length content)), w')
    /\ entries w' = entries w
    /\ b64decode (b64encode content) = Some content.
Proof.
  intros Hp Hq Hc. pose proof (plain_name_locate w filename Hp) as Hloc.
  destruct Hp as (Hv & Hs & Hr & _ & Hnul).
  set (path := path_join (storage_path w) filename) in *.
  assert (Hparts : command_parts ("GET " +:+ filename) = ["GET"; filename])
    by (apply (parts_verb_name "GET"); auto using valid_not_empty).
  exists (logged (logged (logged w Exists path) OpenRb path) FRead path).
  split; [|split; [reflexivity|apply b64decode_b64encode]].
  rewrite (proses_string_dispatch _ _ _ _ Hparts),
    (dispatch_get _ _ _ (eq_refl : upper "GET" = "GET")).
  rewrite (handle_get_valid _ _ _ _ Hv). cbv zeta. fold path.
  rewrite (os_path_exists_ok w filename path (RegFile content));
    [|apply (Hq Exists)|exact Hnul|exact Hloc|exact Hc].
  cbn [negb]. cbv iota.
  rewrite (open_rb_ok (logged w Exists path) filename path content);
    [|apply (Hq OpenRb)|exact Hnul|exact Hloc|exact Hc].
  rewrite (f_read_ok (logged (logged w Exists path) OpenRb path) filename path content);
    [|apply (Hq FRead)|exact Hnul|exact Hloc|exact Hc].
  reflexivity.
Qed.

Lemma os_path_exists_false w f path :
  locate w path = Entry f ->
  entries w !! f = None \/ os_error w Exists path <> None ->
  os_path_exists path w = (Return false, logged w Exists path).
Proof.
  intros Hl H. unfold os_path_exists. rewrite probe_eq.
  destruct (os_error w Exists path) eqn:E; [reflexivity|].
  destruct (str_in NUL path); [reflexivity|].
  rewrite (locate_same w (logged w Exists path) path eq_refl), Hl.
  change (entries (logged w Exists path)) with (entries w).
  destruct H as [->|H]; [reflexivity|contradiction].
Qed.

(** X8: GET and DELETE answer ERROR "File not found" and change nothing
    when the existence test fails: the name has no entry, or the platform
    refuses the test (the test answers false on any error, so a stored
    file is then reported as missing). *)
Theorem X8_missing_file_is_reported (filename : string) (w : world) :
  plain_name w filename ->
  entries w !! filename = None
  \/ os_error w Exists (path_join (storage_path w) filename) <> None ->
  exists w1 w2,
    proses_string ("GET " +:+ filename) w
    = (Return (error_response ("File not found: " +:+ filename)), w1)
    /\ entries w1 = entries w
    /\ proses_string ("DELETE " +:+ filename) w
       = (Return (error_response ("File not found: " +:+ filename)), w2)
    /\ entries w2 = entries w.
Proof.
  intros Hp H. pose proof (plain_name_locate w filename Hp) as Hloc.
  destruct Hp as (Hv & Hs & Hr & _ & _).
  set (path := path_join (storage_path w) filename) in *.
  pose proof (os_path_exists_false w filename path Hloc H) as He.
  assert (Hg : command_parts ("GET " +:+ filename) = ["GET"; filename])
    by (apply (parts_verb_name "GET"); auto using valid_not_empty).
  assert (Hd : command_parts ("DELETE " +:+ filename) = ["DELETE"; filename])
    by (apply (parts_verb_name "DELETE"); auto using valid_not_empty).
  exists (logged w Exists path), (logged w Exists path).
  split; [|split; [reflexivity|split; [|reflexivity]]].
  - rewrite (proses_string_dispatch _ _ _ _ Hg),
      (dispatch_get _ _ _ (eq_refl : upper "GET" = "GET")).
    rewrite (handle_get_valid _ _ _ _ Hv). cbv zeta. fold path. now rewrite He.
  - rewrite (proses_string_dispatch _ _ _ _ Hd),
      (dispatch_delete _ _ _ (eq_refl : upper "DELETE" = "DELETE")).
    rewrite (handle_delete_valid _ _ _ _ Hv). cbv zeta. fold path. now rewrite He.
Qed.

Lemma os_remove_ok w f path c :
  os_error w Remove path = None -> str_in NUL path = false ->
  locate w path = Entry f -> entries w !! f = Some (RegFile c) ->
  os_remove path w
  = (Return tt, set_entries (logged w Remove path) (delete f (entries w))).
Proof.
  intros He Hn Hl Hc. unfold os_remove. rewrite guarded_eq, He, Hn.
  rewrite (locate_same w (logged w Remove path) path eq_refl), Hl.
  change (entries (logged w Remove path)) with (entries w). now rewrite Hc.
Qed.

(** X9: DELETE of a stored regular file answers OK and removes exactly
    that entry: afterwards the name has no entry and every other entry is
    as before. *)
Theorem X9_delete_removes_the_entry (filename : string) (content : list byte)
    (w : world) :
  plain_name w filename -> quiet w ->
  entries w !! filename = Some (RegFile content) ->
  exists w',
    proses_string ("DELETE " +:+ filename) w = (Return (delete_ok filename), w')
    /\ entries w' = delete filename (entries w).
Proof.
  intros Hp Hq Hc. pose proof (plain_name_locate w filename Hp) as Hloc.
  destruct Hp as (Hv & Hs & Hr & _ & Hnul).
  set (path := path_join (storage_path w) filename) in *.
  assert (Hd : command_parts ("DELETE " +:+ filename) = ["DELETE"; filename])
    by (apply (parts_verb_name "DELETE"); auto using valid_not_empty).
  eexists. split.
  - rewrite (proses_string_dispatch _ _ _ _ Hd),
      (dispatch_delete _ _ _ (eq_refl : upper "DELETE" = "DELETE")).
    rewrite (handle_delete_valid _ _ _ _ Hv). cbv zeta. fold path.
    rewrite (os_path_exists_ok w filename path (RegFile content));
      [|apply (Hq Exists)|exact Hnul|exact Hloc|exact Hc].
    cbn [negb]. cbv iota.
    rewrite (os_remove_ok (logged w Exists path) filename path content);
      [|apply (Hq Remove)|exact Hnul|exact Hloc|exact Hc].
    reflexivity.
  - reflexivity.
Qed.

End Effects.

(** ** LIST *)

Section Listing.
Import PyStr Py Os Base64 Json FileProtocol Session Props More.

Lemma strip_prefix_shorter r x :
  strip_prefix (r +:+ x) r = match x with EmptyString => Some "" | String _ _ => None end.
Proof.
  induction r as [|a r IH]; [now destruct x|].
  rewrite app_cons. simpl. now rewrite Ascii.eqb_refl.
Qed.

Lemma locate_root w : locate w (storage_path w) = Root.
Proof.
  unfold locate, path_join. change (startswith "/" "") with false. cbv iota.
  destruct (String.eqb (storage_path w) "" || endswith_sep (storage_path w)).
  - now rewrite strip_prefix_shorter.
  - rewrite strip_prefix_shorter. change ("/" +:+ "") with (String "/" "").
    cbv iota. now rewrite String.eqb_refl.
Qed.

Lemma os_listdir_ok w :
  os_error w Listdir (storage_path w) = None -> str_in NUL (storage_path w) = false ->
  os_listdir (storage_path w) w
  = (Return (fst <$> map_to_list (entries w)), logged w Listdir (storage_path w)).
Proof.
  intros He Hn. unfold os_listdir. rewrite guarded_eq, He, Hn.
  now rewrite (locate_same w (logged w Listdir (storage_path w)) _ eq_refl), locate_root.
Qed.

Lemma os_path_isfile_ok w n path x :
  os_error w IsFile path = None -> str_in NUL path = false ->
  locate w path = Entry n -> entries w !! n = Some x ->
  os_path_isfile path w
  = (Return (match x with RegFile _ => true | SubDir => false end), logged w IsFile path).
Proof.
  intros He Hn Hl Hx. unfold os_path_isfile. rewrite probe_eq, He, Hn.
  rewrite (locate_same w (logged w IsFile path) path eq_refl), Hl.
  change (entries (logged w IsFile path)) with (entries w). rewrite Hx.
  now destruct x.
Qed.

Lemma os_path_getsize_ok w n path c :
  os_error w GetSize path = None -> str_in NUL path = false ->
  locate w path = Entry n -> entries w !! n = Some (RegFile c) ->
  os_path_getsize path w = (Return (length c), logged w GetSize path).
Proof.
  intros He Hn Hl Hx. unfold os_path_getsize. rewrite guarded_eq, He, Hn.
  rewrite (locate_same w (logged w GetSize path) path eq_refl), Hl.
  change (entries (logged w GetSize path)) with (entries w). now rewrite Hx.
Qed.

Lemma legal_entry_locate w n :
  legal_entry n = true -> locate w (path_join (storage_path w) n) = Entry n.
Proof.
  intros H. unfold legal_entry in H.
  repeat (apply andb_true_iff in H as [H ?]).
  repeat match goal with X : negb _ = true |- _ => apply negb_true_iff in X end.
  apply locate_name; auto; now apply String.eqb_neq.
Qed.

(** The loop of LIST over the enumerated entries. *)
Lemma list_loop_listing l : forall files w,
  quiet w ->
  Forall (fun kv => entries w !! fst kv = Some (snd kv)
                    /\ legal_entry (fst kv) = true
                    /\ str_in NUL (path_join (storage_path w) (fst kv)) = false) l ->
  exists w',
    list_loop (storage_path w) (fst <$> l) files w = (Return (files ++ listing l), w')
    /\ entries w' = entries w /\ storage_path w' = storage_path w
    /\ os_error w' = os_error w.
Proof.
  induction l as [|[n x] l IH]; intros files w Hq Hl.
  { exists w. simpl. unfold ret. now rewrite app_nil_r. }
  apply Forall_cons_iff in Hl as [(Hx & Hn & Hnul) Hl]. simpl in Hx, Hn, Hnul.
  pose proof (legal_entry_locate w n Hn) as Hloc.
  set (path := path_join (storage_path w) n) in *.
  cbn [fmap list_fmap fst list_loop]. fold path. unfold bind at 1.
  rewrite (os_path_isfile_ok w n path x (Hq IsFile path) Hnul Hloc Hx).
  destruct x as [c|].
  - unfold bind at 1.
    rewrite (os_path_getsize_ok (logged w IsFile path) n path c
               (Hq GetSize path) Hnul Hloc Hx).
    destruct (IH (files ++ [Obj [("filename", Str n); ("size", Int (length c))]])
                (logged (logged w IsFile path) GetSize path)) as (w' & E & He & Hs & Ho);
      [exact Hq|exact Hl|].
    exists w'. change (storage_path (logged (logged w IsFile path) GetSize path))
      with (storage_path w) in E.
    rewrite E. repeat split; auto.
    unfold listing. cbn [omap list_omap fst snd]. fold (listing l).
    unfold file_info. now rewrite <- app_assoc.
  - destruct (IH files (logged w IsFile path)) as (w' & E & He & Hs & Ho);
      [exact Hq|exact Hl|].
    exists w'. change (storage_path (logged w IsFile path)) with (storage_path w) in E.
    rewrite E. repeat split; auto.
Qed.

Lemma file_info_listed E n k :
  file_info n k ∈ listing (map_to_list E)
  <-> exists c, E !! n = Some (RegFile c) /\ k = length c.
Proof.
  unfold listing. rewrite list_elem_of_omap. split.
  - intros ([n' x] & Hin & H). apply elem_of_map_to_list in Hin. simpl in H.
    destruct x as [c|]; [|discriminate]. injection H as Hn Hk. subst n'.
    exists c. now split.
  - intros (c & Hc & ->). exists (n, RegFile c). split; [|reflexivity].
    now apply elem_of_map_to_list.
Qed.

Lemma listing_length l :
  length (listing l) <= length l
  /\ (Forall (fun kv => exists c, snd kv = RegFile c) l -> length (listing l) = length l).
Proof.
  induction l as [|[n x] l [IH1 IH2]]; [now split|].
  unfold listing in *. cbn [omap list_omap fst snd]. destruct x as [c|]; simpl; split.
  - lia.
  - intros H. apply Forall_cons_iff in H as [_ H]. now rewrite IH2.
  - lia.
  - intros H. apply Forall_cons_iff in H as [[c Hc] _]. discriminate Hc.
Qed.

Lemma list_run (command_string verb : string) (arguments : list string) (w : world) :
  command_parts command_string = verb :: arguments ->
  upper verb = "LIST" ->
  quiet w -> wf w ->
  str_in NUL (storage_path w) = false ->
  (forall n x, entries w !! n = Some x ->
               str_in NUL (path_join (storage_path w) n) = false) ->
  exists w',
    proses_string command_string w
    = (Return (list_ok (listing (map_to_list (entries w)))), w')
    /\ entries w' = entries w.
Proof.
  intros Hparts Hverb Hq Hw Hroot Hnul.
  rewrite (proses_string_dispatch _ _ _ _ Hparts), (dispatch_list _ _ _ Hverb).
  destruct (list_loop_listing (map_to_list (entries w)) []
              (logged w Listdir (storage_path w))) as (w' & E & He & _ & _).
  { exact Hq. }
  { apply Forall_forall. intros [n x] Hin. apply elem_of_map_to_list in Hin.
    simpl. repeat split; [exact Hin|exact (Hw _ _ Hin)|exact (Hnul _ _ Hin)]. }
  exists w'. split; [|exact He].
  unfold _handle_list, try_except, bind at 1, self_storage_path.
  unfold bind at 1. rewrite (os_listdir_ok w (Hq Listdir _) Hroot).
  unfold bind at 1.
  change (storage_path (logged w Listdir (storage_path w))) with (storage_path w) in E.
  rewrite E. reflexivity.
Qed.

(** The records of a listing are those of the regular files. *)
Lemma listed E v :
  v ∈ listing (map_to_list E)
  <-> exists n c, E !! n = Some (RegFile c) /\ v = file_info n (length c).
Proof.
  unfold listing. rewrite list_elem_of_omap. split.
  - intros ([n x] & Hin & H). apply elem_of_map_to_list in Hin. simpl in H.
    destruct x as [c|]; [|discriminate]. injection H as <-.
    exists n, c. now split.
  - intros (n & c & Hc & ->). exists (n, RegFile c). split; [|reflexivity].
    now apply elem_of_map_to_list.
Qed.

(** No record is listed twice. *)
Lemma listing_NoDup l : NoDup (fst <$> l) -> NoDup (listing l).
Proof.
  induction l as [|[n x] l IH]; intros H; [constructor|].
  cbn [fmap list_fmap fst] in H. apply NoDup_cons in H as [Hn H].
  unfold listing. cbn [omap list_omap fst snd]. fold (listing l).
  destruct x as [c|]; [|now apply IH].
  apply NoDup_cons. split; [|now apply IH].
  intros Hin. unfold listing in Hin. apply list_elem_of_omap in Hin as ([n' x'] & Hin & E).
  simpl in E. destruct x' as [c'|]; [|discriminate]. injection E as <- _.
  apply Hn. apply list_elem_of_fmap. now exists (n', RegFile c').
Qed.

Lemma list_reports (command_string verb : string)
    (arguments : list string) (w : world) :
  command_parts command_string = verb :: arguments ->
  upper verb = "LIST" ->
  quiet w -> wf w ->
  str_in NUL (storage_path w) = false ->
  (forall n x, entries w !! n = Some x ->
               str_in NUL (path_join (storage_path w) n) = false) ->
  exists files w',
    proses_string command_string w = (Return (list_ok files), w')
    /\ entries w' = entries w
    /\ (forall v, v ∈ files
                  <-> exists n c, entries w !! n = Some (RegFile c)
                                  /\ v = file_info n (length c))
    /\ NoDup files
    /\ length files <= size (entries w)
    /\ (map_Forall (fun _ x => exists c, x = RegFile c) (entries w) ->
        length files = size (entries w)).
Proof.
  intros Hparts Hverb Hq Hw Hroot Hnul.
  destruct (list_run _ _ _ _ Hparts Hverb Hq Hw Hroot Hnul) as (w' & E & He).
  exists (listing (map_to_list (entries w))), w'.
  split; [exact E|]. split; [exact He|]. split; [intros v; apply listed|].
  split; [apply listing_NoDup, NoDup_fst_map_to_list|].
  rewrite <- length_map_to_list. split; [apply listing_length|].
  intros Hall. apply listing_length. apply Forall_forall. intros [n x] Hin.
  apply elem_of_map_to_list in Hin. exact (Hall _ _ Hin).
Qed.

(** X10: LIST reports exactly the regular files of the storage
    directory.  On a platform that refuses nothing, the answer is OK and
    its [files] are, without repetition, exactly the records of the
    regular files, each with the file's name and the length of its
    content: nothing is listed for a directory, and nothing else is
    listed at all; [count] is the number of these records, which is the
    number of entries when all of them are regular files; the storage is
    left as it was. *)
Theorem X10_list_reports_regular_files (command_string verb : string)
    (arguments : list string) (w : world) :
  command_parts command_string = verb :: arguments ->
  upper verb = "LIST" ->
  quiet w -> wf w ->
  str_in NUL (storage_path w) = false ->
  (forall n x, entries w !! n = Some x ->
               str_in NUL (path_join (storage_path w) n) = false) ->
  exists files w',
    proses_string command_string w
    = (Return (dumps (Obj [("status", Str "OK");
                           ("data", Str "File list retrieved successfully");
                           ("files", Arr files);
                           ("count", Int (length files))])),
       w')
    /\ entries w' = entries w
    /\ (forall v, v ∈ files
                  <-> exists n c, entries w !! n = Some (RegFile c)
                                  /\ v = Obj [("filename", Str n);
                                              ("size", Int (length c))])
    /\ NoDup files
    /\ length files <= size (entries w)
    /\ (map_Forall (fun _ x => exists c, x = RegFile c) (entries w) ->
        length files = size (entries w)).
Proof. apply list_reports. Qed.

End Listing.

(** ** What a command can change *)

Section Locality.
Import PyStr Py Os Base64 Json FileProtocol Session Props More.

Lemma only_touches_refl f w : only_touches f w w.
Proof. now split. Qed.

Lemma only_touches_trans f w1 w2 w3 :
  only_touches f w1 w2 -> only_touches f w2 w3 -> only_touches f w1 w3.
Proof.
  intros [Hs1 He1] [Hs2 He2]. split; [congruence|].
  intros g Hg. now rewrite He2, He1.
Qed.

Lemma local_ret {A} root f (a : A) (Q : A -> Prop) : Q a -> local root f (ret a) Q.
Proof. intros H w Hr. simpl. split; [exact H|apply only_touches_refl]. Qed.

Lemma local_raise {A} root f e (Q : A -> Prop) : local root f (raise e) Q.
Proof. intros w Hr. simpl. split; [exact I|apply only_touches_refl]. Qed.

Lemma local_bind {A B} root f (m : M world A) (k : A -> M world B) Q R :
  local root f m Q -> (forall a, Q a -> local root f (k a) R) ->
  local root f (bind m k) R.
Proof.
  intros Hm Hk w Hr. unfold bind. specialize (Hm w Hr).
  destruct (m w) as [[a|e] w1]; destruct Hm as [Hq Ht]; [|now split].
  assert (Hr1 : storage_path w1 = root) by (destruct Ht as [-> _]; exact Hr).
  specialize (Hk a Hq w1 Hr1). destruct (k a w1) as [r w2]. destruct Hk as [Hq2 Ht2].
  split; [exact Hq2|]. eapply only_touches_trans; eassumption.
Qed.

Lemma local_try {A} root f (body : M world A) handler Q :
  local root f body Q -> (forall e, local root f (handler e) Q) ->
  local root f (try_except body handler) Q.
Proof.
  intros Hb Hh w Hr. unfold try_except. specialize (Hb w Hr).
  destruct (body w) as [[a|e] w1]; destruct Hb as [Hq Ht]; [now split|].
  assert (Hr1 : storage_path w1 = root) by (destruct Ht as [-> _]; exact Hr).
  specialize (Hh e w1 Hr1). destruct (handler e w1) as [r w2]. destruct Hh as [Hq2 Ht2].
  split; [exact Hq2|]. eapply only_touches_trans; eassumption.
Qed.

Lemma local_index {A} root f (l : list A) i :
  local root f (index l i) (fun a => nth_error l i = Some a).
Proof. unfold index. destruct (nth_error l i); [now apply local_ret|apply local_raise]. Qed.

Lemma local_self_storage_path root f : local root f self_storage_path (fun s => s = root).
Proof. intros w Hr. simpl. split; [exact Hr|apply only_touches_refl]. Qed.

Lemma local_probe root f c path test : local root f (probe c path test) (fun _ => True).
Proof. intros w Hr. rewrite probe_eq. split; [exact I|now split]. Qed.

Lemma local_guarded {A} root f c path (body : M world A) (Q : A -> Prop) :
  (forall w, storage_path w = root ->
     match body w with
     | (r, w') => match r with Return a => Q a | Raise _ => True end /\ only_touches f w w'
     end) ->
  local root f (guarded c path body) Q.
Proof.
  intros Hb w Hr. rewrite guarded_eq.
  destruct (os_error w c path); [split; [exact I|now split]|].
  destruct (str_in NUL path); [split; [exact I|now split]|].
  specialize (Hb (logged w c path) Hr). destruct (body (logged w c path)) as [r w1].
  destruct Hb as [Hq Ht]. split; [exact Hq|].
  eapply only_touches_trans; [|exact Ht]. now split.
Qed.

(** The entry that the path of a filename without slash denotes, if any,
    is the filename. *)
Lemma locate_join_entry w f n :
  str_in "/" f = false -> locate w (path_join (storage_path w) f) = Entry n -> n = f.
Proof.
  intros Hs. unfold locate. rewrite (path_join_name _ _ Hs), strip_prefix_app.
  destruct (String.eqb f "" || String.eqb f "."); [discriminate|].
  destruct (String.eqb f ".." || str_in "/" f); [discriminate|]. now intros [= ->].
Qed.

Ltac local_body Hs :=
  intros w Hr; subst;
  repeat match goal with
         | |- context [locate ?w ?p] =>
             let E := fresh "E" in
             destruct (locate w p) eqn:E;
             [|apply (locate_join_entry _ _ _ Hs) in E; subst|]
         | |- context [entries ?w !! ?n] => destruct (entries w !! n) as [[?|]|]
         end;
  simpl; (split; [auto|]); (split; [reflexivity|]);
  intros g Hg; simpl;
  rewrite ?lookup_insert_ne, ?lookup_delete_ne by congruence; reflexivity.

Lemma local_open_wb root f :
  str_in "/" f = false ->
  local root f (open_wb (path_join root f)) (fun x => x = File (path_join root f)).
Proof. intros Hs. apply local_guarded. local_body Hs. Qed.

Lemma local_f_write root f data :
  str_in "/" f = false ->
  local root f (f_write (File (path_join root f)) data) (fun _ => True).
Proof. intros Hs. apply local_guarded. local_body Hs. Qed.

Lemma local_os_remove root f :
  str_in "/" f = false ->
  local root f (os_remove (path_join root f)) (fun _ => True).
Proof. intros Hs. apply local_guarded. local_body Hs. Qed.

Lemma local_handle_upload root v f rest :
  local root f (_handle_upload (v :: f :: rest)) (fun _ => True).
Proof.
  unfold _handle_upload. destruct (length (v :: f :: rest) <? 3)%nat; [now apply local_ret|].
  apply local_try; [|intros e; now apply local_ret].
  eapply local_bind; [apply local_index|]. intros filename [= <-].
  eapply local_bind; [apply local_index|]. intros content _.
  destruct (_is_valid_filename f) eqn:Hv; [|now apply local_ret].
  cbn [negb]. cbv iota. pose proof (valid_no_slash _ Hv) as Hs.
  destruct (b64decode content); [|now apply local_ret].
  eapply local_bind; [apply local_self_storage_path|]. intros storage ->.
  eapply local_bind; [now apply local_open_wb|]. intros x ->.
  eapply local_bind; [now apply local_f_write|]. intros _ _.
  now apply local_ret.
Qed.

Lemma local_handle_delete root v f rest :
  local root f (_handle_delete (v :: f :: rest)) (fun _ => True).
Proof.
  unfold _handle_delete. destruct (length (v :: f :: rest) <? 2)%nat; [now apply local_ret|].
  apply local_try; [|intros e; now apply local_ret].
  eapply local_bind; [apply local_index|]. intros filename [= <-].
  destruct (_is_valid_filename f) eqn:Hv; [|now apply local_ret].
  cbn [negb]. cbv iota. pose proof (valid_no_slash _ Hv) as Hs.
  eapply local_bind; [apply local_self_storage_path|]. intros storage ->.
  eapply local_bind; [apply local_probe|]. intros present _.
  destruct (negb present); [now apply local_ret|].
  eapply local_bind; [now apply local_os_remove|]. intros _ _.
  now apply local_ret.
Qed.

Lemma ke_index {A} (l : list A) i : keeps_entries (index (W := world) l i).
Proof. unfold index. now destruct (nth_error l i); intros w. Qed.

Lemma ke_open_rb path : keeps_entries (open_rb path).
Proof.
  intros w. unfold open_rb. rewrite guarded_eq.
  destruct (os_error w OpenRb path); [reflexivity|].
  destruct (str_in NUL path); [reflexivity|].
  destruct (locate _ path); [reflexivity| |reflexivity].
  now destruct (entries _ !! name) as [[?|]|].
Qed.

Lemma ke_f_read f : keeps_entries (f_read f).
Proof.
  destruct f as [path]. intros w. unfold f_read. rewrite guarded_eq.
  destruct (os_error w FRead path); [reflexivity|].
  destruct (str_in NUL path); [reflexivity|].
  destruct (locate _ path); [reflexivity| |reflexivity].
  now destruct (entries _ !! name) as [[?|]|].
Qed.

Lemma ke_handle_get parts : keeps_entries (_handle_get parts).
Proof.
  unfold _handle_get. destruct (length parts <? 2)%nat; [apply ke_ret|].
  apply ke_try; [|intros e; apply ke_ret].
  apply ke_bind; [apply ke_index|]. intros filename.
  destruct (negb _); [apply ke_ret|].
  apply ke_bind; [now intros w|]. intros storage.
  apply ke_bind; [apply ke_probe|]. intros present.
  destruct (negb present); [apply ke_ret|].
  apply ke_bind; [apply ke_open_rb|]. intros f.
  apply ke_bind; [apply ke_f_read|]. intros content. apply ke_ret.
Qed.

Lemma ke_short_upload v rest :
  length rest < 2 -> keeps_entries (_handle_upload (v :: rest)).
Proof.
  intros H. unfold _handle_upload.
  destruct rest as [|a [|b rest]]; [apply ke_ret|apply ke_ret|simpl in H; lia].
Qed.

Lemma ke_short_delete v : keeps_entries (_handle_delete [v]).
Proof. apply ke_ret. Qed.

(** X11: a command changes at most the entry that its filename argument
    names, and only UPLOAD and DELETE change anything: GET, LIST and
    every unknown verb leave all entries as they were. *)
Theorem X11_commands_are_local :
  (forall command_string w g,
     nth_error (command_parts command_string) 1 <> Some g ->
     entries (snd (proses_string command_string w)) !! g = entries w !! g)
  /\ (forall command_string w,
        upper (hd "" (command_parts command_string)) <> "UPLOAD" ->
        upper (hd "" (command_parts command_string)) <> "DELETE" ->
        entries (snd (proses_string command_string w)) = entries w).
Proof.
  split.
  - intros s w g Hg. destruct (command_parts s) as [|v ps] eqn:E.
    { now apply command_parts_nonempty in E. }
    rewrite (proses_string_dispatch _ _ _ _ E). unfold dispatch.
    repeat match goal with
           | |- context [wide_eqb ?a ?b] => destruct (wide_eqb a b)
           end.
    + destruct ps as [|f rest].
      * now rewrite (ke_short_upload v [] ltac:(simpl; lia) w).
      * pose proof (local_handle_upload (storage_path w) v f rest w eq_refl) as H.
        destruct (_handle_upload (v :: f :: rest) w) as [r w'].
        destruct H as [_ [_ H]]. apply H. intros ->. now apply Hg.
    + now rewrite (ke_handle_get (v :: ps) w).
    + now rewrite (ke_handle_list w).
    + destruct ps as [|f rest].
      * now rewrite (ke_short_delete v w).
      * pose proof (local_handle_delete (storage_path w) v f rest w eq_refl) as H.
        destruct (_handle_delete (v :: f :: rest) w) as [r w'].
        destruct H as [_ [_ H]]. apply H. intros ->. now apply Hg.
    + reflexivity.
  - intros s w Hu Hd. destruct (command_parts s) as [|v ps] eqn:E.
    { now apply command_parts_nonempty in E. }
    simpl hd in *. rewrite (proses_string_dispatch _ _ _ _ E). unfold dispatch.
    destruct (wide_eqb_spec (upper v) "UPLOAD") as [|_]; [contradiction|].
    destruct (wide_eqb (upper v) "GET"); [apply ke_handle_get|].
    destruct (wide_eqb (upper v) "LIST"); [apply ke_handle_list|].
    destruct (wide_eqb_spec (upper v) "DELETE") as [|_]; [contradiction|].
    reflexivity.
Qed.

End Locality.

(** ** Commands that are refused before any call *)

Section Refusals.
Import PyStr Py Os Base64 Json FileProtocol Session Props More.

Lemma handle_upload_undecodable v f p rest w :
  _is_valid_filename f = true -> b64decode p = None ->
  _handle_upload (v :: f :: p :: rest) w
  = (Return (error_response "Invalid base64 content"), w).
Proof.
  intros H Hd.
  cbv beta iota zeta delta
    [_handle_upload try_except bind index ret raise nth_error length Nat.ltb Nat.leb].
  now rewrite H, Hd.
Qed.

(** X12: a command that lacks an argument, or an UPLOAD whose payload the
    base64 decoder rejects, is answered with the ERROR of its own and
    leaves the world exactly as it was: no call reaches the file system.
    The filename is checked before the payload is decoded. *)
Theorem X12_refused_before_any_call :
  (forall command_string v w,
     command_parts command_string = [v] -> upper v = "GET" ->
     proses_string command_string w
     = (Return (error_response "GET command requires filename"), w))
  /\ (forall command_string v w,
        command_parts command_string = [v] -> upper v = "DELETE" ->
        proses_string command_string w
        = (Return (error_response "DELETE command requires filename"), w))
  /\ (forall command_string v rest w,
        command_parts command_string = v :: rest -> length rest < 2 ->
        upper v = "UPLOAD" ->
        proses_string command_string w
        = (Return (error_response "UPLOAD command requires filename and content"), w))
  /\ (forall command_string v f p w,
        command_parts command_string = [v; f; p] -> upper v = "UPLOAD" ->
        _is_valid_filename f = true -> b64decode p = None ->
        proses_string command_string w
        = (Return (error_response "Invalid base64 content"), w)).
Proof.
  repeat split.
  - intros s v w Hp Hv.
    now rewrite (proses_string_dispatch _ _ _ _ Hp), (dispatch_get _ _ _ Hv).
  - intros s v w Hp Hv.
    now rewrite (proses_string_dispatch _ _ _ _ Hp), (dispatch_delete _ _ _ Hv).
  - intros s v rest w Hp Hlen Hv.
    rewrite (proses_string_dispatch _ _ _ _ Hp), (dispatch_upload _ _ _ Hv).
    destruct rest as [|a [|b rest]]; [reflexivity|reflexivity|simpl in Hlen; lia].
  - intros s v f p w Hp Hv Hf Hd.
    rewrite (proses_string_dispatch _ _ _ _ Hp), (dispatch_upload _ _ _ Hv).
    now apply handle_upload_undecodable.
Qed.

End Refusals.

(** ** Storing several files, then LIST *)

Section StoreThenList.
Import PyStr Py Os Base64 Json FileProtocol Session Props More.

Lemma upload_step name data w :
  plain_name w name -> quiet w -> entries w !! name <> Some SubDir -> data <> [] ->
  exists w1,
    proses_string (upload_frame name data) w
    = (Return (upload_ok name (length data)), w1)
    /\ entries w1 = <[name := RegFile data]> (entries w)
    /\ storage_path w1 = storage_path w /\ os_error w1 = os_error w.
Proof.
  intros Hp Hq Hdir Hdata.
  destruct (handle_upload_stores "UPLOAD" name (b64encode data) data [] w Hp Hq Hdir
              (b64decode_b64encode data)) as (w1 & H1 & H2).
  exists w1. split; [|exact H2].
  destruct Hp as (_ & Hs & _). destruct (b64encode_text data) as [_ Hws].
  assert (Hparts : command_parts (upload_frame name data)
                   = ["UPLOAD"; name; b64encode data]).
  { apply (parts_verb_name_payload "UPLOAD"); auto using b64encode_nonempty.
    now apply rstrip_no_whitespace. }
  now rewrite (proses_string_dispatch _ _ _ _ Hparts),
    (dispatch_upload _ _ _ (eq_refl : upper "UPLOAD" = "UPLOAD")).
Qed.

Lemma plain_name_same w w' f :
  storage_path w' = storage_path w -> plain_name w f -> plain_name w' f.
Proof. intros E. unfold plain_name. now rewrite E. Qed.

Lemma quiet_same w w' : os_error w' = os_error w -> quiet w -> quiet w'.
Proof. intros E H c p. rewrite E. apply H. Qed.

(** A run of UPLOAD frames: every one is answered OK, and the entries are
    those stored. *)
Lemma uploads_run ups : forall w,
  quiet w ->
  Forall (fun kv => plain_name w (fst kv) /\ snd kv <> []
                    /\ entries w !! fst kv <> Some SubDir) ups ->
  exists sent w1,
    replies w ((fun kv => upload_frame (fst kv) (snd kv)) <$> ups) sent w1
    /\ sent = (fun kv => upload_ok (fst kv) (length (snd kv)) +:+ DELIMITER) <$> ups
    /\ entries w1 = store_all (entries w) ups
    /\ storage_path w1 = storage_path w /\ os_error w1 = os_error w.
Proof.
  induction ups as [|[name data] ups IH]; intros w Hq Hall.
  { exists [], w. repeat split. constructor. }
  apply Forall_cons_iff in Hall as [(Hp & Hd & Hdir) Hall]. simpl in Hp, Hd, Hdir.
  destruct (upload_step name data w Hp Hq Hdir Hd) as (wa & E & He & Hs & Ho).
  destruct (IH wa) as (sent & w1 & Hrep & Hsent & He1 & Hs1 & Ho1).
  { now apply (quiet_same w). }
  { eapply Forall_impl; [exact Hall|]. intros [n d] (Hp' & Hd' & Hdir'). simpl in *.
    split; [now apply (plain_name_same w)|split; [exact Hd'|]].
    rewrite He. destruct (decide (name = n)) as [->|Hne].
    - rewrite lookup_insert_eq. discriminate.
    - now rewrite lookup_insert_ne. }
  exists ((upload_ok name (length data) +:+ DELIMITER) :: sent), w1.
  split; [|split; [|split; [|split]]].
  - cbn [fmap list_fmap fst snd]. econstructor; eassumption.
  - cbn [fmap list_fmap fst snd]. now rewrite Hsent.
  - rewrite He1, He. reflexivity.
  - congruence.
  - congruence.
Qed.

Lemma replies_wf w cs sent w' : replies w cs sent w' -> wf w -> wf w'.
Proof.
  induction 1 as [|w c hasil w1 cs sent w2 E _ IH]; [auto|].
  intros Hw. apply IH. pose proof (proses_string_wf c w Hw) as H. now rewrite E in H.
Qed.

Lemma lookup_store_all ups : forall E n x,
  NoDup (fst <$> ups) ->
  Forall (fun kv => E !! fst kv = None) ups ->
  store_all E ups !! n = Some x
  <-> (exists d, (n, d) ∈ ups /\ x = RegFile d) \/ E !! n = Some x.
Proof.
  induction ups as [|[k d] ups IH]; intros E n x Hnd Hfresh.
  { simpl. split; [auto|]. intros [(d & H & _)|H]; [|exact H]. now apply elem_of_nil in H. }
  cbn [fmap list_fmap fst] in Hnd. apply NoDup_cons in Hnd as [Hk Hnd].
  apply Forall_cons_iff in Hfresh as [Hkf Hfresh]. simpl in Hkf.
  unfold store_all. cbn [foldl fst snd]. fold (store_all (<[k := RegFile d]> E) ups).
  rewrite IH; [|exact Hnd|].
  - split.
    + intros [(d' & Hin & ->)|H].
      * left. exists d'. split; [now right|reflexivity].
      * destruct (decide (k = n)) as [->|Hne].
        -- rewrite lookup_insert_eq in H. injection H as <-.
           left. exists d. split; [now left|reflexivity].
        -- rewrite lookup_insert_ne in H by exact Hne. now right.
    + intros [(d' & Hin & ->)|H].
      * apply elem_of_cons in Hin as [[= -> ->]|Hin].
        -- right. apply lookup_insert_eq.
        -- left. now exists d'.
      * right. rewrite lookup_insert_ne; [exact H|]. intros ->. congruence.
  - apply Forall_forall. intros [n' d'] Hin. simpl.
    rewrite lookup_insert_ne.
    + exact (proj1 (Forall_forall _ _) Hfresh _ Hin).
    + intros ->. apply Hk. apply list_elem_of_fmap. now exists (n', d').
Qed.

Lemma listing_insert_fresh E k d :
  E !! k = None ->
  length (listing (map_to_list (<[k := RegFile d]> E)))
  = S (length (listing (map_to_list E))).
Proof.
  intros H. unfold listing.
  rewrite (Permutation_length
             (omap_Permutation _ _ _ (map_to_list_insert E k (RegFile d) H))).
  reflexivity.
Qed.

Lemma listing_store_all ups : forall E,
  NoDup (fst <$> ups) ->
  Forall (fun kv => E !! fst kv = None) ups ->
  length (listing (map_to_list (store_all E ups)))
  = length (listing (map_to_list E)) + length ups.
Proof.
  induction ups as [|[k d] ups IH]; intros E Hnd Hfresh; [simpl; lia|].
  cbn [fmap list_fmap fst] in Hnd. apply NoDup_cons in Hnd as [Hk Hnd].
  apply Forall_cons_iff in Hfresh as [Hkf Hfresh]. simpl in Hkf.
  unfold store_all. cbn [foldl fst snd]. fold (store_all (<[k := RegFile d]> E) ups).
  rewrite IH; [|exact Hnd|].
  - rewrite (listing_insert_fresh _ _ _ Hkf). simpl. lia.
  - apply Forall_forall. intros [n' d'] Hin. simpl.
    rewrite lookup_insert_ne.
    + exact (proj1 (Forall_forall _ _) Hfresh _ Hin).
    + intros ->. apply Hk. apply list_elem_of_fmap. now exists (n', d').
Qed.

(** X13: LIST counts what was stored.  After [K] files with distinct new
    names have been stored by UPLOAD frames, each answered OK in turn,
    LIST reports [K] records more than before: the records it reported
    before, and one for each stored file with the length of its data. *)
Theorem X13_list_after_uploads (ups : list (string * list byte)) (w : world) :
  quiet w -> wf w ->
  str_in NUL (storage_path w) = false ->
  (forall n x, entries w !! n = Some x ->
               str_in NUL (path_join (storage_path w) n) = false) ->
  NoDup (fst <$> ups) ->
  Forall (fun kv => plain_name w (fst kv) /\ snd kv <> []
                    /\ entries w !! fst kv = None) ups ->
  exists files0 w0 sent w1 files1 w2,
    proses_string "LIST" w = (Return (list_ok files0), w0)
    /\ replies w ((fun kv => upload_frame (fst kv) (snd kv)) <$> ups) sent w1
    /\ sent = (fun kv => upload_ok (fst kv) (length (snd kv)) +:+ DELIMITER) <$> ups
    /\ proses_string "LIST" w1 = (Return (list_ok files1), w2)
    /\ length files1 = length files0 + length ups
    /\ forall n k,
         file_info n k ∈ files1
         <-> (exists d, (n, d) ∈ ups /\ k = length d) \/ file_info n k ∈ files0.
Proof.
  intros Hq Hw Hroot Hnul Hnd Hall.
  assert (Hlist : command_parts "LIST" = ["LIST"]) by reflexivity.
  destruct (list_run "LIST" "LIST" [] w Hlist eq_refl Hq Hw Hroot Hnul) as (w0 & E0 & _).
  destruct (uploads_run ups w Hq) as (sent & w1 & Hrep & Hsent & He1 & Hs1 & Ho1).
  { eapply Forall_impl; [exact Hall|]. intros kv (Hp & Hd & Hn).
    split; [exact Hp|split; [exact Hd|]]. rewrite Hn. discriminate. }
  assert (Hfresh : Forall (fun kv : string * list byte => entries w !! fst kv = None) ups).
  { eapply Forall_impl; [exact Hall|]. now intros kv (_ & _ & Hn). }
  assert (Hnul1 : forall n x, entries w1 !! n = Some x ->
                              str_in NUL (path_join (storage_path w1) n) = false).
  { intros n x Hx. rewrite Hs1. rewrite He1 in Hx.
    apply (lookup_store_all ups _ _ _ Hnd Hfresh) in Hx as [(d & Hin & _)|Hx].
    - destruct (proj1 (Forall_forall _ _) Hall _ Hin) as ((_ & _ & _ & _ & H) & _).
      exact H.
    - exact (Hnul _ _ Hx). }
  destruct (list_run "LIST" "LIST" [] w1 Hlist eq_refl) as (w2 & E1 & _).
  { now apply (quiet_same w). }
  { exact (replies_wf _ _ _ _ Hrep Hw). }
  { now rewrite Hs1. }
  { exact Hnul1. }
  exists (listing (map_to_list (entries w))), w0, sent, w1,
    (listing (map_to_list (entries w1))), w2.
  split; [exact E0|]. split; [exact Hrep|]. split; [exact Hsent|].
  split; [exact E1|]. rewrite He1. split.
  - now apply listing_store_all.
  - intros n k. rewrite !file_info_listed. split.
    + intros (c & Hc & ->).
      apply (lookup_store_all ups _ _ _ Hnd Hfresh) in Hc as [(d & Hin & [= ->])|Hc].
      * left. now exists d.
      * right. now exists c.
    + intros [(d & Hin & ->)|(c & Hc & ->)].
      * exists d. split; [|reflexivity].
        apply (lookup_store_all ups _ _ _ Hnd Hfresh). left. now exists d.
      * exists c. split; [|reflexivity].
        apply (lookup_store_all ups _ _ _ Hnd Hfresh). now right.
Qed.

End StoreThenList.

(** ** What no command does to the storage directory *)

Section Rely.
Import PyStr Py Os Base64 Json FileProtocol Session Props More.

(** A relation between worlds that holds across the three ways in which
    the system calls change the world: a call is recorded, a name that is
    not a subdirectory gets the content of a regular file, a regular file
    is removed. *)
Variable R : world -> world -> Prop.
Hypothesis R_refl : forall w, R w w.
Hypothesis R_trans : forall w1 w2 w3, R w1 w2 -> R w2 w3 -> R w1 w3.
Hypothesis R_logged : forall w c p, R w (logged w c p).
Hypothesis R_store : forall w n c,
  entries w !! n <> Some SubDir -> R w (set_entries w (<[n := RegFile c]> (entries w))).
Hypothesis R_remove : forall w n c,
  entries w !! n = Some (RegFile c) -> R w (set_entries w (delete n (entries w))).

Lemma pres_ret {A} (a : A) : preserves R (ret a).
Proof. intros w. apply R_refl. Qed.

Lemma pres_bind {A B} (m : M world A) (k : A -> M world B) :
  preserves R m -> (forall a, preserves R (k a)) -> preserves R (bind m k).
Proof.
  intros Hm Hk w. unfold bind. specialize (Hm w).
  destruct (m w) as [[a|e] w1]; simpl in *; [|exact Hm].
  eapply R_trans; [exact Hm|apply Hk].
Qed.

Lemma pres_try {A} (body : M world A) handler :
  preserves R body -> (forall e, preserves R (handler e)) ->
  preserves R (try_except body handler).
Proof.
  intros Hb Hh w. unfold try_except. specialize (Hb w).
  destruct (body w) as [[a|e] w1]; simpl in *; [exact Hb|].
  eapply R_trans; [exact Hb|apply Hh].
Qed.

Lemma pres_index {A} (l : list A) i : preserves R (index l i).
Proof. unfold index. destruct (nth_error l i); intros w; apply R_refl. Qed.

Lemma pres_probe c path test : preserves R (probe c path test).
Proof. intros w. rewrite probe_eq. apply R_logged. Qed.

Lemma pres_guarded {A} c path (body : M world A) :
  preserves R body -> preserves R (guarded c path body).
Proof.
  intros Hb w. rewrite guarded_eq.
  destruct (os_error w c path); [apply R_logged|].
  destruct (str_in NUL path); [apply R_logged|].
  eapply R_trans; [apply R_logged|apply Hb].
Qed.

Lemma pres_open_rb path : preserves R (open_rb path).
Proof.
  apply pres_guarded. intros w. destruct (locate w path); try apply R_refl.
  destruct (entries w !! name) as [[c|]|]; apply R_refl.
Qed.

Lemma pres_f_read f : preserves R (f_read f).
Proof.
  destruct f as [path]. apply pres_guarded. intros w.
  destruct (locate w path); try apply R_refl.
  destruct (entries w !! name) as [[c|]|]; apply R_refl.
Qed.

Lemma pres_open_wb path : preserves R (open_wb path).
Proof.
  apply pres_guarded. intros w. destruct (locate w path); try apply R_refl.
  destruct (entries w !! name) as [[c|]|] eqn:E; simpl;
    [apply R_store; congruence|apply R_refl|apply R_store; congruence].
Qed.

Lemma pres_f_write f data : preserves R (f_write f data).
Proof.
  destruct f as [path]. apply pres_guarded. intros w.
  destruct (locate w path); try apply R_refl.
  destruct (entries w !! name) as [[c|]|] eqn:E; simpl;
    [apply R_store; congruence|apply R_refl|apply R_refl].
Qed.

Lemma pres_os_remove path : preserves R (os_remove path).
Proof.
  apply pres_guarded. intros w. destruct (locate w path); try apply R_refl.
  destruct (entries w !! name) as [[c|]|] eqn:E; simpl;
    [now apply (R_remove w name c)|apply R_refl|apply R_refl].
Qed.

Lemma pres_os_path_getsize path : preserves R (os_path_getsize path).
Proof.
  unfold os_path_getsize. apply pres_guarded. intros w.
  destruct (locate w path); try apply R_refl.
  destruct (entries w !! name) as [[c|]|]; apply R_refl.
Qed.

Lemma pres_os_listdir path : preserves R (os_listdir path).
Proof.
  unfold os_listdir. apply pres_guarded. intros w.
  destruct (locate w path); apply R_refl.
Qed.

Lemma pres_self_storage_path : preserves R self_storage_path.
Proof. intros w. apply R_refl. Qed.

Lemma pres_handle_upload parts : preserves R (_handle_upload parts).
Proof.
  unfold _handle_upload. destruct (length parts <? 3)%nat; [apply pres_ret|].
  apply pres_try; [|intros e; apply pres_ret].
  apply pres_bind; [apply pres_index|]. intros filename.
  apply pres_bind; [apply pres_index|]. intros content.
  destruct (negb _); [apply pres_ret|].
  destruct (b64decode content); [|apply pres_ret].
  apply pres_bind; [apply pres_self_storage_path|]. intros storage.
  apply pres_bind; [apply pres_open_wb|]. intros f.
  apply pres_bind; [apply pres_f_write|]. intros _. apply pres_ret.
Qed.

Lemma pres_handle_get parts : preserves R (_handle_get parts).
Proof.
  unfold _handle_get. destruct (length parts <? 2)%nat; [apply pres_ret|].
  apply pres_try; [|intros e; apply pres_ret].
  apply pres_bind; [apply pres_index|]. intros filename.
  destruct (negb _); [apply pres_ret|].
  apply pres_bind; [apply pres_self_storage_path|]. intros storage.
  apply pres_bind; [apply pres_probe|]. intros present.
  destruct (negb present); [apply pres_ret|].
  apply pres_bind; [apply pres_open_rb|]. intros f.
  apply pres_bind; [apply pres_f_read|]. intros content. apply pres_ret.
Qed.

Lemma pres_list_loop storage names : forall files,
  preserves R (list_loop storage names files).
Proof.
  induction names as [|n names IH]; intros files; [apply pres_ret|].
  simpl. apply pres_bind; [apply pres_probe|]. intros [|]; [|apply IH].
  apply pres_bind; [apply pres_os_path_getsize|]. intros size. apply IH.
Qed.

Lemma pres_handle_list : preserves R _handle_list.
Proof.
  unfold _handle_list. apply pres_try; [|intros e; apply pres_ret].
  apply pres_bind; [apply pres_self_storage_path|]. intros storage.
  apply pres_bind; [apply pres_os_listdir|]. intros names.
  apply pres_bind; [apply pres_list_loop|]. intros files. apply pres_ret.
Qed.

Lemma pres_handle_delete parts : preserves R (_handle_delete parts).
Proof.
  unfold _handle_delete. destruct (length parts <? 2)%nat; [apply pres_ret|].
  apply pres_try; [|intros e; apply pres_ret].
  apply pres_bind; [apply pres_index|]. intros filename.
  destruct (negb _); [apply pres_ret|].
  apply pres_bind; [apply pres_self_storage_path|]. intros storage.
  apply pres_bind; [apply pres_probe|]. intros present.
  destruct (negb present); [apply pres_ret|].
  apply pres_bind; [apply pres_os_remove|]. intros _. apply pres_ret.
Qed.

Lemma pres_proses_string command_string : preserves R (proses_string command_string).
Proof.
  intros w. destruct (command_parts command_string) as [|p0 ps] eqn:E.
  { now apply command_parts_nonempty in E. }
  rewrite (proses_string_dispatch _ _ _ _ E). unfold dispatch.
  repeat match goal with |- context [wide_eqb ?a ?b] => destruct (wide_eqb a b) end.
  - apply pres_handle_upload.
  - apply pres_handle_get.
  - apply pres_handle_list.
  - apply pres_handle_delete.
  - apply R_refl.
Qed.

Lemma pres_frames_loop fuel refuse : forall k buffer w sent r w',
  frames_loop fuel refuse k buffer w = Some (sent, r, w') -> R w w'.
Proof.
  induction fuel as [|fuel IH]; intros k buffer w sent r w' H; [discriminate|].
  simpl in H. destruct (str_in DELIMITER buffer) eqn:Hin.
  - destruct (partition_some _ _ Hin) as (h & t & Hp & _). rewrite Hp in H.
    pose proof (pres_proses_string h w) as H1.
    destruct (proses_string h w) as [[hasil|e] w1]; simpl in H1.
    + destruct (refuse k); [now injection H as <- <- <-|].
      destruct (frames_loop fuel refuse (S k) t w1) as [[[sent1 r1] w2]|] eqn:El;
        [|discriminate].
      injection H as <- <- <-. eapply R_trans; [exact H1|]. exact (IH _ _ _ _ _ _ El).
    + now injection H as <- <- <-.
  - injection H as <- <- <-. apply R_refl.
Qed.

Lemma pres_serve incoming refuse : forall k buffer w evs w',
  serve incoming refuse k buffer w = Some (evs, w') -> R w w'.
Proof.
  induction incoming as [|r incoming IH]; intros k buffer w evs w' H.
  { injection H as <- <-. apply R_refl. }
  destruct r as [[|a data]| |e]; try (injection H as <- <-; apply R_refl).
  cbn [serve] in H.
  destruct (process_buffer refuse k (buffer +:+ String a data) w)
    as [[[sent res] w1]|] eqn:Ep; [|discriminate].
  pose proof (pres_frames_loop _ _ _ _ _ _ _ _ Ep) as H1.
  destruct res as [b|e].
  - destruct (serve incoming refuse _ b w1) as [[evs1 w2]|] eqn:Es; [|discriminate].
    injection H as <- <-. eapply R_trans; [exact H1|]. exact (IH _ _ _ _ _ Es).
  - now injection H as <- <-.
Qed.

Lemma pres_handle_client conn w :
  exists evs w', handle_client conn w = Some (evs, w') /\ R w w'.
Proof.
  unfold handle_client.
  destruct (serve_total (incoming conn) (sendall_error conn) 0 "" w) as (evs & w' & E).
  rewrite E. eexists _, w'. split; [reflexivity|]. exact (pres_serve _ _ _ _ _ _ _ E).
Qed.

End Rely.

Section Directories.
Import PyStr Py Os Base64 Json FileProtocol Session Props More.

Lemma same_dirs_refl w : same_dirs w w.
Proof. now split. Qed.

Lemma same_dirs_trans w1 w2 w3 : same_dirs w1 w2 -> same_dirs w2 w3 -> same_dirs w1 w3.
Proof.
  intros [Hs1 He1] [Hs2 He2]. split; [congruence|].
  intros g. now rewrite He2, He1.
Qed.

Lemma same_dirs_logged w c p : same_dirs w (logged w c p).
Proof. now split. Qed.

Lemma same_dirs_store w n c :
  entries w !! n <> Some SubDir ->
  same_dirs w (set_entries w (<[n := RegFile c]> (entries w))).
Proof.
  intros H. split; [reflexivity|]. intros g. simpl.
  destruct (decide (n = g)) as [->|Hne].
  - rewrite lookup_insert_eq. split; [discriminate|]. intros E. now destruct H.
  - now rewrite lookup_insert_ne.
Qed.

Lemma same_dirs_remove w n c :
  entries w !! n = Some (RegFile c) ->
  same_dirs w (set_entries w (delete n (entries w))).
Proof.
  intros H. split; [reflexivity|]. intros g. simpl.
  destruct (decide (n = g)) as [->|Hne].
  - rewrite lookup_delete_eq, H. split; discriminate.
  - now rewrite lookup_delete_ne.
Qed.

(** X14: no command and no session creates, removes or replaces a
    subdirectory of the storage directory: the names that are
    subdirectories after a command, or after a whole session, are those
    that were subdirectories before. *)
Theorem X14_subdirectories_are_kept :
  (forall command_string w,
     same_dirs w (snd (proses_string command_string w)))
  /\ (forall conn w,
        exists evs w', handle_client conn w = Some (evs, w') /\ same_dirs w w').
Proof.
  split.
  - apply pres_proses_string;
      auto using same_dirs_refl, same_dirs_logged, same_dirs_store.
    + exact same_dirs_trans.
    + exact same_dirs_remove.
  - apply pres_handle_client;
      auto using same_dirs_refl, same_dirs_logged, same_dirs_store.
    + exact same_dirs_trans.
    + exact same_dirs_remove.
Qed.

End Directories.

(** ** Failures of the system calls *)

Section Failures.
Import PyStr Py Os Base64 Json FileProtocol Session Props More.

Lemma upload_open_fails s v f p data msg w :
  command_parts s = [v; f; p] -> upper v = "UPLOAD" ->
  _is_valid_filename f = true -> b64decode p = Some data ->
  os_error w OpenWb (path_join (storage_path w) f) = Some msg
  \/ (os_error w OpenWb (path_join (storage_path w) f) = None
      /\ str_in NUL (path_join (storage_path w) f) = true /\ msg = embedded_null) ->
  exists w',
    proses_string s w = (Return (error_response ("Upload failed: " +:+ msg)), w')
    /\ entries w' = entries w.
Proof.
  intros Hparts Hverb Hv Hd H.
  rewrite (proses_string_dispatch _ _ _ _ Hparts), (dispatch_upload _ _ _ Hverb),
    (handle_upload_valid _ _ _ _ _ _ Hv Hd).
  cbv zeta. unfold open_wb. rewrite guarded_eq.
  destruct H as [->|(-> & -> & ->)]; eexists; split; reflexivity.
Qed.

Lemma get_open_fails s v f rest x msg w :
  command_parts s = v :: f :: rest -> upper v = "GET" ->
  _is_valid_filename f = true -> f <> "." ->
  str_in NUL (path_join (storage_path w) f) = false ->
  entries w !! f = Some x ->
  os_error w Exists (path_join (storage_path w) f) = None ->
  os_error w OpenRb (path_join (storage_path w) f) = Some msg ->
  exists w',
    proses_string s w = (Return (error_response ("Get failed: " +:+ msg)), w')
    /\ entries w' = entries w.
Proof.
  intros Hparts Hverb Hv Hdot Hnul Hx He Ho.
  rewrite (proses_string_dispatch _ _ _ _ Hparts), (dispatch_get _ _ _ Hverb),
    (handle_get_valid _ _ _ _ Hv).
  cbv zeta.
  rewrite (os_path_exists_ok w f _ x He Hnul (locate_valid w f Hv Hdot) Hx).
  cbn [negb]. cbv iota. unfold open_rb. rewrite guarded_eq.
  change (os_error (logged w Exists (path_join (storage_path w) f))) with (os_error w).
  rewrite Ho. eexists; split; reflexivity.
Qed.

Lemma delete_remove_fails s v f rest x msg w :
  command_parts s = v :: f :: rest -> upper v = "DELETE" ->
  _is_valid_filename f = true -> f <> "." ->
  str_in NUL (path_join (storage_path w) f) = false ->
  entries w !! f = Some x ->
  os_error w Exists (path_join (storage_path w) f) = None ->
  os_error w Remove (path_join (storage_path w) f) = Some msg ->
  exists w',
    proses_string s w = (Return (error_response ("Delete failed: " +:+ msg)), w')
    /\ entries w' = entries w.
Proof.
  intros Hparts Hverb Hv Hdot Hnul Hx He Ho.
  rewrite (proses_string_dispatch _ _ _ _ Hparts), (dispatch_delete _ _ _ Hverb),
    (handle_delete_valid _ _ _ _ Hv).
  cbv zeta.
  rewrite (os_path_exists_ok w f _ x He Hnul (locate_valid w f Hv Hdot) Hx).
  cbn [negb]. cbv iota. unfold os_remove. rewrite guarded_eq.
  change (os_error (logged w Exists (path_join (storage_path w) f))) with (os_error w).
  rewrite Ho. eexists; split; reflexivity.
Qed.

Lemma list_listdir_fails s v rest msg w :
  command_parts s = v :: rest -> upper v = "LIST" ->
  os_error w Listdir (storage_path w) = Some msg ->
  exists w',
    proses_string s w = (Return (error_response ("List failed: " +:+ msg)), w')
    /\ entries w' = entries w.
Proof.
  intros Hparts Hverb Ho.
  rewrite (proses_string_dispatch _ _ _ _ Hparts), (dispatch_list _ _ _ Hverb).
  unfold _handle_list, try_except, bind at 1, self_storage_path.
  unfold bind at 1. unfold os_listdir. rewrite guarded_eq, Ho.
  eexists; split; reflexivity.
Qed.

(** A refused write: the file was opened, and so emptied, before. *)
Lemma upload_write_fails s v f p data msg w :
  command_parts s = [v; f; p] -> upper v = "UPLOAD" ->
  _is_valid_filename f = true -> f <> "." ->
  str_in NUL (path_join (storage_path w) f) = false ->
  b64decode p = Some data ->
  entries w !! f <> Some SubDir ->
  os_error w OpenWb (path_join (storage_path w) f) = None ->
  os_error w FWrite (path_join (storage_path w) f) = Some msg ->
  exists w',
    proses_string s w = (Return (error_response ("Upload failed: " +:+ msg)), w')
    /\ entries w' = <[f := RegFile []]> (entries w).
Proof.
  intros Hparts Hverb Hv Hdot Hnul Hd Hdir Ho Hw.
  rewrite (proses_string_dispatch _ _ _ _ Hparts), (dispatch_upload _ _ _ Hverb),
    (handle_upload_valid _ _ _ _ _ _ Hv Hd).
  cbv zeta.
  rewrite (open_wb_ok w f _ Ho Hnul (locate_valid w f Hv Hdot) Hdir).
  unfold f_write. rewrite guarded_eq. cbn [os_error set_entries logged].
  rewrite Hw. eexists; split; reflexivity.
Qed.

Lemma get_read_fails s v f rest c msg w :
  command_parts s = v :: f :: rest -> upper v = "GET" ->
  _is_valid_filename f = true -> f <> "." ->
  str_in NUL (path_join (storage_path w) f) = false ->
  entries w !! f = Some (RegFile c) ->
  os_error w Exists (path_join (storage_path w) f) = None ->
  os_error w OpenRb (path_join (storage_path w) f) = None ->
  os_error w FRead (path_join (storage_path w) f) = Some msg ->
  exists w',
    proses_string s w = (Return (error_response ("Get failed: " +:+ msg)), w')
    /\ entries w' = entries w.
Proof.
  intros Hparts Hverb Hv Hdot Hnul Hx He Ho Hr.
  pose proof (locate_valid w f Hv Hdot) as Hloc.
  rewrite (proses_string_dispatch _ _ _ _ Hparts), (dispatch_get _ _ _ Hverb),
    (handle_get_valid _ _ _ _ Hv).
  cbv zeta.
  rewrite (os_path_exists_ok w f _ (RegFile c) He Hnul Hloc Hx).
  cbn [negb]. cbv iota.
  rewrite (open_rb_ok (logged w Exists (path_join (storage_path w) f)) f _ c Ho Hnul Hloc Hx).
  unfold f_read. rewrite guarded_eq. cbn [os_error logged].
  rewrite Hr. eexists; split; reflexivity.
Qed.

(** The loop of LIST on any platform: it ends without an exception only
    if no size of a regular file that passes the [isfile] test is
    refused, and an exception that ends it is such a refusal. *)
Lemma list_loop_outcome w l : forall files w0,
  storage_path w0 = storage_path w -> entries w0 = entries w ->
  os_error w0 = os_error w ->
  Forall (fun kv => entries w !! fst kv = Some (snd kv)
                    /\ legal_entry (fst kv) = true) l ->
  match list_loop (storage_path w) (fst <$> l) files w0 with
  | (Return _, w') =>
      entries w' = entries w
      /\ Forall (fun kv =>
                   forall c, snd kv = RegFile c ->
                     os_error w IsFile (path_join (storage_path w) (fst kv)) = None ->
                     str_in NUL (path_join (storage_path w) (fst kv)) = false ->
                     os_error w GetSize (path_join (storage_path w) (fst kv)) = None) l
  | (Raise m, w') =>
      entries w' = entries w
      /\ exists n c,
           (n, RegFile c) ∈ l
           /\ os_error w GetSize (path_join (storage_path w) n) = Some m
  end.
Proof.
  induction l as [|[n x] l IH]; intros files w0 Hs He Ho Hl.
  { simpl. split; [exact He|constructor]. }
  apply Forall_cons_iff in Hl as [(Hx & Hn) Hl]. simpl in Hx, Hn.
  pose proof (legal_entry_locate w n Hn) as Hloc.
  set (path := path_join (storage_path w) n) in *.
  cbn [fmap list_fmap fst list_loop]. fold path. unfold bind at 1.
  unfold os_path_isfile. rewrite probe_eq, Ho.
  assert (Hskip : forall fs,
            match list_loop (storage_path w) (fst <$> l) fs (logged w0 IsFile path) with
            | (Return _, w') =>
                entries w' = entries w
                /\ Forall (fun kv =>
                     forall c, snd kv = RegFile c ->
                       os_error w IsFile (path_join (storage_path w) (fst kv)) = None ->
                       str_in NUL (path_join (storage_path w) (fst kv)) = false ->
                       os_error w GetSize (path_join (storage_path w) (fst kv)) = None) l
            | (Raise m, w') =>
                entries w' = entries w
                /\ exists n c,
                     (n, RegFile c) ∈ l
                     /\ os_error w GetSize (path_join (storage_path w) n) = Some m
            end) by (intros fs; now apply IH).
  assert (Hlift : forall fs,
            (forall c, x = RegFile c ->
               os_error w IsFile path = None -> str_in NUL path = false ->
               os_error w GetSize path = None) ->
            match list_loop (storage_path w) (fst <$> l) fs (logged w0 IsFile path) with
            | (Return _, w') =>
                entries w' = entries w
                /\ Forall (fun kv =>
                     forall c, snd kv = RegFile c ->
                       os_error w IsFile (path_join (storage_path w) (fst kv)) = None ->
                       str_in NUL (path_join (storage_path w) (fst kv)) = false ->
                       os_error w GetSize (path_join (storage_path w) (fst kv)) = None)
                     ((n, x) :: l)
            | (Raise m, w') =>
                entries w' = entries w
                /\ exists n' c,
                     (n', RegFile c) ∈ (n, x) :: l
                     /\ os_error w GetSize (path_join (storage_path w) n') = Some m
            end).
  { intros fs Hhead. specialize (Hskip fs).
    destruct (list_loop (storage_path w) (fst <$> l) fs (logged w0 IsFile path))
      as [[r|m] w'].
    - destruct Hskip as [E F]. split; [exact E|]. constructor; [exact Hhead|exact F].
    - destruct Hskip as [E (n' & c & Hin & Hm)]. split; [exact E|].
      exists n', c. split; [now right|exact Hm]. }
  destruct (os_error w IsFile path) eqn:Ei.
  { apply Hlift. intros c _ H. discriminate H. }
  destruct (str_in NUL path) eqn:Enul.
  { apply Hlift. intros c _ _ H. discriminate H. }
  rewrite (locate_same w (logged w0 IsFile path) path Hs), Hloc.
  change (entries (logged w0 IsFile path)) with (entries w0). rewrite He, Hx.
  destruct x as [c|].
  - unfold bind at 1. unfold os_path_getsize. rewrite guarded_eq.
    change (os_error (logged w0 IsFile path)) with (os_error w0). rewrite Ho.
    destruct (os_error w GetSize path) as [m|] eqn:Eg.
    + split; [exact He|]. exists n, c. split; [now left|exact Eg].
    + rewrite Enul.
      rewrite (locate_same w (logged (logged w0 IsFile path) GetSize path) path Hs), Hloc.
      change (entries (logged (logged w0 IsFile path) GetSize path)) with (entries w0).
      rewrite He, Hx.
      specialize (IH (files ++ [Obj [("filename", Str n); ("size", Int (length c))]])
                    (logged (logged w0 IsFile path) GetSize path) Hs He Ho Hl).
      destruct (list_loop (storage_path w) (fst <$> l) _
                  (logged (logged w0 IsFile path) GetSize path)) as [[r|m] w'].
      * destruct IH as [E F]. split; [exact E|]. constructor; [|exact F].
        intros c' _ _ _. exact Eg.
      * destruct IH as [E (n' & c' & Hin & Hm)]. split; [exact E|].
        exists n', c'. split; [now right|exact Hm].
  - apply Hlift. intros c H. discriminate H.
Qed.

Lemma list_getsize_fails s v rest n c msg w :
  command_parts s = v :: rest -> upper v = "LIST" ->
  wf w ->
  os_error w Listdir (storage_path w) = None ->
  str_in NUL (storage_path w) = false ->
  entries w !! n = Some (RegFile c) ->
  os_error w IsFile (path_join (storage_path w) n) = None ->
  str_in NUL (path_join (storage_path w) n) = false ->
  os_error w GetSize (path_join (storage_path w) n) = Some msg ->
  exists m n' c' w',
    proses_string s w = (Return (error_response ("List failed: " +:+ m)), w')
    /\ entries w' = entries w
    /\ entries w !! n' = Some (RegFile c')
    /\ os_error w GetSize (path_join (storage_path w) n') = Some m.
Proof.
  intros Hparts Hverb Hw Hl Hroot Hx Hi Hnul Hg.
  rewrite (proses_string_dispatch _ _ _ _ Hparts), (dispatch_list _ _ _ Hverb).
  unfold _handle_list, try_except, bind at 1, self_storage_path.
  unfold bind at 1. rewrite (os_listdir_ok w Hl Hroot). unfold bind at 1.
  pose proof (list_loop_outcome w (map_to_list (entries w)) []
                (logged w Listdir (storage_path w)) eq_refl eq_refl eq_refl) as H.
  destruct (list_loop (storage_path w) (fst <$> map_to_list (entries w)) []
              (logged w Listdir (storage_path w))) as [[files|m] w'].
  - exfalso. destruct H as [_ F].
    { apply Forall_forall. intros [k y] Hin. apply elem_of_map_to_list in Hin.
      split; [exact Hin|exact (Hw _ _ Hin)]. }
    rewrite Forall_forall in F.
    assert (Hin : (n, RegFile c) ∈ map_to_list (entries w))
      by now apply elem_of_map_to_list.
    specialize (F _ Hin c eq_refl Hi Hnul). simpl in F. congruence.
  - destruct H as [E (n' & c' & Hin & Hm)].
    { apply Forall_forall. intros [k y] Hin. apply elem_of_map_to_list in Hin.
      split; [exact Hin|exact (Hw _ _ Hin)]. }
    apply elem_of_map_to_list in Hin.
    exists m, n', c', w'. repeat split; auto.
Qed.

(** X15: every system call that raises is reported under the name of its
    handler.  UPLOAD answers ERROR "Upload failed: " followed by the text
    of the exception when the file cannot be opened for writing (a
    filename with a NUL character is refused this way, with the text
    "embedded null byte"), and then nothing is stored; when the file is
    opened but the write is refused, the answer is the same and the file
    is left empty, its earlier content lost.  GET answers "Get failed:
    ..." when the file exists but cannot be opened, or is opened but
    cannot be read.  DELETE answers "Delete failed: ..." when the file
    exists but cannot be removed, and the entry stays.  LIST answers
    "List failed: ..." when the directory cannot be read, or the size of
    one of its regular files cannot be taken.  GET, DELETE and LIST leave
    the storage as it was. *)
Theorem X15_failures_are_reported :
  (forall command_string v f p data msg w,
     command_parts command_string = [v; f; p] -> upper v = "UPLOAD" ->
     _is_valid_filename f = true -> b64decode p = Some data ->
     os_error w OpenWb (path_join (storage_path w) f) = Some msg
     \/ (os_error w OpenWb (path_join (storage_path w) f) = None
         /\ str_in NUL (path_join (storage_path w) f) = true /\ msg = embedded_null) ->
     exists w',
       proses_string command_string w
       = (Return (error_response ("Upload failed: " +:+ msg)), w')
       /\ entries w' = entries w)
  /\ (forall command_string v f p data msg w,
        command_parts command_string = [v; f; p] -> upper v = "UPLOAD" ->
        _is_valid_filename f = true -> f <> "." ->
        str_in NUL (path_join (storage_path w) f) = false ->
        b64decode p = Some data ->
        entries w !! f <> Some SubDir ->
        os_error w OpenWb (path_join (storage_path w) f) = None ->
        os_error w FWrite (path_join (storage_path w) f) = Some msg ->
        exists w',
          proses_string command_string w
          = (Return (error_response ("Upload failed: " +:+ msg)), w')
          /\ entries w' = <[f := RegFile []]> (entries w))
  /\ (forall command_string v f rest x msg w,
        command_parts command_string = v :: f :: rest -> upper v = "GET" ->
        _is_valid_filename f = true -> f <> "." ->
        str_in NUL (path_join (storage_path w) f) = false ->
        entries w !! f = Some x ->
        os_error w Exists (path_join (storage_path w) f) = None ->
        os_error w OpenRb (path_join (storage_path w) f) = Some msg ->
        exists w',
          proses_string command_string w
          = (Return (error_response ("Get failed: " +:+ msg)), w')
          /\ entries w' = entries w)
  /\ (forall command_string v f rest c msg w,
        command_parts command_string = v :: f :: rest -> upper v = "GET" ->
        _is_valid_filename f = true -> f <> "." ->
        str_in NUL (path_join (storage_path w) f) = false ->
        entries w !! f = Some (RegFile c) ->
        os_error w Exists (path_join (storage_path w) f) = None ->
        os_error w OpenRb (path_join (storage_path w) f) = None ->
        os_error w FRead (path_join (storage_path w) f) = Some msg ->
        exists w',
          proses_string command_string w
          = (Return (error_response ("Get failed: " +:+ msg)), w')
          /\ entries w' = entries w)
  /\ (forall command_string v f rest x msg w,
        command_parts command_string = v :: f :: rest -> upper v = "DELETE" ->
        _is_valid_filename f = true -> f <> "." ->
        str_in NUL (path_join (storage_path w) f) = false ->
        entries w !! f = Some x ->
        os_error w Exists (path_join (storage_path w) f) = None ->
        os_error w Remove (path_join (storage_path w) f) = Some msg ->
        exists w',
          proses_string command_string w
          = (Return (error_response ("Delete failed: " +:+ msg)), w')
          /\ entries w' = entries w)
  /\ (forall command_string v rest msg w,
        command_parts command_string = v :: rest -> upper v = "LIST" ->
        os_error w Listdir (storage_path w) = Some msg ->
        exists w',
          proses_string command_string w
          = (Return (error_response ("List failed: " +:+ msg)), w')
          /\ entries w' = entries w)
  /\ (forall command_string v rest n c msg w,
        command_parts command_string = v :: rest -> upper v = "LIST" ->
        wf w ->
        os_error w Listdir (storage_path w) = None ->
        str_in NUL (storage_path w) = false ->
        entries w !! n = Some (RegFile c) ->
        os_error w IsFile (path_join (storage_path w) n) = None ->
        str_in NUL (path_join (storage_path w) n) = false ->
        os_error w GetSize (path_join (storage_path w) n) = Some msg ->
        exists m n' c' w',
          proses_string command_string w
          = (Return (error_response ("List failed: " +:+ m)), w')
          /\ entries w' = entries w
          /\ entries w !! n' = Some (RegFile c')
          /\ os_error w GetSize (path_join (storage_path w) n') = Some m).
Proof.
  split; [exact upload_open_fails|]. split; [exact upload_write_fails|].
  split; [exact get_open_fails|]. split; [exact get_read_fails|].
  split; [exact delete_remove_fails|]. split; [exact list_listdir_fails|].
  exact list_getsize_fails.
Qed.

(** X16: a name that is a subdirectory of the storage directory passes
    the existence test, and then every command on it fails in its system
    call: UPLOAD, GET and DELETE answer ERROR with the prefix of their
    handler, and the entries stay as they are. *)
Theorem X16_commands_on_a_subdirectory_fail (f : string) (w : world) :
  _is_valid_filename f = true -> f <> "." ->
  str_in NUL (path_join (storage_path w) f) = false ->
  quiet w ->
  entries w !! f = Some SubDir ->
  exists msg,
    (forall command_string v rest,
       command_parts command_string = v :: f :: rest -> upper v = "GET" ->
       exists w',
         proses_string command_string w
         = (Return (error_response ("Get failed: " +:+ msg)), w')
         /\ entries w' = entries w)
    /\ (forall command_string v rest,
          command_parts command_string = v :: f :: rest -> upper v = "DELETE" ->
          exists w',
            proses_string command_string w
            = (Return (error_response ("Delete failed: " +:+ msg)), w')
            /\ entries w' = entries w)
    /\ (forall command_string v p data,
          command_parts command_string = [v; f; p] -> upper v = "UPLOAD" ->
          b64decode p = Some data ->
          exists w',
            proses_string command_string w
            = (Return (error_response ("Upload failed: " +:+ msg)), w')
            /\ entries w' = entries w).
Proof.
  intros Hv Hdot Hnul Hq Hx.
  pose proof (locate_valid w f Hv Hdot) as Hloc.
  set (path := path_join (storage_path w) f) in *.
  exists (is_a_directory path).
  assert (Hex : os_path_exists path w = (Return true, logged w Exists path))
    by (apply (os_path_exists_ok w f path SubDir); auto).
  split; [|split].
  - intros s v rest Hparts Hverb.
    rewrite (proses_string_dispatch _ _ _ _ Hparts), (dispatch_get _ _ _ Hverb),
      (handle_get_valid _ _ _ _ Hv).
    cbv zeta. fold path. rewrite Hex. cbn [negb]. cbv iota.
    unfold open_rb. rewrite guarded_eq.
    change (os_error (logged w Exists path)) with (os_error w).
    rewrite (Hq OpenRb), Hnul.
    rewrite (locate_same w (logged (logged w Exists path) OpenRb path) path eq_refl), Hloc.
    change (entries (logged (logged w Exists path) OpenRb path)) with (entries w).
    rewrite Hx. eexists; split; reflexivity.
  - intros s v rest Hparts Hverb.
    rewrite (proses_string_dispatch _ _ _ _ Hparts), (dispatch_delete _ _ _ Hverb),
      (handle_delete_valid _ _ _ _ Hv).
    cbv zeta. fold path. rewrite Hex. cbn [negb]. cbv iota.
    unfold os_remove. rewrite guarded_eq.
    change (os_error (logged w Exists path)) with (os_error w).
    rewrite (Hq Remove), Hnul.
    rewrite (locate_same w (logged (logged w Exists path) Remove path) path eq_refl), Hloc.
    change (entries (logged (logged w Exists path) Remove path)) with (entries w).
    rewrite Hx. eexists; split; reflexivity.
  - intros s v p data Hparts Hverb Hd.
    rewrite (proses_string_dispatch _ _ _ _ Hparts), (dispatch_upload _ _ _ Hverb),
      (handle_upload_valid _ _ _ _ _ _ Hv Hd).
    cbv zeta. fold path. unfold open_wb. rewrite guarded_eq, (Hq OpenWb), Hnul.
    rewrite (locate_same w (logged w OpenWb path) path eq_refl), Hloc.
    change (entries (logged w OpenWb path)) with (entries w).
    rewrite Hx. eexists; split; reflexivity.
Qed.

End Failures.

(** ** Instances of the further properties *)

Section MoreInstances.
Import PyStr Py Os Base64 Json FileProtocol Session Props More.

Lemma plain_name_a_txt : plain_name empty_world "a.txt".
Proof. repeat split; try reflexivity. discriminate. Qed.

Lemma plain_name_a : plain_name one_file_world "a".
Proof. repeat split; try reflexivity. discriminate. Qed.

(** The first chunk ends inside the delimiter of its frame. *)
Lemma X5_chunking_is_invisible_witness :
  exists evs evs' w',
    serve [Data ("LIST" +:+ String "013" (String "010" (String "013" "")));
           Data (String "010" "" +:+ "GET a" +:+ DELIMITER); Data ""]
      (fun _ => None) 0 "" one_file_world
    = Some (evs, w')
    /\ serve [Data (("LIST" +:+ String "013" (String "010" (String "013" "")))
                    +:+ (String "010" "" +:+ "GET a" +:+ DELIMITER)); Data ""]
         (fun _ => None) 0 "" one_file_world
       = Some (evs', w')
    /\ sends evs = sends evs'
    /\ writes evs = writes evs'.
Proof.
  apply (X5_chunking_is_invisible
           ("LIST" +:+ String "013" (String "010" (String "013" "")))
           (String "010" "" +:+ "GET a" +:+ DELIMITER) "" [Data ""]
           (fun _ => None) 0 one_file_world); discriminate.
Defined.

(** In that session both commands are answered, in their order. *)
Example chunk_cut_inside_delimiter :
  option_map (fun r => sends (fst r))
    (serve [Data ("LIST" +:+ String "013" (String "010" (String "013" "")));
            Data (String "010" "" +:+ "GET a" +:+ DELIMITER); Data ""]
       (fun _ => None) 0 "" one_file_world)
  = Some [list_ok [file_info "a" 1] +:+ DELIMITER;
          get_ok "a" "QQ==" 1 +:+ DELIMITER].
Proof. vm_compute. reflexivity. Qed.

(** A payload that is not canonical: the decoder stops at the complete
    padding and ignores the text behind it. *)
Lemma X6_upload_stores_decoded_payload_witness :
  exists w1,
    proses_string " upload a.txt QUI=QUJD " empty_world
    = (Return (upload_ok "a.txt" (length [x41; x42])), w1)
    /\ entries w1 = <["a.txt" := RegFile [x41; x42]]> (entries empty_world).
Proof.
  apply (X6_upload_stores_decoded_payload " upload a.txt QUI=QUJD "
           "upload" "a.txt" "QUI=QUJD" [x41; x42] empty_world).
  - reflexivity.
  - reflexivity.
  - reflexivity.
  - discriminate.
  - reflexivity.
  - intros c path. reflexivity.
  - simpl. rewrite lookup_empty. discriminate.
  - reflexivity.
Defined.

Lemma X7_get_returns_stored_content_witness :
  exists w',
    proses_string ("GET " +:+ "a") one_file_world
    = (Return (get_ok "a" (b64encode [x41]) (length [x41])), w')
    /\ entries w' = entries one_file_world
    /\ b64decode (b64encode [x41]) = Some [x41].
Proof.
  apply (X7_get_returns_stored_content "a" [x41] one_file_world).
  - exact plain_name_a.
  - intros c path. reflexivity.
  - apply lookup_singleton_eq.
Defined.

Lemma X8_missing_file_is_reported_witness :
  exists w1 w2,
    proses_string ("GET " +:+ "a.txt") empty_world
    = (Return (error_response ("File not found: " +:+ "a.txt")), w1)
    /\ entries w1 = entries empty_world
    /\ proses_string ("DELETE " +:+ "a.txt") empty_world
       = (Return (error_response ("File not found: " +:+ "a.txt")), w2)
    /\ entries w2 = entries empty_world.
Proof.
  apply (X8_missing_file_is_reported "a.txt" empty_world).
  - exact plain_name_a_txt.
  - left. apply lookup_empty.
Defined.

Lemma X9_delete_removes_the_entry_witness :
  exists w',
    proses_string ("DELETE " +:+ "a") one_file_world = (Return (delete_ok "a"), w')
    /\ entries w' = delete "a" (entries one_file_world).
Proof.
  apply (X9_delete_removes_the_entry "a" [x41] one_file_world).
  - exact plain_name_a.
  - intros c path. reflexivity.
  - apply lookup_singleton_eq.
Defined.

Lemma mixed_world_wf : wf mixed_world.
Proof.
  unfold wf, mixed_world. cbn [entries].
  apply map_Forall_insert_2; [reflexivity|]. apply map_Forall_singleton. reflexivity.
Qed.

Lemma mixed_world_paths n x :
  entries mixed_world !! n = Some x ->
  str_in NUL (path_join (storage_path mixed_world) n) = false.
Proof.
  unfold mixed_world. cbn [entries storage_path]. intros H.
  destruct (decide (n = "a")) as [->|Ha]; [reflexivity|].
  rewrite lookup_insert_ne in H by congruence.
  apply lookup_singleton_Some in H as [<- _]. reflexivity.
Qed.

Lemma one_file_world_paths n x :
  entries one_file_world !! n = Some x ->
  str_in NUL (path_join (storage_path one_file_world) n) = false.
Proof.
  intros H.
  change (entries one_file_world) with ({[ "a" := RegFile [x41] ]} : gmap string node) in H.
  apply lookup_singleton_Some in H as [<- _]. reflexivity.
Qed.

(** A directory with a regular file and a subdirectory. *)
Lemma X10_list_reports_regular_files_witness :
  exists files w',
    proses_string "list please" mixed_world
    = (Return (dumps (Obj [("status", Str "OK");
                           ("data", Str "File list retrieved successfully");
                           ("files", Arr files);
                           ("count", Int (length files))])),
       w')
    /\ entries w' = entries mixed_world
    /\ (forall v, v ∈ files
                  <-> exists n c, entries mixed_world !! n = Some (RegFile c)
                                  /\ v = Obj [("filename", Str n);
                                              ("size", Int (length c))])
    /\ NoDup files
    /\ length files <= size (entries mixed_world)
    /\ (map_Forall (fun _ x => exists c, x = RegFile c) (entries mixed_world) ->
        length files = size (entries mixed_world)).
Proof.
  apply (X10_list_reports_regular_files "list please" "list" ["please"] mixed_world).
  - reflexivity.
  - reflexivity.
  - intros c path. reflexivity.
  - exact mixed_world_wf.
  - reflexivity.
  - exact mixed_world_paths.
Defined.

(** An UPLOAD of [b] changes [b] and leaves [a] as it was. *)
Lemma X11_commands_are_local_witness :
  entries (snd (proses_string "UPLOAD b QUJD" one_file_world)) !! "a"
  = entries one_file_world !! "a".
Proof.
  apply (proj1 X11_commands_are_local "UPLOAD b QUJD" one_file_world "a").
  discriminate.
Defined.

Lemma X12_refused_before_any_call_witness :
  proses_string "UPLOAD a.txt QUJ" one_file_world
  = (Return (error_response "Invalid base64 content"), one_file_world).
Proof.
  apply (proj2 (proj2 (proj2 X12_refused_before_any_call))
           "UPLOAD a.txt QUJ" "UPLOAD" "a.txt" "QUJ" one_file_world);
    reflexivity.
Defined.

Lemma X13_list_after_uploads_witness :
  exists files0 w0 sent w1 files1 w2,
    proses_string "LIST" one_file_world = (Return (list_ok files0), w0)
    /\ replies one_file_world
         ((fun kv => upload_frame (fst kv) (snd kv))
            <$> [("b", [x41; x42]); ("c", [x43])]) sent w1
    /\ sent = (fun kv => upload_ok (fst kv) (length (snd kv)) +:+ DELIMITER)
                <$> [("b", [x41; x42]); ("c", [x43])]
    /\ proses_string "LIST" w1 = (Return (list_ok files1), w2)
    /\ length files1 = length files0 + length [("b", [x41; x42]); ("c", [x43])]
    /\ forall n k,
         file_info n k ∈ files1
         <-> (exists d, (n, d) ∈ [("b", [x41; x42]); ("c", [x43])] /\ k = length d)
             \/ file_info n k ∈ files0.
Proof.
  apply (X13_list_after_uploads [("b", [x41; x42]); ("c", [x43])] one_file_world).
  - intros c path. reflexivity.
  - exact one_file_world_wf.
  - reflexivity.
  - exact one_file_world_paths.
  - apply NoDup_cons. split.
    + intros H. apply list_elem_of_singleton in H. discriminate H.
    + apply NoDup_singleton.
  - repeat constructor; try reflexivity; try discriminate.
Defined.

(** A DELETE of the subdirectory itself leaves it in place. *)
Lemma X14_subdirectories_are_kept_witness :
  same_dirs sub_dir_world (snd (proses_string "DELETE sub" sub_dir_world)).
Proof. apply (proj1 X14_subdirectories_are_kept "DELETE sub" sub_dir_world). Defined.

(** A disk that accepts no write: the file is emptied and the failure
    reported. *)
Lemma X15_failures_are_reported_witness :
  exists w',
    proses_string "UPLOAD a QUJD" full_disk_world
    = (Return (error_response ("Upload failed: " +:+ "[Errno 28] No space left on device")),
       w')
    /\ entries w' = <["a" := RegFile []]> (entries full_disk_world).
Proof.
  apply (proj1 (proj2 X15_failures_are_reported) "UPLOAD a QUJD"
           "UPLOAD" "a" "QUJD" [x41; x42; x43]
           "[Errno 28] No space left on device" full_disk_world).
  - reflexivity.
  - reflexivity.
  - reflexivity.
  - discriminate.
  - reflexivity.
  - reflexivity.
  - unfold full_disk_world. cbn [entries]. rewrite lookup_singleton_eq. discriminate.
  - reflexivity.
  - reflexivity.
Defined.

Lemma X16_commands_on_a_subdirectory_fail_witness :
  exists msg,
    (forall command_string v rest,
       command_parts command_string = v :: "sub" :: rest -> upper v = "GET" ->
       exists w',
         proses_string command_string sub_dir_world
         = (Return (error_response ("Get failed: " +:+ msg)), w')
         /\ entries w' = entries sub_dir_world)
    /\ (forall command_string v rest,
          command_parts command_string = v :: "sub" :: rest -> upper v = "DELETE" ->
          exists w',
            proses_string command_string sub_dir_world
            = (Return (error_response ("Delete failed: " +:+ msg)), w')
            /\ entries w' = entries sub_dir_world)
    /\ (forall command_string v p data,
          command_parts command_string = [v; "sub"; p] -> upper v = "UPLOAD" ->
          b64decode p = Some data ->
          exists w',
            proses_string command_string sub_dir_world
            = (Return (error_response ("Upload failed: " +:+ msg)), w')
            /\ entries w' = entries sub_dir_world).
Proof.
  apply (X16_commands_on_a_subdirectory_fail "sub" sub_dir_world).
  - reflexivity.
  - discriminate.
  - reflexivity.
  - intros c path. reflexivity.
  - apply lookup_singleton_eq.
Defined.

End MoreInstances.
